(** * FinTrack expense analyzer: a shallow embedding of [main.py]

    The development follows the layout of the source file:

    - Python values, exceptions and the string methods the cleaners call;
    - [datetime.strptime] / [strftime] for the three directives the source
      uses ([%Y], [%m], [%d]);
    - [float] and the [.2f] format over IEEE 754 binary64;
    - the four cleaners [clean_date], [clean_amount], [clean_category],
      [clean_name];
    - data frames and the [/analyze] handler [analyze_expenses];
    - the properties of the cleaners and of the handler.

    A Python [str] is represented by its UTF-8 encoding, one [ascii] per
    byte.  Character classes (whitespace, digits, letter case) are the
    ASCII ones: bytes above 127 are ordinary characters.  Python also
    counts some non-ASCII code points as whitespace (U+0085, U+00A0,
    U+2000 to U+200A, U+3000 and others), as decimal digits (the
    full-width digits, for one) or as cased letters, so the string
    methods below are those of Python on ASCII text only.  A statement
    that fixes the value a cleaner returns therefore carries the
    hypothesis [str_isascii], unless its other hypotheses are met by
    ASCII text alone or it holds of the source for every string. *)

From Stdlib Require Import ZArith NArith Ascii String List Bool Lia.
From Stdlib Require Import DecimalString DecimalZ.
From Stdlib Require Import Floats.SpecFloat.
From stdpp Require Import gmap strings.

(** ** Exceptions and results *)

(** The exception classes that can occur under [analyze_expenses]. *)
Inductive exn_class : Type :=
  | ValueError
  | UnicodeDecodeError
  | EmptyDataError
  | ParserError
  | KeyError.

(** An exception: its class and [str(e)]. *)
Record exn : Type := Exn { exn_cls : exn_class; exn_msg : string }.

(** [isinstance(e, ValueError)]: [UnicodeDecodeError] derives from
    [ValueError] in Python, and so do pandas' [EmptyDataError] and
    [ParserError]. *)
Definition is_ValueError (e : exn) : bool :=
  match exn_cls e with
  | ValueError | UnicodeDecodeError | EmptyDataError | ParserError => true
  | KeyError => false
  end.

(** A computation that returns a value or raises. *)
Inductive result (A : Type) : Type :=
  | Ok (a : A)
  | Raise (e : exn).
Arguments Ok {A} a.
Arguments Raise {A} e.

(** Sequencing: an exception raised by the first computation ends the
    whole. *)
Definition bind {A B} (r : result A) (k : A → result B) : result B :=
  match r with
  | Ok a => k a
  | Raise e => Raise e
  end.

Notation "'let*' x := r 'in' k" := (bind r (λ x, k))
  (at level 10, x name, r at level 200, k at level 200,
   format "'[v' 'let*'  x  :=  r  'in'  '/' k ']'").

(** [f] on every element in turn, up to the first that raises. *)
Fixpoint traverse {A B} (f : A → result B) (l : list A) : result (list B) :=
  match l with
  | [] => Ok []
  | a :: l' => let* b := f a in let* bs := traverse f l' in Ok (b :: bs)
  end.

(** [try: body  except <classes caught>: handler]. *)
Definition try_except {A} (body : result A) (caught : exn → bool)
    (handler : exn → result A) : result A :=
  match body with
  | Ok a => Ok a
  | Raise e => if caught e then handler e else Raise e
  end.

(** ** Characters *)

Definition code (c : ascii) : N := N_of_ascii c.

(** [str.isspace] on ASCII: TAB, LF, VT, FF, CR, the separators
    FS, GS, RS, US and the space.  [str.strip], [str.split] and the
    regular expression class [\s] use the same set on ASCII text; the
    non-ASCII whitespace of Python is not in it. *)
Definition is_space (c : ascii) : bool :=
  ((9 <=? code c) && (code c <=? 13) || (28 <=? code c) && (code c <=? 32))%N.

(** The ten ASCII digits; [float] and the [\d] of [strptime] also read
    the other decimal digits of Unicode, which are not modelled. *)
Definition is_digit (c : ascii) : bool :=
  ((48 <=? code c) && (code c <=? 57))%N.

Definition digit_val (c : ascii) : Z := Z.of_N (code c) - 48.

Definition digit_char (d : Z) : ascii := ascii_of_N (Z.to_N (48 + d)).

Definition is_upper (c : ascii) : bool :=
  ((65 <=? code c) && (code c <=? 90))%N.

Definition is_lower (c : ascii) : bool :=
  ((97 <=? code c) && (code c <=? 122))%N.

(** The case mappings of the ASCII letters; a byte above 127 is left as
    it is, so [str_lower] and [str_capitalize] below are [str.lower] and
    [str.capitalize] on ASCII text. *)
Definition lower_char (c : ascii) : ascii :=
  if is_upper c then ascii_of_N (code c + 32) else c.

Definition upper_char (c : ascii) : ascii :=
  if is_lower c then ascii_of_N (code c - 32) else c.

(** ** String methods

    On ASCII text these are the methods of Python's [str] and the
    substitution of [re].  They differ from them on a text with a
    character outside ASCII that Python takes for whitespace, for a
    digit or for a cased letter. *)

Definition str_empty (s : string) : bool :=
  match s with EmptyString => true | String _ _ => false end.

(** [s.lstrip()] *)
Fixpoint str_lstrip (s : string) : string :=
  match s with
  | EmptyString => EmptyString
  | String c r => if is_space c then str_lstrip r else s
  end.

(** [s.rstrip()] *)
Fixpoint str_rstrip (s : string) : string :=
  match s with
  | EmptyString => EmptyString
  | String c r =>
      let r' := str_rstrip r in
      if is_space c && str_empty r' then EmptyString else String c r'
  end.

(** [s.strip()] *)
Definition str_strip (s : string) : string := str_rstrip (str_lstrip s).

(** [re.sub(r'\s+', '', s)]: every maximal run of whitespace is deleted,
    which leaves exactly the characters that are not whitespace. *)
Fixpoint re_sub_spaces (s : string) : string :=
  match s with
  | EmptyString => EmptyString
  | String c r => if is_space c then re_sub_spaces r else String c (re_sub_spaces r)
  end.

(** [c in s] for a one-character [c] *)
Fixpoint str_contains (c : ascii) (s : string) : bool :=
  match s with
  | EmptyString => false
  | String c' r => Ascii.eqb c c' || str_contains c r
  end.

(** [s.replace(c, t)] for a one-character [c] *)
Fixpoint str_replace (c : ascii) (t : string) (s : string) : string :=
  match s with
  | EmptyString => EmptyString
  | String c' r =>
      if Ascii.eqb c c' then t +:+ str_replace c t r
      else String c' (str_replace c t r)
  end.

(** [s.lower()] *)
Fixpoint str_lower (s : string) : string :=
  match s with
  | EmptyString => EmptyString
  | String c r => String (lower_char c) (str_lower r)
  end.

(** [s.capitalize()] *)
Definition str_capitalize (s : string) : string :=
  match s with
  | EmptyString => EmptyString
  | String c r => String (upper_char c) (str_lower r)
  end.

(** [s.split()]: the maximal runs of non-whitespace characters *)
Fixpoint str_split (s : string) : list string :=
  match s with
  | EmptyString => []
  | String c r =>
      if is_space c then str_split r
      else match r with
           | EmptyString => [String c EmptyString]
           | String c' _ =>
               if is_space c' then String c EmptyString :: str_split r
               else match str_split r with
                    | w :: ws => String c w :: ws
                    | [] => [String c EmptyString]
                    end
           end
  end.

(** [sep.join(l)] *)
Fixpoint str_join (sep : string) (l : list string) : string :=
  match l with
  | [] => EmptyString
  | [w] => w
  | w :: ws => w +:+ sep +:+ str_join sep ws
  end.

(** [s.endswith(suffix)] *)
Fixpoint str_endswith (s suffix : string) : bool :=
  String.eqb s suffix ||
  match s with
  | EmptyString => false
  | String _ r => str_endswith r suffix
  end.

(** [repr(s)] for a string without quotes, backslashes or control
    characters, the only kind the handler ever passes to it. *)
Definition str_repr (s : string) : string := "'" +:+ s +:+ "'".

(** Decimal numerals. *)
Definition str_of_Z (n : Z) : string := NilZero.string_of_int (Z.to_int n).

(** The value of a string of decimal digits, most significant first. *)
Fixpoint digits_value (acc : Z) (s : string) : Z :=
  match s with
  | EmptyString => acc
  | String c r => digits_value (10 * acc + digit_val c) r
  end.

(** The longest prefix of decimal digits, and what follows it. *)
Fixpoint span_digits (s : string) : string * string :=
  match s with
  | EmptyString => (EmptyString, EmptyString)
  | String c r =>
      if is_digit c then let '(ds, rest) := span_digits r in (String c ds, rest)
      else (EmptyString, s)
  end.

(** ** Python values seen by the cleaners *)

(** A cell handed to a cleaner: a string, or a missing value, which
    pandas represents by [None] or by the float NaN. *)
Inductive value : Type :=
  | PyNone
  | NaN
  | Str (s : string).

(** [pd.isna(v)] *)
Definition isna (v : value) : bool :=
  match v with
  | PyNone | NaN => true
  | Str _ => false
  end.

(** [bool(v)] *)
Definition truthy (v : value) : bool :=
  match v with
  | PyNone => false
  | NaN => true
  | Str s => negb (str_empty s)
  end.

(** [str(v)] *)
Definition py_str (v : value) : string :=
  match v with
  | PyNone => "None"
  | NaN => "nan"
  | Str s => s
  end.

(** What a cleaner that returns [None] or a string hands back. *)
Definition value_of_option (o : option string) : value :=
  match o with
  | None => PyNone
  | Some s => Str s
  end.

(** ** Calendar dates, [datetime.strptime] and [strftime] *)

Record date : Type := Date { year : Z; month : Z; day : Z }.

Definition is_leap (y : Z) : bool :=
  ((y mod 4 =? 0) && (negb (y mod 100 =? 0) || (y mod 400 =? 0)))%Z.

Definition days_in_month (y m : Z) : Z :=
  (if m =? 2 then (if is_leap y then 29 else 28)
   else if (m =? 4) || (m =? 6) || (m =? 9) || (m =? 11) then 30
   else 31)%Z.

(** The dates [datetime] can build: [MINYEAR = 1], [MAXYEAR = 9999]. *)
Definition valid_date (d : date) : bool :=
  ((1 <=? year d) && (year d <=? 9999) &&
   (1 <=? month d) && (month d <=? 12) &&
   (1 <=? day d) && (day d <=? days_in_month (year d) (month d)))%Z.

(** The pieces of a format string. *)
Inductive token : Type :=
  | TY              (* %Y *)
  | Tm              (* %m *)
  | Td              (* %d *)
  | TLit (c : ascii).

(** Splits a format into directives and literal characters; [None] for a
    directive other than the three the source uses. *)
Fixpoint parse_format (fmt : string) : option (list token) :=
  match fmt with
  | EmptyString => Some []
  | String c r =>
      if Ascii.eqb c "%" then
        match r with
        | String k r' =>
            t ← (if Ascii.eqb k "Y" then Some TY
                 else if Ascii.eqb k "m" then Some Tm
                 else if Ascii.eqb k "d" then Some Td
                 else None);
            ts ← parse_format r';
            Some (t :: ts)
        | EmptyString => None
        end
      else ts ← parse_format r; Some (TLit c :: ts)
  end.

Definition between (lo hi c : ascii) : bool :=
  ((code lo <=? code c) && (code c <=? code hi))%N.

(** A regular-expression group yields its possible matches in the order
    the backtracking matcher tries them: the number read and the rest of
    the input. *)
Definition one_char (p : ascii → bool) (s : string) : list (Z * string) :=
  match s with
  | String a r => if p a then [(digit_val a, r)] else []
  | EmptyString => []
  end.

Definition two_chars (p : ascii → ascii → bool) (s : string) : list (Z * string) :=
  match s with
  | String a (String b r) =>
      if p a b then [((10 * digit_val a + digit_val b)%Z, r)] else []
  | _ => []
  end.

(** [%Y]: [\d\d\d\d] *)
Definition re_Y (s : string) : list (Z * string) :=
  match s with
  | String a (String b (String c (String d r))) =>
      if is_digit a && is_digit b && is_digit c && is_digit d
      then [((1000 * digit_val a + 100 * digit_val b + 10 * digit_val c + digit_val d)%Z, r)]
      else []
  | _ => []
  end.

(** [%m]: [1[0-2]|0[1-9]|[1-9]] *)
Definition re_m (s : string) : list (Z * string) :=
  two_chars (λ a b, Ascii.eqb a "1" && between "0" "2" b) s ++
  two_chars (λ a b, Ascii.eqb a "0" && between "1" "9" b) s ++
  one_char (between "1" "9") s.

(** [%d]: [3[0-1]|[1-2]\d|0[1-9]|[1-9]| [1-9]]; in the last alternative
    the leading space is part of the match and [int] ignores it. *)
Definition re_d (s : string) : list (Z * string) :=
  two_chars (λ a b, Ascii.eqb a "3" && between "0" "1" b) s ++
  two_chars (λ a b, between "1" "2" a && is_digit b) s ++
  two_chars (λ a b, Ascii.eqb a "0" && between "1" "9" b) s ++
  one_char (between "1" "9") s ++
  match s with
  | String a r => if Ascii.eqb a " " then one_char (between "1" "9") r else []
  | EmptyString => []
  end.

(** The groups found so far; [strptime] starts from 1900-01-01. *)
Definition set_field (t : token) (v : Z) (d : date) : date :=
  match t with
  | TY => Date v (month d) (day d)
  | Tm => Date (year d) v (day d)
  | Td => Date (year d) (month d) v
  | TLit _ => d
  end.

Definition token_re (t : token) (s : string) : list (Z * string) :=
  match t with
  | TY => re_Y s
  | Tm => re_m s
  | Td => re_d s
  | TLit c =>
      match s with
      | String c' r => if Ascii.eqb (lower_char c) (lower_char c') then [(0%Z, r)] else []
      | EmptyString => []
      end
  end.

(** All the ways the compiled format matches a prefix of [s], in the
    matcher's order; [re.match] returns the first. *)
Fixpoint re_match (ts : list token) (d : date) (s : string) : list (date * string) :=
  match ts with
  | [] => [(d, s)]
  | t :: ts' => flat_map (λ vr, re_match ts' (set_field t (fst vr) d) (snd vr)) (token_re t s)
  end.

(** [datetime.strptime(s, fmt)] for an ASCII [s]; in Python the [\d] of
    the groups also matches the decimal digits outside ASCII. *)
Definition strptime (s fmt : string) : result date :=
  match parse_format fmt with
  | None => Raise (Exn ValueError ("bad directive in format " +:+ str_repr fmt))
  | Some ts =>
      match re_match ts (Date 1900 1 1) s with
      | [] =>
          Raise (Exn ValueError ("time data " +:+ str_repr s +:+
                                 " does not match format " +:+ str_repr fmt))
      | (d, rest) :: _ =>
          if negb (str_empty rest) then
            Raise (Exn ValueError ("unconverted data remains: " +:+ rest))
          else if valid_date d then Ok d
          else if (year d =? 0)%Z then Raise (Exn ValueError "year 0 is out of range")
          else Raise (Exn ValueError "day is out of range for month")
      end
  end.

Definition pad2 (n : Z) : string :=
  String (digit_char (n / 10)) (String (digit_char (n mod 10)) EmptyString).

Definition pad4 (n : Z) : string :=
  String (digit_char (n / 1000)) (String (digit_char (n / 100 mod 10))
    (String (digit_char (n / 10 mod 10)) (String (digit_char (n mod 10)) EmptyString))).

(** [strftime] hands [%Y] to the C library.  The [datetime] documentation
    gives the year with century as four digits ([0001] ... [9999]), and
    that is what Windows and macOS print; glibc prints a year below 1000
    without the leading zeros.  The development covers both. *)
Class Platform : Type := { year_padded : bool }.

Definition iso_years : Platform := {| year_padded := true |}.
Definition glibc_years : Platform := {| year_padded := false |}.

Definition year_str {P : Platform} (y : Z) : string :=
  if year_padded then pad4 y else str_of_Z y.

Definition token_str {P : Platform} (d : date) (t : token) : string :=
  match t with
  | TY => year_str (year d)
  | Tm => pad2 (month d)
  | Td => pad2 (day d)
  | TLit c => String c EmptyString
  end.

(** [d.strftime(fmt)] *)
Definition strftime {P : Platform} (d : date) (fmt : string) : string :=
  match parse_format fmt with
  | Some ts => foldr (λ t acc, token_str d t +:+ acc) EmptyString ts
  | None => fmt
  end.

(** ** Floating-point numbers: [float], [+] and the [.2f] format

    A Python float is an IEEE 754 binary64 number, here a [spec_float] at
    precision 53 with [emax = 1024]; the operations round to nearest, ties
    to even. *)

Definition float : Type := spec_float.
Definition prec : Z := 53.
Definition emax : Z := 1024.

Definition float_zero : float := S754_zero false.
Definition float_add (x y : float) : float := SFadd prec emax x y.

Definition float_is_nan (x : float) : bool :=
  match x with S754_nan => true | _ => false end.


(** [Series.sum()] on a column of floats.  pandas puts zero in the place
    of every NaN and calls numpy's [add.reduce], whose inner loop hands
    the whole column to numpy's pairwise summation
    ([DOUBLE_pairwise_sum], with its block size of 128):

    - fewer than eight cells are added one after the other;
    - up to 128 cells go to eight accumulators, cell [i] to accumulator
      [i mod 8], eight at a time; the accumulators are then added two by
      two, and the cells left over, fewer than eight, are added to that
      sum one after the other;
    - a longer column is cut in two at a multiple of eight near its
      middle, and the sums of the two parts are added.

    The result is added to the zero the reduction starts from. *)
Definition nan_to_zero (x : float) : float :=
  if float_is_nan x then float_zero else x.

(** [blocks] passes of the unrolled loop: the next eight cells of [a]
    are added to the eight accumulators [r]. *)
Fixpoint sum_blocks (blocks : nat) (r a : list float) : list float :=
  match blocks with
  | O => r
  | S blocks' => sum_blocks blocks' (zip_with float_add r (take 8 a)) (drop 8 a)
  end.

(** A column of 8 to 128 cells.  There are eight accumulators whenever
    the column has eight cells, so that the last case does not occur. *)
Definition sum_unrolled (a : list float) : float :=
  let n := length a in
  match sum_blocks (n / 8 - 1) (take 8 a) (drop 8 a) with
  | [r0; r1; r2; r3; r4; r5; r6; r7] =>
      let res := float_add (float_add (float_add r0 r1) (float_add r2 r3))
                           (float_add (float_add r4 r5) (float_add r6 r7)) in
      foldl float_add res (drop (8 * (n / 8)) a)
  | _ => float_zero
  end.

(** [depth] bounds the levels of the recursion.  A part is shorter than
    the whole, so that as many levels as the column has cells, which is
    what [float_sum] gives, are more than the recursion uses: see
    [pairwise_sum_depth]. *)
Fixpoint pairwise_sum (depth : nat) (a : list float) : float :=
  let n := length a in
  if (n <? 8)%nat then foldl float_add float_zero a
  else if (n <=? 128)%nat then sum_unrolled a
  else
    match depth with
    | O => float_zero
    | S depth' =>
        let n2 := (n / 2 - (n / 2) mod 8)%nat in
        float_add (pairwise_sum depth' (take n2 a)) (pairwise_sum depth' (drop n2 a))
    end.

Definition float_sum (l : list float) : float :=
  float_add float_zero (pairwise_sum (length l) (nan_to_zero <$> l)).

(** The binary64 number nearest to [(-1)^neg * m * 10^e10], for [m >= 0].
    A negative power of ten divides: the quotient is taken with at least
    64 bits and rounded once, from the exact position of the remainder.
    The first two tests only cut short the cases that overflow to an
    infinity or underflow to a zero whatever the digits are. *)
Definition float_of_decimal (neg : bool) (m e10 : Z) : float :=
  (if m <=? 0 then S754_zero neg
   else if 400 <? e10 then S754_infinity neg
   else if e10 + Z.log2 m + 1 <? -400 then S754_zero neg
   else if 0 <=? e10 then binary_normalize prec emax (if neg then - (m * 10 ^ e10) else m * 10 ^ e10) 0 neg
   else
     let d := 10 ^ (- e10) in
     let s := Z.max 0 (64 + Z.log2 d - Z.log2 m) in
     let '(q, r) := Z.div_eucl (Z.shiftl m s) d in
     binary_round_aux prec emax neg q (- s) (new_location d r))%Z.

(** Numeric literals may group digits with single underscores: an
    underscore must stand between two digits. *)
Fixpoint underscores_ok (prev : ascii) (s : string) : bool :=
  match s with
  | EmptyString => negb (Ascii.eqb prev "_")
  | String c r =>
      (if Ascii.eqb c "_" then is_digit prev
       else negb (Ascii.eqb prev "_") || is_digit c)
      && underscores_ok c r
  end.

Definition strip_underscores (s : string) : string := str_replace "_" EmptyString s.

(** An optional sign. *)
Definition read_sign (s : string) : bool * string :=
  match s with
  | String c r =>
      if Ascii.eqb c "-" then (true, r)
      else if Ascii.eqb c "+" then (false, r)
      else (false, s)
  | EmptyString => (false, s)
  end.

(** The decimal forms [float] accepts after the sign:
    digits [. digits] [e [sign] digits], with a digit before or after
    the point. *)
Definition read_decimal (neg : bool) (s : string) : option float :=
  let '(ip, r1) := span_digits s in
  let '(fp, r2) :=
    match r1 with
    | String c r => if Ascii.eqb c "." then span_digits r else (EmptyString, r1)
    | EmptyString => (EmptyString, r1)
    end in
  if str_empty ip && str_empty fp then None
  else
    let m := digits_value 0 (ip +:+ fp) in
    let scale := Z.of_nat (String.length fp) in
    match r2 with
    | EmptyString => Some (float_of_decimal neg m (- scale))
    | String c r3 =>
        if Ascii.eqb (lower_char c) "e" then
          let '(eneg, r4) := read_sign r3 in
          let '(ed, r5) := span_digits r4 in
          if str_empty ed || negb (str_empty r5) then None
          else
            let e := digits_value 0 ed in
            Some (float_of_decimal neg m ((if eneg then - e else e) - scale))
        else None
    end.

(** The whitespace [float] allows around a number is that of C's
    [isspace]: TAB, LF, VT, FF, CR and the space. *)
Definition is_c_space (c : ascii) : bool :=
  ((9 <=? code c) && (code c <=? 13) || (code c =? 32))%N.

Fixpoint c_lstrip (s : string) : string :=
  match s with
  | EmptyString => EmptyString
  | String c r => if is_c_space c then c_lstrip r else s
  end.

Fixpoint c_rstrip (s : string) : string :=
  match s with
  | EmptyString => EmptyString
  | String c r =>
      let r' := c_rstrip r in
      if is_c_space c && str_empty r' then EmptyString else String c r'
  end.

(** [float(s)] for an ASCII string [s]; Python also reads the decimal
    digits and skips the whitespace outside ASCII. *)
Definition float_of_str (s : string) : result float :=
  let bad := Raise (Exn ValueError ("could not convert string to float: " +:+ str_repr s)) in
  let t := c_rstrip (c_lstrip s) in
  if negb (underscores_ok "000" t) then bad
  else
    let '(neg, body) := read_sign (strip_underscores t) in
    let word := str_lower body in
    if String.eqb word "inf" || String.eqb word "infinity" then Ok (S754_infinity neg)
    else if String.eqb word "nan" then Ok S754_nan
    else match read_decimal neg body with
         | Some x => Ok x
         | None => bad
         end.

(** [n / d] rounded to the nearest integer, ties to even, for [d > 0]. *)
Definition div_half_even (n d : Z) : Z :=
  let q := (n / d)%Z in
  match (2 * (n mod d) ?= d)%Z with
  | Lt => q
  | Gt => (q + 1)%Z
  | Eq => if Z.even q then q else (q + 1)%Z
  end.

(** [f"{x:.2f}"]: the exact value of [x] rounded to hundredths, ties to
    even; infinities and NaN have no digits. *)
Definition format_2f (x : float) : string :=
  let sign (s : bool) : string := if s then "-" else "" in
  match x with
  | S754_nan => "nan"
  | S754_infinity s => sign s +:+ "inf"
  | S754_zero s => sign s +:+ "0.00"
  | S754_finite s m e =>
      let n := (if 0 <=? e then 100 * Z.pos m * 2 ^ e
                else div_half_even (100 * Z.pos m) (2 ^ (- e)))%Z in
      sign s +:+ str_of_Z (n / 100) +:+ "." +:+ pad2 (n mod 100)
  end.

(** ** Decoding UTF-8: [bytes.decode('utf-8')] *)

Definition is_cont (b : ascii) : bool := ((128 <=? code b) && (code b <=? 191))%N.

Definition hex_digit (n : N) : ascii :=
  if (n <? 10)%N then ascii_of_N (48 + n) else ascii_of_N (87 + n).

Definition hex2 (b : ascii) : string :=
  String (hex_digit (code b / 16)) (String (hex_digit (code b mod 16)) EmptyString).

(** The text of a [UnicodeDecodeError]: the bytes [start .. stop - 1]
    cannot be decoded, [b] is the first of them. *)
Definition utf8_message (b : ascii) (start stop : N) (reason : string) : string :=
  "'utf-8' codec can't decode " +:+
  (if (stop =? start + 1)%N
   then "byte 0x" +:+ hex2 b +:+ " in position " +:+ str_of_Z (Z.of_N start)
   else "bytes in position " +:+ str_of_Z (Z.of_N start) +:+ "-" +:+ str_of_Z (Z.of_N stop - 1))
  +:+ ": " +:+ reason.

(** Scans well-formed UTF-8 (no overlong forms, no surrogates, nothing
    above U+10FFFF) from position [pos]; the first ill-formed sequence
    gives the error message the decoder raises. *)
Fixpoint utf8_scan (pos : N) (s : string) : option string :=
  let stop_at_end (b : ascii) (rest : string) :=
    Some (utf8_message b pos (pos + 1 + N.of_nat (String.length rest)) "unexpected end of data") in
  let bad_cont (b : ascii) (n : N) :=
    Some (utf8_message b pos (pos + n) "invalid continuation byte") in
  match s with
  | EmptyString => None
  | String b0 r =>
      let c0 := code b0 in
      if (c0 <? 128)%N then utf8_scan (pos + 1) r
      else if (c0 <? 194)%N then Some (utf8_message b0 pos (pos + 1) "invalid start byte")
      else if (c0 <? 224)%N then
        match r with
        | EmptyString => stop_at_end b0 r
        | String b1 r1 =>
            if is_cont b1 then utf8_scan (pos + 2) r1 else bad_cont b0 1%N
        end
      else if (c0 <? 240)%N then
        match r with
        | EmptyString => stop_at_end b0 r
        | String b1 r1 =>
            if negb (is_cont b1)
               || (if (code b1 <? 160)%N then (c0 =? 224)%N else (c0 =? 237)%N)
            then bad_cont b0 1%N
            else match r1 with
                 | EmptyString => stop_at_end b0 r
                 | String b2 r2 =>
                     if is_cont b2 then utf8_scan (pos + 3) r2 else bad_cont b0 2%N
                 end
        end
      else if (c0 <? 245)%N then
        match r with
        | EmptyString => stop_at_end b0 r
        | String b1 r1 =>
            if negb (is_cont b1)
               || (if (code b1 <? 144)%N then (c0 =? 240)%N else (c0 =? 244)%N)
            then bad_cont b0 1%N
            else match r1 with
                 | EmptyString => stop_at_end b0 r
                 | String b2 r2 =>
                     if negb (is_cont b2) then bad_cont b0 2%N
                     else match r2 with
                          | EmptyString => stop_at_end b0 r
                          | String b3 r3 =>
                              if is_cont b3 then utf8_scan (pos + 4) r3 else bad_cont b0 3%N
                          end
                 end
        end
      else Some (utf8_message b0 pos (pos + 1) "invalid start byte")
  end.

Definition utf8_error (bytes : string) : option string := utf8_scan 0 bytes.

(** [content.decode('utf-8')]; the decoded text keeps its UTF-8
    representation. *)
Definition decode_utf8 (bytes : string) : result string :=
  match utf8_error bytes with
  | None => Ok bytes
  | Some msg => Raise (Exn UnicodeDecodeError msg)
  end.

(** ** The cleaners *)

(** The formats of [clean_date], in the order the loop tries them. *)
Definition formats : list string :=
  [ "%Y-%m-%d"      (* 2023-04-20 *)
  ; "%d/%m/%Y"      (* 20/04/2023 *)
  ; "%m/%d/%Y"      (* 04/20/2023 *)
  ; "%d-%m-%Y"      (* 20-04-2023 *)
  ; "%m-%d-%Y"      (* 04-20-2023 *)
  ; "%Y/%m/%d"      (* 2023/04/20 *)
  ].

(** The loop [for fmt in formats: try ... except ValueError: continue]
    and the [return date_str] after it. *)
Fixpoint try_formats {P : Platform} (date_str : string) (fmts : list string)
    : result (option string) :=
  match fmts with
  | [] => Ok (Some date_str)
  | fmt :: rest =>
      try_except
        (let* parsed_date := strptime date_str fmt in
         Ok (Some (strftime parsed_date "%Y-%m-%d")))
        is_ValueError
        (λ _, try_formats date_str rest)
  end.

Definition clean_date {P : Platform} (date_str : value) : result (option string) :=
  if isna date_str || negb (truthy date_str) then Ok None
  else
    let date_str := str_strip (py_str date_str) in
    try_formats date_str formats.

Definition clean_amount (amount_str : value) : result float :=
  if isna amount_str then Ok float_zero
  else
    let amount_str := str_strip (py_str amount_str) in
    let amount_str := re_sub_spaces amount_str in
    let amount_str :=
      if str_contains "," amount_str && negb (str_contains "." amount_str)
      then str_replace "," "." amount_str
      else if str_contains "," amount_str && str_contains "." amount_str
      then str_replace "," "" amount_str
      else amount_str in
    try_except (float_of_str amount_str) is_ValueError (λ _, Ok float_zero).

Definition category_mapping : gmap string string :=
  <["food" := "Food"]> (<["travel" := "Travel"]> (<["health" := "Health"]>
    (<["office" := "Office"]> (<["other" := "Other"]> ∅)))).

Definition clean_category (category_str : value) : string :=
  if isna category_str || negb (truthy category_str) then "Other"
  else
    let category_str := str_lower (str_strip (py_str category_str)) in
    default "Other" (category_mapping !! category_str).

Definition clean_name (name_str : value) : string :=
  if isna name_str || negb (truthy name_str) then ""
  else
    let name_str := str_strip (py_str name_str) in
    str_join " " (str_capitalize <$> str_split name_str).

(** ** Data frames *)

(** A column: strings and missing values (dtype [object]), or floats
    (dtype [float64]). *)
Inductive series : Type :=
  | Object (cells : list value)
  | Float64 (cells : list float).

(** [df[key]]; a missing column raises [KeyError(key)], whose text is
    the [repr] of the key. *)
Definition getitem {A} (df : gmap string A) (key : string) : result A :=
  match df !! key with
  | Some col => Ok col
  | None => Raise (Exn KeyError (str_repr key))
  end.

(** [col.apply(clean_category)].  A float cell is missing, zero, or
    prints as a numeral, never as one of the five keys. *)
Definition apply_clean_category (col : series) : series :=
  match col with
  | Object l => Object ((λ v, Str (clean_category v)) <$> l)
  | Float64 l => Object ((λ _, Str "Other") <$> l)
  end.

(** [col == x] for a string [x] *)
Definition series_eq (col : series) (x : string) : list bool :=
  match col with
  | Object l => (λ v, match v with Str t => String.eqb t x | _ => false end) <$> l
  | Float64 l => (λ _, false) <$> l
  end.

(** The cells a boolean mask keeps. *)
Fixpoint mask_filter {A} (mask : list bool) (l : list A) : list A :=
  match mask, l with
  | b :: mask', a :: l' =>
      if b then a :: mask_filter mask' l' else mask_filter mask' l'
  | _, _ => []
  end.

Definition series_filter (mask : list bool) (col : series) : series :=
  match col with
  | Object l => Object (mask_filter mask l)
  | Float64 l => Float64 (mask_filter mask l)
  end.

(** [col.sum()]; an empty column sums to zero.  Adding strings does not
    give a number that [.2f] can format. *)
Definition series_sum (col : series) : result float :=
  match col with
  | Float64 l => Ok (float_sum l)
  | Object [] => Ok float_zero
  | Object (_ :: _) =>
      Raise (Exn ValueError "Unknown format code 'f' for object of type 'str'")
  end.

(** ** Reading a semicolon-separated file: [pd.read_csv(..., sep=';')]

    The reader belongs to pandas, so the handler below takes it as an
    argument, and the statements about the handler hold for every
    reader.  [pd_read_csv] is pandas' reader on plain text only, and
    serves to run the handler on example files of that kind: no
    byte-order mark, no quote character, no data row longer than the
    header (pandas raises on such a row, except on the first, which it
    takes to start with index columns).  Every cell is kept as text or
    recognised as missing: where pandas converts a column of numerals to
    numbers, the cleaners get the number and here the numeral, which
    [clean_amount] reads as the same number for the numerals of the
    examples. *)

Definition LF : ascii := "010".
Definition CR : ascii := "013".

(** LF, CR and CR LF all end a line. *)
Fixpoint universal_newlines (s : string) : string :=
  match s with
  | EmptyString => EmptyString
  | String c r =>
      if Ascii.eqb c CR then
        String LF match r with
                  | String c' r' =>
                      if Ascii.eqb c' LF then universal_newlines r' else universal_newlines r
                  | EmptyString => EmptyString
                  end
      else String c (universal_newlines r)
  end.

(** [s.split(sep)] for a one-character separator *)
Fixpoint split_on (sep : ascii) (s : string) : list string :=
  match s with
  | EmptyString => [EmptyString]
  | String c r =>
      if Ascii.eqb c sep then EmptyString :: split_on sep r
      else match split_on sep r with
           | w :: ws => String c w :: ws
           | [] => [String c EmptyString]
           end
  end.

(** A line of spaces and tabs only is skipped like an empty one. *)
Fixpoint blank_line (s : string) : bool :=
  match s with
  | EmptyString => true
  | String c r => (Ascii.eqb c " " || Ascii.eqb c "009") && blank_line r
  end.

(** The cell texts pandas reads as missing. *)
Definition na_values : list string :=
  [ ""; "#N/A"; "#N/A N/A"; "#NA"; "-1.#IND"; "-1.#QNAN"; "-NaN"; "-nan";
    "1.#IND"; "1.#QNAN"; "<NA>"; "N/A"; "NA"; "NULL"; "NaN"; "None";
    "n/a"; "nan"; "null" ].

Definition read_cell (t : string) : value :=
  if bool_decide (t ∈ na_values) then NaN else Str t.

(** The first row with more fields than the header, with its line number. *)
Fixpoint long_row (width : nat) (rows : list (nat * list string)) : option (nat * nat) :=
  match rows with
  | [] => None
  | (n, fields) :: rest =>
      if (width <? length fields)%nat then Some (n, length fields) else long_row width rest
  end.

Definition pd_read_csv (text : string) : result (gmap string (list value)) :=
  let lines := split_on LF (universal_newlines text) in
  let numbered := zip (seq 1 (length lines)) lines in
  let kept := filter (λ nl, blank_line (snd nl) = false) numbered in
  match kept with
  | [] => Raise (Exn EmptyDataError "No columns to parse from file")
  | (_, header) :: rows =>
      let names := split_on ";" header in
      let rows := (λ nl, (fst nl, split_on ";" (snd nl))) <$> rows in
      match long_row (length names) rows with
      | Some (n, k) =>
          Raise (Exn ParserError
            ("Error tokenizing data. C error: Expected " +:+
             str_of_Z (Z.of_nat (length names)) +:+ " fields in line " +:+
             str_of_Z (Z.of_nat n) +:+ ", saw " +:+ str_of_Z (Z.of_nat k) +:+
             String LF EmptyString))
      | None =>
          let column (i : nat) : list value :=
            (λ row, from_option read_cell NaN (snd row !! i)) <$> rows in
          Ok (list_to_map (zip names (column <$> seq 0 (length names))))
      end
  end.

(** ** The [/analyze] handler *)

(** The uploaded file: its name, its bytes and the read position. *)
Record UploadFile : Type :=
  { filename : string; content : string; cursor : nat }.

Fixpoint str_drop (n : nat) (s : string) : string :=
  match n, s with
  | S n', String _ r => str_drop n' r
  | _, _ => s
  end.

(** [file.read()]: the bytes from the read position on; the position
    moves to the end, and stays where it is when it is already past the
    end. *)
Definition file_read (file : UploadFile) : string * UploadFile :=
  (str_drop (cursor file) (content file),
   {| filename := filename file; content := content file;
      cursor := Nat.max (cursor file) (String.length (content file)) |}).

(** The JSON object the handler returns. *)
Record response : Type :=
  { answer : string; email : string; exam : string }.

(** What the client gets: the body with status 200, or the status and
    detail of an [HTTPException]. *)
Inductive http_result : Type :=
  | Response (body : response)
  | HTTPException (status_code : Z) (detail : string).

Definition status (r : http_result) : Z :=
  match r with
  | Response _ => 200
  | HTTPException code _ => code
  end.

(** The body of the [try] block once the bytes are read. *)
Definition process {P : Platform} (read_csv : string → result (gmap string (list value)))
    (content : string) : result response :=
  let* text := decode_utf8 content in
  let* df := read_csv text in
  (* df['Name'] = df['Name'].apply(clean_name) *)
  let* col := getitem df "Name" in
  let df := <["Name" := (λ v, Str (clean_name v)) <$> col]> df in
  (* df['Date'] = df['Date'].apply(clean_date) *)
  let* col := getitem df "Date" in
  let* dates := traverse clean_date col in
  let df := <["Date" := value_of_option <$> dates]> df in
  (* df['Amount'] = df['Amount'].apply(clean_amount) *)
  let* col := getitem df "Amount" in
  let* amounts := traverse clean_amount col in
  let df : gmap string series := <["Amount" := Float64 amounts]> (Object <$> df) in
  (* df['Category'] = df['Category'].apply(clean_category) *)
  let* col := getitem df "Category" in
  let df := <["Category" := apply_clean_category col]> df in
  (* food_expenses = df[df['Category'] == 'Food'] *)
  let* col := getitem df "Category" in
  let food_expenses := series_filter (series_eq col "Food") <$> df in
  (* total_food_spending = food_expenses['Amount'].sum() *)
  let* col := getitem food_expenses "Amount" in
  let* total_food_spending := series_sum col in
  Ok {| answer := "$" +:+ format_2f total_food_spending;
        email := "22f3003091@ds.study.iitm.ac.in";
        exam := "tds-2025-05-roe" |}.

Definition analyze_expenses {P : Platform}
    (read_csv : string → result (gmap string (list value)))
    (file : UploadFile) : http_result * UploadFile :=
  if negb (str_endswith (filename file) ".csv") then
    (HTTPException 400 "File must be a CSV", file)
  else
    let '(content, file) := file_read file in
    match process read_csv content with
    | Ok response => (Response response, file)
    | Raise e => (HTTPException 500 ("Error processing file: " +:+ exn_msg e), file)
    end.

Definition upload (name bytes : string) : UploadFile :=
  {| filename := name; content := bytes; cursor := 0 |}.

Definition csv_lines (l : list string) : string :=
  foldr (λ line acc, line +:+ String LF acc) EmptyString l.

(** ** The properties, in the words of the specification *)

(** The date the first format that parses [t] gives, if any. *)
Fixpoint first_parse (fmts : list string) (t : string) : option date :=
  match fmts with
  | [] => None
  | fmt :: rest =>
      match strptime t fmt with
      | Ok d => Some d
      | Raise _ => first_parse rest t
      end
  end.

(** Whitespace only. *)
Fixpoint all_space (s : string) : bool :=
  match s with
  | EmptyString => true
  | String c r => is_space c && all_space r
  end.

(** No whitespace at all. *)
Fixpoint no_space (s : string) : bool :=
  match s with
  | EmptyString => true
  | String c r => negb (is_space c) && no_space r
  end.

(** The text [clean_amount] parses: all whitespace removed, then a comma
    read as the decimal point when there is no period, and as a
    thousands separator when there is one. *)
Definition amount_text (s : string) : string :=
  let t := re_sub_spaces s in
  match str_contains "," t, str_contains "." t with
  | true, false => str_replace "," "." t
  | true, true => str_replace "," "" t
  | false, _ => t
  end.

(** The number an amount cell counts for. *)
Definition normalized_amount (v : value) : float :=
  match clean_amount v with
  | Ok x => x
  | Raise _ => float_zero
  end.

(** The five canonical labels and the table of [clean_category]. *)
Definition labels : list string := ["Food"; "Travel"; "Health"; "Office"; "Other"].

Definition canonical (key : string) : string :=
  if String.eqb key "food" then "Food"
  else if String.eqb key "travel" then "Travel"
  else if String.eqb key "health" then "Health"
  else if String.eqb key "office" then "Office"
  else "Other".

(** Row by row: the normalized amounts of the rows whose normalized
    category is Food. *)
Definition food_amounts (amounts cats : list value) : list float :=
  normalized_amount ∘ fst <$>
    filter (λ row, clean_category (snd row) = "Food") (zip amounts cats).

Definition food_total (amounts cats : list value) : float :=
  float_sum (food_amounts amounts cats).


(** The sum of a list of integers: amounts counted in hundredths. *)
Definition sum_Z (ns : list Z) : Z := foldr Z.add 0%Z ns.








(** The files of the examples. *)
Definition example_csv : string :=
  csv_lines ["Name;Date;Amount;Category";
             "john doe;20/04/2023;12,50;food";
             "jane;2023-01-01;5.00;travel"].


Definition no_category_csv : string :=
  csv_lines ["Name;Date;Amount"; "john doe;20/04/2023;12,50"].


(** The body of a successful response. *)
Definition body (total : string) : response :=
  {| answer := total;
     email := "22f3003091@ds.study.iitm.ac.in";
     exam := "tds-2025-05-roe" |}.

(** ** Notions used in the proofs *)

(** A string that does not begin with whitespace. *)
Definition starts_clean (s : string) : bool :=
  match s with
  | EmptyString => true
  | String c _ => negb (is_space c)
  end.

(** A day or month group takes one digit, or two characters of which the
    second is a digit. *)
Definition short_group (s r : string) : Prop :=
  (∃ a, s = String a r ∧ is_digit a = true) ∨
  (∃ a b, s = String a (String b r) ∧ is_digit b = true).

(** The shapes of the strings the formats match. *)
Definition day_first_shape (sep : ascii) (s : string) : Prop :=
  (∃ a r, s = String a (String sep r) ∧ is_digit a = true) ∨
  (∃ a b r, s = String a (String b (String sep r)) ∧ is_digit b = true).

Definition year_first_shape (sep : ascii) (s : string) : Prop :=
  ∃ a b c d r, s = String a (String b (String c (String d (String sep r)))) ∧
    is_digit a = true ∧ is_digit b = true ∧ is_digit c = true ∧ is_digit d = true.

(** The two ways to write a day or a month up to 12 without a padding
    space: the plain numeral and the numeral on two digits. *)
Definition numerals (n : Z) : list string := [str_of_Z n; pad2 n].

(** Whether a format matches the whole of [s]; the test leaves out the
    calendar check and the error messages of [strptime]. *)
Definition matches (s : string) (ts : list token) : bool :=
  match re_match ts (Date 1900 1 1) s with
  | (_, EmptyString) :: _ => true
  | _ => false
  end.

Definition format_tokens : list (list token) :=
  omap parse_format formats.

(** What [clean_date] needs of a string it is given back unchanged: it
    is not empty, has nothing to strip and no format matches it. *)
Definition passes_through (s : string) : bool :=
  negb (str_empty s) && no_space s &&
  forallb (λ ts, negb (matches s ts)) format_tokens.


(** Decimal digits only. *)
Fixpoint all_digits (s : string) : bool :=
  match s with
  | EmptyString => true
  | String c r => is_digit c && all_digits r
  end.

(** ** Notions of the further properties *)

(** [s.isascii()] *)
Fixpoint str_isascii (s : string) : bool :=
  match s with
  | EmptyString => true
  | String c r => (code c <? 128)%N && str_isascii r
  end.

(** [s.count(c)] for a one-character [c] *)
Fixpoint str_count (c : ascii) (s : string) : nat :=
  match s with
  | EmptyString => 0
  | String c' r => (if Ascii.eqb c c' then 1 else 0) + str_count c r
  end.

(** No uppercase ASCII letter. *)
Fixpoint no_upper (s : string) : bool :=
  match s with
  | EmptyString => true
  | String c r => negb (is_upper c) && no_upper r
  end.

(** A word as [capitalize] leaves it: no lowercase ASCII letter in
    front, no uppercase ASCII letter after it. *)
Definition capitalized (w : string) : bool :=
  match w with
  | EmptyString => true
  | String c r => negb (is_lower c) && no_upper r
  end.

(** The ASCII characters that a text [clean_amount] does not read as
    zero can begin with, once the whitespace is gone: a digit, a sign, a
    decimal separator, or the first letter of [inf] or [nan].  Bytes
    above 127 are left aside. *)
Definition may_begin_amount (c : ascii) : bool :=
  is_digit c || existsb (Ascii.eqb c) ["+"; "-"; "."; ","; "i"; "I"; "n"; "N"]%char
  || (128 <=? code c)%N.

(** Three fields written with the separator [sep] between them. *)
Definition date_text (sep : ascii) (a b c : string) : string :=
  a +:+ String sep (b +:+ String sep c).

(** Between [lo] and [hi] decimal digits and nothing else. *)
Definition digits_between (lo hi : nat) (s : string) : bool :=
  all_digits s && (lo <=? String.length s)%nat && (String.length s <=? hi)%nat.

(** The columns the handler reads, in the order it reads them. *)
Definition required_columns : list string := ["Name"; "Date"; "Amount"; "Category"].

(** [n] hundredths written with two decimals, after a minus sign when
    [neg] is set: [hundredths_text false 1250] is ["12.50"]. *)
Definition hundredths_text (neg : bool) (n : Z) : string :=
  (if neg then "-" else "") +:+ str_of_Z (n / 100) +:+ "." +:+ pad2 (n mod 100).

(** A word of [split]: not empty and without whitespace. *)
Definition word (w : string) : bool := negb (str_empty w) && no_space w.

(** [strptime] as a partial function. *)
Definition parse_with (fmt t : string) : option date :=
  match strptime t fmt with
  | Ok d => Some d
  | Raise _ => None
  end.

(** The date the groups of a match give, if [datetime] accepts it. *)
Definition checked (d : date) : option date :=
  if valid_date d then Some d else None.

(** Every character passes the test [p]. *)
Fixpoint str_forall (p : ascii → bool) (s : string) : bool :=
  match s with
  | EmptyString => true
  | String c r => p c && str_forall p r
  end.

(** The characters of a plain decimal numeral. *)
Definition plain_char (c : ascii) : bool :=
  is_digit c || Ascii.eqb c "." || Ascii.eqb c "-".

(** A word that begins with a lowercase ASCII letter. *)
Definition is_lower_first (w : string) : Prop :=
  match w with
  | String a _ => is_lower a = true
  | EmptyString => False
  end.

(** The mantissa [binary_round_aux] keeps of [q] when [k] bits have to
    go; [inexact] tells that [q] itself is a truncation. *)
Definition round_shift (q k : Z) (inexact : bool) : Z :=
  let m1 := (q / 2 ^ k)%Z in
  round_nearest_even m1
    (loc_of_shr_record
       (Build_shr_record m1 (Z.odd (q / 2 ^ (k - 1)))
          (negb (q mod 2 ^ (k - 1) =? 0)%Z || inexact))).

(** A float that is zero, or positive with a full mantissa and an
    exponent from -59 to -25: [N] is its value in units of [2 ^ -59].
    The amounts from one hundredth up, and their sums below [2 ^ 27],
    are of this kind. *)
Definition on_grid (x : float) (N : Z) : Prop :=
  (x = float_zero ∧ N = 0%Z) ∨
  ∃ m e, x = S754_finite false m e ∧ (2 ^ 52 <= Z.pos m < 2 ^ 53)%Z ∧
         (-59 <= e <= -25)%Z ∧ N = (Z.pos m * 2 ^ (e + 59))%Z.

(** [x] stands for [S] hundredths after [c] roundings: each of them
    moves a number below [2 ^ 27] by [2 ^ -27] at most. *)
Definition approx (x : float) (S c : Z) : Prop :=
  (0 <= S)%Z ∧ (0 <= c)%Z ∧
  ∃ N, on_grid x N ∧ (Z.abs (100 * N - S * 2 ^ 59) <= c * (100 * 2 ^ 32))%Z.

(** * Properties *)

(** ** Strings *)

Lemma str_empty_eq (s : string) : str_empty s = true → s = "".
Proof. by destruct s. Qed.

Lemma str_empty_false (s : string) : s ≠ "" → str_empty s = false.
Proof. by destruct s. Qed.

Lemma str_lstrip_starts_clean (s : string) : starts_clean (str_lstrip s) = true.
Proof.
  induction s as [|c r IH]; simpl; [done|].
  destruct (is_space c) eqn:Hc; [done|]. simpl. by rewrite Hc.
Qed.

Lemma str_lstrip_clean (s : string) : starts_clean s = true → str_lstrip s = s.
Proof.
  destruct s as [|c r]; simpl; [done|].
  by destruct (is_space c).
Qed.

Lemma str_rstrip_starts_clean (s : string) :
  starts_clean s = true → starts_clean (str_rstrip s) = true.
Proof.
  destruct s as [|c r]; simpl; [done|].
  intros Hc%negb_true_iff. rewrite Hc. simpl. by rewrite Hc.
Qed.

Lemma str_rstrip_idem (s : string) : str_rstrip (str_rstrip s) = str_rstrip s.
Proof.
  induction s as [|c r IH]; simpl; [done|].
  destruct (is_space c && str_empty (str_rstrip r)) eqn:Hc; [done|].
  simpl. by rewrite IH, Hc.
Qed.

Lemma str_strip_idem (s : string) : str_strip (str_strip s) = str_strip s.
Proof.
  unfold str_strip.
  rewrite (str_lstrip_clean (str_rstrip _)).
  - apply str_rstrip_idem.
  - apply str_rstrip_starts_clean, str_lstrip_starts_clean.
Qed.




Lemma str_rstrip_no_space (s : string) : no_space s = true → str_rstrip s = s.
Proof.
  induction s as [|c r IH]; simpl; [done|].
  intros [Hc Hr]%andb_prop. apply negb_true_iff in Hc. rewrite Hc. simpl.
  by rewrite IH.
Qed.

Lemma str_strip_no_space (s : string) : no_space s = true → str_strip s = s.
Proof.
  intros H. unfold str_strip. rewrite str_lstrip_clean.
  - by apply str_rstrip_no_space.
  - destruct s; [done|]. simpl in *. by apply andb_prop in H as [-> _].
Qed.

Lemma re_sub_spaces_lstrip (s : string) : re_sub_spaces (str_lstrip s) = re_sub_spaces s.
Proof.
  induction s as [|c r IH]; simpl; [done|].
  destruct (is_space c) eqn:Hc; [done|]. simpl. by rewrite Hc.
Qed.

Lemma re_sub_spaces_rstrip (s : string) : re_sub_spaces (str_rstrip s) = re_sub_spaces s.
Proof.
  induction s as [|c r IH]; simpl; [done|].
  destruct (is_space c) eqn:Hc; simpl.
  - destruct (str_empty (str_rstrip r)) eqn:He.
    + apply str_empty_eq in He. rewrite He in IH. by rewrite <- IH.
    + simpl. by rewrite Hc.
  - by rewrite Hc, IH.
Qed.

(** Removing all whitespace makes the earlier [strip] redundant. *)
Lemma re_sub_spaces_strip (s : string) : re_sub_spaces (str_strip s) = re_sub_spaces s.
Proof. unfold str_strip. by rewrite re_sub_spaces_rstrip, re_sub_spaces_lstrip. Qed.

Lemma re_sub_spaces_no_space (s : string) : no_space (re_sub_spaces s) = true.
Proof.
  induction s as [|c r IH]; simpl; [done|].
  destruct (is_space c) eqn:Hc; [done|]. simpl. by rewrite Hc.
Qed.

(** ** Characters *)

Lemma code_inj (a b : ascii) : code a = code b → a = b.
Proof.
  unfold code. intros H.
  by rewrite <- (ascii_N_embedding a), <- (ascii_N_embedding b), H.
Qed.

Lemma ascii_eqb_code (a b : ascii) : Ascii.eqb a b = (code a =? code b)%N.
Proof.
  destruct (Ascii.eqb_spec a b) as [->|Hne].
  - by rewrite N.eqb_refl.
  - symmetry. apply N.eqb_neq. intros H. by apply Hne, code_inj.
Qed.

(** Turns the tests on characters into comparisons of their codes and
    lets [lia] finish. *)
Ltac char_codes :=
  unfold is_digit, is_space, is_upper, is_lower, between, digit_val in *;
  rewrite ?ascii_eqb_code in *;
  repeat match goal with
  | |- context [code (Ascii ?a ?b ?c ?d ?e ?f ?g ?h)] =>
      let v := eval vm_compute in (code (Ascii a b c d e f g h)) in
      change (code (Ascii a b c d e f g h)) with v
  | H : context [code (Ascii ?a ?b ?c ?d ?e ?f ?g ?h)] |- _ =>
      let v := eval vm_compute in (code (Ascii a b c d e f g h)) in
      change (code (Ascii a b c d e f g h)) with v in H
  end;
  repeat match goal with
  | |- context [N.leb ?a ?b] => destruct (N.leb_spec a b)
  | H : context [N.leb ?a ?b] |- _ => destruct (N.leb_spec a b)
  | |- context [N.eqb ?a ?b] => destruct (N.eqb_spec a b)
  | H : context [N.eqb ?a ?b] |- _ => destruct (N.eqb_spec a b)
  end;
  simpl in *; try done; try lia.

Lemma code_lt_256 (c : ascii) : (code c < 256)%N.
Proof. apply N_ascii_bounded. Qed.

Lemma is_digit_not_space (c : ascii) : is_digit c = true → is_space c = false.
Proof. intros H. char_codes. Qed.

Lemma is_digit_lower (c : ascii) : is_digit c = true → lower_char c = c.
Proof.
  intros H. unfold lower_char. replace (is_upper c) with false; [done|].
  symmetry. char_codes.
Qed.

Lemma digit_char_code (k : Z) : (0 <= k <= 9)%Z → code (digit_char k) = Z.to_N (48 + k).
Proof.
  intros Hk. unfold code, digit_char. apply N_ascii_embedding. lia.
Qed.

Lemma digit_char_is_digit (k : Z) : (0 <= k <= 9)%Z → is_digit (digit_char k) = true.
Proof. intros Hk. unfold is_digit. rewrite digit_char_code by done. char_codes. Qed.

Lemma digit_char_val (k : Z) : (0 <= k <= 9)%Z → digit_val (digit_char k) = k.
Proof. intros Hk. unfold digit_val. rewrite digit_char_code by done. lia. Qed.

(** The two separators have no other letter case. *)
Lemma lit_slash (c : ascii) : Ascii.eqb (lower_char "/") (lower_char c) = Ascii.eqb "/" c.
Proof. destruct c as [[] [] [] [] [] [] [] []]; reflexivity. Qed.

Lemma lit_dash (c : ascii) : Ascii.eqb (lower_char "-") (lower_char c) = Ascii.eqb "-" c.
Proof. destruct c as [[] [] [] [] [] [] [] []]; reflexivity. Qed.

(** ** What the groups of a format match *)

Lemma one_char_inv p s v r :
  In (v, r) (one_char p s) → ∃ a, s = String a r ∧ p a = true ∧ v = digit_val a.
Proof.
  destruct s as [|a s']; simpl; [done|].
  destruct (p a) eqn:Hp; simpl; [|done].
  intros [[= <- <-]|[]]. eauto.
Qed.

Lemma two_chars_inv p s v r :
  In (v, r) (two_chars p s) →
  ∃ a b, s = String a (String b r) ∧ p a b = true ∧ v = (10 * digit_val a + digit_val b)%Z.
Proof.
  destruct s as [|a [|b s']]; simpl; [done..|].
  destruct (p a b) eqn:Hp; simpl; [|done].
  intros [[= <- <-]|[]]. eauto.
Qed.

Lemma re_m_inv s v r : In (v, r) (re_m s) → short_group s r ∧ (1 <= v <= 12)%Z.
Proof.
  unfold re_m. rewrite !in_app_iff.
  intros [H|[H|H]].
  - apply two_chars_inv in H as (a & b & -> & Hp & ->). split; [right; do 2 eexists; split; [done|]|]; char_codes.
  - apply two_chars_inv in H as (a & b & -> & Hp & ->). split; [right; do 2 eexists; split; [done|]|]; char_codes.
  - apply one_char_inv in H as (a & -> & Hp & ->). split; [left; eexists; split; [done|]|]; char_codes.
Qed.

Lemma re_d_inv s v r : In (v, r) (re_d s) → short_group s r ∧ (1 <= v <= 31)%Z.
Proof.
  unfold re_d. rewrite !in_app_iff.
  intros [H|[H|[H|[H|H]]]].
  - apply two_chars_inv in H as (a & b & -> & Hp & ->). split; [right; do 2 eexists; split; [done|]|]; char_codes.
  - apply two_chars_inv in H as (a & b & -> & Hp & ->). split; [right; do 2 eexists; split; [done|]|]; char_codes.
  - apply two_chars_inv in H as (a & b & -> & Hp & ->). split; [right; do 2 eexists; split; [done|]|]; char_codes.
  - apply one_char_inv in H as (a & -> & Hp & ->). split; [left; eexists; split; [done|]|]; char_codes.
  - destruct s as [|a s']; [done|].
    destruct (Ascii.eqb a " ") eqn:Ha; [|done].
    apply one_char_inv in H as (b & -> & Hp & ->).
    split; [right; do 2 eexists; split; [done|]|]; char_codes.
Qed.

Lemma re_Y_inv s v r :
  In (v, r) (re_Y s) →
  ∃ a b c d, s = String a (String b (String c (String d r))) ∧
    is_digit a = true ∧ is_digit b = true ∧ is_digit c = true ∧ is_digit d = true ∧
    v = (1000 * digit_val a + 100 * digit_val b + 10 * digit_val c + digit_val d)%Z.
Proof.
  destruct s as [|a [|b [|c [|d s']]]]; simpl; [done..|].
  destruct (is_digit a) eqn:Ha, (is_digit b) eqn:Hb, (is_digit c) eqn:Hc,
    (is_digit d) eqn:Hd; simpl; try done.
  intros [[= <- <-]|[]]. by exists a, b, c, d.
Qed.

Lemma token_lit_inv c s v r :
  c = "/"%char ∨ c = "-"%char →
  In (v, r) (token_re (TLit c) s) → s = String c r.
Proof.
  intros Hc. destruct s as [|c' s']; simpl; [done|].
  assert (Ascii.eqb (lower_char c) (lower_char c') = Ascii.eqb c c') as ->
    by (destruct Hc as [->| ->]; [apply lit_slash|apply lit_dash]).
  destruct (Ascii.eqb_spec c c') as [->|]; [|done].
  by intros [[= <- <-]|[]].
Qed.

Lemma re_match_cons t ts d s x :
  In x (re_match (t :: ts) d s) ↔
  ∃ v r, In (v, r) (token_re t s) ∧ In x (re_match ts (set_field t v d) r).
Proof.
  simpl. rewrite in_flat_map. split.
  - intros [[v r] [? ?]]. eauto.
  - intros (v & r & ? & ?). by exists (v, r).
Qed.

Lemma day_first_match t sep ts d s x :
  t = Td ∨ t = Tm → sep = "/"%char ∨ sep = "-"%char →
  In x (re_match (t :: TLit sep :: ts) d s) → day_first_shape sep s.
Proof.
  intros Ht Hsep (v & r & Hv & (v' & r' & Hlit & _)%re_match_cons)%re_match_cons.
  apply token_lit_inv in Hlit as ->; [|done].
  assert (short_group s (String sep r')) as [(a & -> & Ha)|(a & b & -> & Hb)].
  { destruct Ht as [-> | ->]; simpl in Hv; [by apply re_d_inv in Hv as [? _]|by apply re_m_inv in Hv as [? _]]. }
  - left. eauto.
  - right. eauto.
Qed.

Lemma year_first_match sep ts d s x :
  sep = "/"%char ∨ sep = "-"%char →
  In x (re_match (TY :: TLit sep :: ts) d s) → year_first_shape sep s.
Proof.
  intros Hsep (v & r & Hv & (v' & r' & Hlit & _)%re_match_cons)%re_match_cons.
  apply token_lit_inv in Hlit as ->; [|done].
  simpl in Hv. apply re_Y_inv in Hv as (a & b & c & e & -> & ? & ? & ? & ? & _).
  by exists a, b, c, e, r'.
Qed.

Lemma shapes_day_year sep sep' s :
  day_first_shape sep s → year_first_shape sep' s →
  sep = "/"%char ∨ sep = "-"%char → False.
Proof.
  intros [(a & r & -> & Ha)|(a & b & r & -> & Hb)] (a' & b' & c' & d' & r' & [=] & ? & ? & ? & ? ) Hsep;
    subst; destruct Hsep as [-> | ->]; done.
Qed.

Lemma shapes_day_day s :
  day_first_shape "/" s → day_first_shape "-" s → False.
Proof.
  intros [(a & r & -> & Ha)|(a & b & r & -> & Hb)] [(a' & r' & [=] & Ha')|(a' & b' & r' & [=] & Hb')];
    subst; done.
Qed.

Lemma shapes_year_year s :
  year_first_shape "/" s → year_first_shape "-" s → False.
Proof. by intros (a & b & c & d & r & -> & _) (a' & b' & c' & d' & r' & [=] & _). Qed.

(** ** [strptime] *)

(** Whatever [strptime] raises is a [ValueError]. *)
Lemma strptime_raises s fmt e : strptime s fmt = Raise e → is_ValueError e = true.
Proof.
  unfold strptime. destruct (parse_format fmt) as [ts|]; [|by intros [= <-]].
  destruct (re_match ts _ s) as [|[d rest] l]; [by intros [= <-]|].
  destruct (negb (str_empty rest)); [by intros [= <-]|].
  destruct (valid_date d); [done|].
  destruct (year d =? 0)%Z; by intros [= <-].
Qed.

Lemma strptime_Ok_inv s fmt d :
  strptime s fmt = Ok d →
  ∃ ts, parse_format fmt = Some ts ∧
        In (d, EmptyString) (re_match ts (Date 1900 1 1) s) ∧ valid_date d = true.
Proof.
  unfold strptime. destruct (parse_format fmt) as [ts|]; [|discriminate].
  destruct (re_match ts _ s) as [|[d' rest] l] eqn:Hm; [discriminate|].
  destruct rest; simpl; [|discriminate].
  destruct (valid_date d') eqn:Hv; [|by destruct (year d' =? 0)%Z].
  intros [= <-]. exists ts. split; [done|]. split; [rewrite Hm; apply in_eq|done].
Qed.

Lemma strptime_Ok_intro s fmt ts d l :
  parse_format fmt = Some ts →
  re_match ts (Date 1900 1 1) s = (d, EmptyString) :: l →
  valid_date d = true →
  strptime s fmt = Ok d.
Proof. intros Hf Hm Hv. unfold strptime. by rewrite Hf, Hm, Hv. Qed.


(** The shapes of the strings each of the six formats parses. *)
Lemma strptime_shape s fmt d :
  strptime s fmt = Ok d →
  (fmt = "%Y-%m-%d" → year_first_shape "-" s) ∧
  (fmt = "%Y/%m/%d" → year_first_shape "/" s) ∧
  (fmt = "%d/%m/%Y" ∨ fmt = "%m/%d/%Y" → day_first_shape "/" s) ∧
  (fmt = "%d-%m-%Y" ∨ fmt = "%m-%d-%Y" → day_first_shape "-" s).
Proof.
  intros (ts & Hts & Hin & _)%strptime_Ok_inv.
  repeat split.
  - intros ->. injection Hts as <-. eapply year_first_match; [|done]. by right.
  - intros ->. injection Hts as <-. eapply year_first_match; [|done]. by left.
  - intros [-> | ->]; injection Hts as <-;
      (eapply day_first_match; [| |done]; [by auto|by left]).
  - intros [-> | ->]; injection Hts as <-;
      (eapply day_first_match; [| |done]; [by auto|by right]).
Qed.

(** ** [clean_date] *)

Section clean_date.
Context {P : Platform}.

(** The loop with its [try] ... [except ValueError] is the search for
    the first format that parses. *)
Lemma try_formats_first (t : string) (fmts : list string) :
  try_formats t fmts =
  Ok (Some (from_option (λ d, strftime d "%Y-%m-%d") t (first_parse fmts t))).
Proof.
  induction fmts as [|fmt rest IH]; simpl; [done|].
  destruct (strptime t fmt) as [d|e] eqn:Hp; simpl; [done|].
  by rewrite (strptime_raises _ _ _ Hp).
Qed.

Lemma clean_date_str (s : string) :
  s ≠ "" →
  clean_date (Str s) =
  Ok (Some (from_option (λ d, strftime d "%Y-%m-%d") (str_strip s)
                        (first_parse formats (str_strip s)))).
Proof.
  intros Hs. unfold clean_date. cbn [isna truthy py_str orb].
  rewrite (str_empty_false s Hs). cbn [negb].
  apply try_formats_first.
Qed.

(** [clean_date] never raises. *)
Lemma clean_date_total (v : value) : ∃ o, clean_date v = Ok o.
Proof.
  destruct v as [| |s]; [by eexists..|].
  destruct s as [|c r]; [by eexists|].
  rewrite clean_date_str by done. by eexists.
Qed.

Lemma first_parse_none (t : string) :
  (∀ fmt d, In fmt formats → strptime t fmt ≠ Ok d) →
  first_parse formats t = None.
Proof.
  intros Hno. generalize formats Hno. clear Hno.
  induction l as [|fmt rest IH]; intros Hno; simpl; [done|].
  destruct (strptime t fmt) as [d|e] eqn:Hp.
  - exfalso. eapply Hno; [by left|done].
  - apply IH. intros fmt' d' Hin. apply Hno. by right.
Qed.




End clean_date.

(** ** Reading back what [strftime] printed *)

Lemma strftime_iso {P : Platform} (d : date) :
  strftime d "%Y-%m-%d" =
  year_str (year d) +:+ String "-" (String (digit_char (month d / 10))
    (String (digit_char (month d mod 10)) (String "-"
      (String (digit_char (day d / 10)) (String (digit_char (day d mod 10)) ""))))).
Proof. reflexivity. Qed.

Lemma re_Y_pad4 (y : Z) (r : string) :
  (0 <= y <= 9999)%Z → re_Y (pad4 y +:+ r) = [(y, r)].
Proof.
  intros Hy. unfold pad4, re_Y. cbv [String.append].
  rewrite !digit_char_is_digit, !digit_char_val
    by (zify; Z.div_mod_to_equations; lia).
  simpl. do 2 f_equal. zify; Z.div_mod_to_equations; lia.
Qed.

Lemma small_cases (n hi : Z) (P : Z → Prop) :
  (1 <= n <= hi)%Z → Forall P (seqZ 1 hi) → P n.
Proof.
  intros Hn HP. rewrite Forall_forall in HP. apply HP.
  apply elem_of_seqZ. lia.
Qed.

(** Splits a property of a number between 1 and [hi] into its cases. *)
Ltac by_cases n hi :=
  pattern n; apply (small_cases n hi); [done|];
  let l := eval vm_compute in (seqZ 1 hi) in
  change (seqZ 1 hi) with l;
  repeat apply Forall_cons_2; [..|apply Forall_nil_2].

(** Evaluates the tests on the characters of a literal string. *)
Ltac eval_chars :=
  repeat match goal with
  | |- context [pad2 ?z] =>
      let s := eval vm_compute in (pad2 z) in progress change (pad2 z) with s
  end;
  cbv [String.append]; cbn;
  repeat (progress (repeat match goal with
  | |- context [between ?a ?b ?c] =>
      let v := eval vm_compute in (between a b c) in progress change (between a b c) with v
  | |- context [is_digit ?a] =>
      let v := eval vm_compute in (is_digit a) in progress change (is_digit a) with v
  | |- context [digit_val ?a] =>
      let v := eval vm_compute in (digit_val a) in progress change (digit_val a) with v
  | |- context [lower_char ?a] =>
      let v := eval vm_compute in (lower_char a) in progress change (lower_char a) with v
  | |- context [Ascii.eqb ?a ?b] =>
      let v := eval vm_compute in (Ascii.eqb a b) in progress change (Ascii.eqb a b) with v
  end); cbn).

(** A month printed on two digits and followed by a dash is read back. *)
Lemma re_match_month (m : Z) (ts : list token) (d : date) (r : string) :
  (1 <= m <= 12)%Z →
  re_match (Tm :: TLit "-" :: ts) d (pad2 m +:+ String "-" r) =
  re_match ts (set_field Tm m d) r.
Proof.
  intros Hm. revert ts d r. by_cases m 12%Z; intros ts d r;
    eval_chars; rewrite ?app_nil_r; reflexivity.
Qed.

(** A day printed on two digits at the end of the string is read back. *)
Lemma re_match_day (n : Z) (d : date) :
  (1 <= n <= 31)%Z →
  ∃ l, re_match [Td] d (pad2 n) = (set_field Td n d, "") :: l.
Proof.
  intros Hn. revert d. by_cases n 31%Z; intros d; eexists; eval_chars; reflexivity.
Qed.

Lemma valid_date_bounds (d : date) :
  valid_date d = true →
  (1 <= year d <= 9999 ∧ 1 <= month d <= 12 ∧ 1 <= day d <= 31)%Z.
Proof.
  unfold valid_date, days_in_month. intros Hv.
  repeat match type of Hv with
         | (_ && _) = true => apply andb_prop in Hv as [Hv ?]
         end.
  destruct (month d =? 2)%Z, (is_leap (year d)),
    ((month d =? 4) || (month d =? 6) || (month d =? 9) || (month d =? 11))%Z; lia.
Qed.

(** The full round trip when the year is printed on four digits. *)
Lemma strptime_strftime {P : Platform} (d : date) :
  valid_date d = true → year_str (year d) = pad4 (year d) →
  strptime (strftime d "%Y-%m-%d") "%Y-%m-%d" = Ok d.
Proof.
  intros Hv Hy. pose proof (valid_date_bounds d Hv) as (Hyr & Hmo & Hda).
  destruct (re_match_day (day d) (Date (year d) (month d) 1) Hda) as [l Hl].
  eapply strptime_Ok_intro with (l := l); [reflexivity| |done].
  rewrite strftime_iso, Hy.
  change (parse_format "%Y-%m-%d") with (Some [TY; TLit "-"%char; Tm; TLit "-"%char; Td]).
  change (re_match [TY; TLit "-"%char; Tm; TLit "-"%char; Td] ?d0 ?s)
    with (flat_map (λ vr, re_match [TLit "-"%char; Tm; TLit "-"%char; Td]
                            (set_field TY (fst vr) d0) (snd vr)) (re_Y s)).
  rewrite re_Y_pad4 by lia. cbn [flat_map fst snd set_field year month day].
  rewrite app_nil_r.
  change (re_match (TLit "-"%char :: ?ts) ?d0 (String "-" ?r))
    with (re_match ts d0 r ++ []).
  rewrite app_nil_r.
  change (String (digit_char (month d / 10)) (String (digit_char (month d mod 10)) (String "-" ?r)))
    with (pad2 (month d) +:+ String "-" r).
  rewrite re_match_month by done.
  cbn [set_field year month day].
  change (String (digit_char (day d / 10)) (String (digit_char (day d mod 10)) ""))
    with (pad2 (day d)).
  rewrite Hl. by destruct d.
Qed.

(** ** Dates written with plain numerals *)

Ltac eval_numerals :=
  repeat match goal with
  | |- context [str_of_Z ?z] =>
      let s := eval vm_compute in (str_of_Z z) in progress change (str_of_Z z) with s
  end;
  eval_chars.

Lemma re_match_numeral (t : token) (sep : ascii) (n : Z) (sn : string)
    (ts : list token) (d : date) (r : string) :
  t = Td ∨ t = Tm → sep = "/"%char ∨ sep = "-"%char →
  (1 <= n <= 12)%Z → In sn (numerals n) →
  re_match (t :: TLit sep :: ts) d (sn +:+ String sep r) =
  re_match ts (set_field t n d) r.
Proof.
  intros Ht Hsep Hn Hsn. revert sn Hsn ts d r.
  by_cases n 12%Z; intros sn [<-|[<-|[]]] ts d r;
    destruct Ht as [-> | ->], Hsep as [-> | ->];
    eval_numerals; rewrite ?app_nil_r; reflexivity.
Qed.

Lemma re_match_year_end (y : Z) (d : date) :
  (0 <= y <= 9999)%Z → re_match [TY] d (pad4 y) = [(set_field TY y d, "")].
Proof.
  intros Hy.
  change (re_match [TY] d (pad4 y))
    with (flat_map (λ vr, [(set_field TY (fst vr) d, snd vr)]) (re_Y (pad4 y +:+ ""))).
  by rewrite re_Y_pad4.
Qed.



Lemma no_space_app (s t : string) : no_space (s +:+ t) = no_space s && no_space t.
Proof.
  induction s as [|c r IH]; [done|].
  cbv [String.append]; fold String.append. simpl. by rewrite IH, andb_assoc.
Qed.

Lemma numerals_no_space (n : Z) (sn : string) :
  (1 <= n <= 12)%Z → In sn (numerals n) → no_space sn = true.
Proof.
  intros Hn. revert sn. by_cases n 12%Z; intros sn [<-|[<-|[]]]; vm_compute; reflexivity.
Qed.

Lemma pad4_no_space (y : Z) : (0 <= y <= 9999)%Z → no_space (pad4 y) = true.
Proof.
  intros Hy. unfold pad4. cbn [no_space].
  rewrite !is_digit_not_space
    by (apply digit_char_is_digit; zify; Z.div_mod_to_equations; lia).
  reflexivity.
Qed.


(** ** Years printed without padding *)

(** From 1000 on, the plain numeral of a year has four digits. *)
Lemma str_of_Z_pad4 (y : Z) : (1000 <= y <= 9999)%Z → str_of_Z y = pad4 y.
Proof.
  intros Hy.
  assert (forallb (λ y, String.eqb (str_of_Z y) (pad4 y)) (seqZ 1000 9000) = true) as Hall
    by (vm_compute; reflexivity).
  rewrite forallb_forall in Hall.
  apply String.eqb_eq, Hall, list_elem_of_In, elem_of_seqZ. lia.
Qed.

Lemma strptime_matches (s fmt : string) (d : date) :
  In fmt formats → strptime s fmt = Ok d →
  ∃ ts, In ts format_tokens ∧ matches s ts = true.
Proof.
  intros Hin Hd. unfold strptime in Hd.
  destruct (parse_format fmt) as [ts|] eqn:Hts; [|done].
  exists ts. split.
  - apply list_elem_of_In, list_elem_of_omap. exists fmt. by split; [apply list_elem_of_In|].
  - unfold matches. destruct (re_match ts _ s) as [|[d' [|c r]] l]; done.
Qed.

Lemma passes_through_first_parse (s : string) :
  passes_through s = true →
  s ≠ "" ∧ str_strip s = s ∧ first_parse formats s = None.
Proof.
  unfold passes_through. intros [[Hne Hns]%andb_prop Hall]%andb_prop.
  split; [by destruct s|]. split; [by apply str_strip_no_space|].
  apply first_parse_none. intros fmt d Hin Hd.
  destruct (strptime_matches s fmt d Hin Hd) as (ts & Hts & Hm).
  rewrite forallb_forall in Hall. specialize (Hall ts Hts). by rewrite Hm in Hall.
Qed.

Lemma matches_In (s : string) (ts : list token) :
  matches s ts = true → ∃ d, In (d, EmptyString) (re_match ts (Date 1900 1 1) s).
Proof.
  unfold matches. destruct (re_match ts _ s) as [|[d [|c r]] l]; [done| |done].
  intros _. exists d. apply in_eq.
Qed.


(** Takes a match of a format apart, group by group. *)
Ltac invert_match :=
  repeat match goal with
  | H : In _ (re_match (_ :: _) _ _) |- _ =>
      apply re_match_cons in H as (? & ? & ? & H)
  | H : In _ (re_match [] _ _) |- _ => destruct H as [H|[]]
  | H : In _ (token_re (TLit _) _) |- _ => apply token_lit_inv in H; [|by auto]
  | H : In _ (token_re Td _) |- _ =>
      apply re_d_inv in H as [[(? & ? & ?)|(? & ? & ? & ?)] _]
  | H : In _ (token_re Tm _) |- _ =>
      apply re_m_inv in H as [[(? & ? & ?)|(? & ? & ? & ?)] _]
  | H : In _ (token_re TY _) |- _ =>
      apply re_Y_inv in H as (? & ? & ? & ? & ? & ? & ? & ? & ? & ?)
  | H : String _ _ = String _ _ |- _ => injection H as ? ?
  | H : (_, _) = (_, _) |- _ => injection H as ? ?
  | H : String _ _ = EmptyString |- _ => discriminate H
  | H : EmptyString = String _ _ |- _ => discriminate H
  | _ => progress subst
  end.



(** ** Cleaning a date twice *)

Lemma first_parse_valid (fmts : list string) (t : string) (d : date) :
  first_parse fmts t = Some d → valid_date d = true.
Proof.
  induction fmts as [|fmt rest IH]; simpl; [done|].
  destruct (strptime t fmt) as [d'|e] eqn:Hp; [|done].
  intros [= <-]. by apply strptime_Ok_inv in Hp as (ts & _ & _ & Hv).
Qed.

Lemma digit_char_not_space (k : Z) : (0 <= k <= 9)%Z → is_space (digit_char k) = false.
Proof. intros Hk. by apply is_digit_not_space, digit_char_is_digit. Qed.

Section clean_date_again.
Context {P : Platform}.

End clean_date_again.


(** ** [clean_amount] *)

(** Whatever [float] raises on a string is a [ValueError]. *)
Lemma float_of_str_raises (s : string) (e : exn) :
  float_of_str s = Raise e → is_ValueError e = true.
Proof.
  unfold float_of_str.
  destruct (negb (underscores_ok _ _)); [by intros [= <-]|].
  destruct (read_sign _) as [neg body].
  destruct (String.eqb _ "inf" || String.eqb _ "infinity"); [done|].
  destruct (String.eqb _ "nan"); [done|].
  destruct (read_decimal neg body); [done|by intros [= <-]].
Qed.

(** The text handed to [float] is the one the specification describes:
    the [strip] before the removal of all whitespace changes nothing. *)
Lemma clean_amount_str (s : string) :
  clean_amount (Str s) =
  Ok match float_of_str (amount_text s) with
     | Ok x => x
     | Raise _ => float_zero
     end.
Proof.
  unfold clean_amount, amount_text. cbn [isna py_str].
  rewrite re_sub_spaces_strip.
  set (t := re_sub_spaces s).
  assert (∀ u, try_except (float_of_str u) is_ValueError (λ _, Ok float_zero) =
               Ok match float_of_str u with Ok x => x | Raise _ => float_zero end) as Htry.
  { intros u. destruct (float_of_str u) as [x|e] eqn:Hu; simpl; [done|].
    by rewrite (float_of_str_raises _ _ Hu). }
  destruct (str_contains "," t), (str_contains "." t); simpl; apply Htry.
Qed.

Lemma clean_amount_total (v : value) : ∃ x, clean_amount v = Ok x.
Proof.
  destruct v as [| |s]; [by eexists..|].
  rewrite clean_amount_str. by eexists.
Qed.

Lemma clean_amount_normalized (v : value) : clean_amount v = Ok (normalized_amount v).
Proof.
  unfold normalized_amount. by destruct (clean_amount_total v) as [x ->].
Qed.

Lemma traverse_clean_amount (l : list value) :
  traverse clean_amount l = Ok (normalized_amount <$> l).
Proof.
  induction l as [|v l IH]; simpl; [done|].
  by rewrite clean_amount_normalized, IH.
Qed.

Lemma traverse_clean_date {P : Platform} (l : list value) :
  ∃ dates, traverse clean_date l = Ok dates.
Proof.
  induction l as [|v l [dates IH]]; simpl; [by eexists|].
  destruct (clean_date_total v) as [o ->]. simpl. rewrite IH. by eexists.
Qed.

(** ** [clean_category] *)

Lemma category_mapping_canonical (key : string) :
  default "Other" (category_mapping !! key) = canonical key.
Proof.
  unfold category_mapping, canonical.
  repeat match goal with
  | |- context [String.eqb key ?k] =>
      destruct (String.eqb_spec key k) as [->|];
      [by rewrite lookup_insert_eq|rewrite lookup_insert_ne by done]
  end.
  destruct (decide (key = "other")) as [->|];
    [by rewrite lookup_insert_eq|by rewrite lookup_insert_ne, lookup_empty].
Qed.

Lemma canonical_label (key : string) : In (canonical key) labels.
Proof.
  unfold canonical, labels.
  repeat match goal with
  | |- context [String.eqb key ?k] => destruct (String.eqb key k)
  end; simpl; tauto.
Qed.

Lemma clean_category_str (s : string) :
  clean_category (Str s) = canonical (str_lower (str_strip s)).
Proof.
  unfold clean_category. cbn [isna truthy py_str orb].
  destruct s as [|c r]; [reflexivity|].
  cbn [str_empty negb]. apply category_mapping_canonical.
Qed.

Lemma clean_category_label (v : value) : In (clean_category v) labels.
Proof.
  destruct v as [| |s]; [simpl; tauto..|].
  rewrite clean_category_str. apply canonical_label.
Qed.

(** ** The [.2f] format *)

Lemma string_of_uint_digits (d : Decimal.uint) :
  all_digits (NilEmpty.string_of_uint d) = true.
Proof. induction d; simpl; done. Qed.

Lemma str_of_Z_digits (n : Z) :
  (0 <= n)%Z → all_digits (str_of_Z n) = true ∧ str_empty (str_of_Z n) = false.
Proof.
  intros Hn. unfold str_of_Z. destruct n as [|p|p]; [done| |lia].
  simpl. pose proof (string_of_uint_digits (Pos.to_uint p)) as Hd.
  by destruct (Pos.to_uint p).
Qed.





(** ** Columns, masks and rows *)

Lemma getitem_Some {A} (df : gmap string A) (key : string) (col : A) :
  df !! key = Some col → getitem df key = Ok col.
Proof. intros Hk. unfold getitem. by rewrite Hk. Qed.

Lemma getitem_None {A} (df : gmap string A) (key : string) :
  df !! key = None → getitem df key = Raise (Exn KeyError (str_repr key)).
Proof. intros Hk. unfold getitem. by rewrite Hk. Qed.

(** Filtering the cleaned amount column by the mask of the cleaned
    category column keeps the amounts of the Food rows. *)
Lemma mask_filter_food (amounts cats : list value) :
  mask_filter
    ((λ v, match v with Str t => String.eqb t "Food" | _ => false end) <$>
       ((λ v, Str (clean_category v)) <$> cats))
    (normalized_amount <$> amounts)
  = food_amounts amounts cats.
Proof.
  unfold food_amounts. revert cats.
  induction amounts as [|a amounts IH]; intros [|c cats]; simpl; try done.
  rewrite filter_cons. simpl.
  destruct (String.eqb_spec (clean_category c) "Food") as [Heq|Hne].
  - rewrite decide_True by done. simpl. by rewrite IH.
  - rewrite decide_False by done. apply IH.
Qed.

(** ** The [try] block *)

Section process.
Context {P : Platform}.
Variable read_csv : string → result (gmap string (list value)).

Lemma process_decode_error (content msg : string) :
  utf8_error content = Some msg →
  process read_csv content = Raise (Exn UnicodeDecodeError msg).
Proof. intros Hu. unfold process, decode_utf8. by rewrite Hu. Qed.

Lemma process_read_error (content : string) (e : exn) :
  utf8_error content = None → read_csv content = Raise e →
  process read_csv content = Raise e.
Proof. intros Hu Hr. unfold process, decode_utf8. rewrite Hu. simpl. by rewrite Hr. Qed.

(** The first of the four columns that is missing is the [KeyError]. *)
Lemma process_missing_column (content : string) (df : gmap string (list value))
    (key : string) (before : list string) :
  utf8_error content = None → read_csv content = Ok df →
  (before, key) ∈ [([], "Name"); (["Name"], "Date"); (["Name"; "Date"], "Amount");
                   (["Name"; "Date"; "Amount"], "Category")] →
  Forall (λ k, is_Some (df !! k)) before → df !! key = None →
  process read_csv content = Raise (Exn KeyError (str_repr key)).
Proof.
  intros Hu Hr Hkey Hbefore Hnone. unfold process, decode_utf8.
  rewrite Hu. simpl. rewrite Hr. simpl.
  repeat match goal with
  | H : _ ∈ _ :: _ |- _ => apply elem_of_cons in H as [[= -> ->]|H]
  | H : _ ∈ [] |- _ => by apply elem_of_nil in H
  end.
  - by rewrite (getitem_None df "Name").
  - apply Forall_cons in Hbefore as [[names Hn] _].
    rewrite (getitem_Some df "Name" _ Hn). simpl.
    rewrite getitem_None; [done|]. by rewrite lookup_insert_ne.
  - apply Forall_cons in Hbefore as [[names Hn] Hbefore].
    apply Forall_cons in Hbefore as [[dates Hd] _].
    rewrite (getitem_Some df "Name" _ Hn). simpl.
    rewrite (getitem_Some _ "Date" dates) by (by rewrite lookup_insert_ne). simpl.
    destruct (traverse_clean_date dates) as [ds ->]. simpl.
    rewrite getitem_None; [done|]. by rewrite !lookup_insert_ne.
  - apply Forall_cons in Hbefore as [[names Hn] Hbefore].
    apply Forall_cons in Hbefore as [[dates Hd] Hbefore].
    apply Forall_cons in Hbefore as [[amounts Ha] _].
    rewrite (getitem_Some df "Name" _ Hn). simpl.
    rewrite (getitem_Some _ "Date" dates) by (by rewrite lookup_insert_ne). simpl.
    destruct (traverse_clean_date dates) as [ds ->]. simpl.
    rewrite (getitem_Some _ "Amount" amounts) by (by rewrite !lookup_insert_ne). simpl.
    rewrite traverse_clean_amount. simpl.
    rewrite getitem_None; [done|].
    by rewrite lookup_insert_ne, lookup_fmap, !lookup_insert_ne, Hnone.
Qed.

Lemma process_ok (content : string) (df : gmap string (list value))
    (names dates amounts cats : list value) :
  utf8_error content = None → read_csv content = Ok df →
  df !! "Name" = Some names → df !! "Date" = Some dates →
  df !! "Amount" = Some amounts → df !! "Category" = Some cats →
  process read_csv content =
  Ok {| answer := "$" +:+ format_2f (food_total amounts cats);
        email := "22f3003091@ds.study.iitm.ac.in";
        exam := "tds-2025-05-roe" |}.
Proof.
  intros Hu Hr Hn Hd Ha Hc. unfold process, decode_utf8.
  rewrite Hu. simpl. rewrite Hr. simpl.
  rewrite (getitem_Some df "Name" _ Hn). simpl.
  rewrite (getitem_Some _ "Date" dates) by (by rewrite lookup_insert_ne). simpl.
  destruct (traverse_clean_date dates) as [ds ->]. simpl.
  rewrite (getitem_Some _ "Amount" amounts) by (by rewrite !lookup_insert_ne). simpl.
  rewrite traverse_clean_amount. simpl.
  rewrite (getitem_Some _ "Category" (Object cats))
    by (by rewrite lookup_insert_ne, lookup_fmap, !lookup_insert_ne, Hc).
  simpl.
  rewrite (getitem_Some _ "Category" (Object ((λ v, Str (clean_category v)) <$> cats)))
    by (by rewrite lookup_insert_eq).
  simpl.
  rewrite (getitem_Some _ "Amount"
             (Float64 (mask_filter
                ((λ v, match v with Str t => String.eqb t "Food" | _ => false end) <$>
                   ((λ v, Str (clean_category v)) <$> cats))
                (normalized_amount <$> amounts)))).
  - simpl. by rewrite mask_filter_food.
  - by rewrite lookup_fmap, lookup_insert_ne, lookup_insert_eq.
Qed.
End process.

(** ** The handler *)

Section analyze_expenses.
Context {P : Platform}.
Variable read_csv : string → result (gmap string (list value)).

Lemma analyze_rejects (file : UploadFile) :
  str_endswith (filename file) ".csv" = false →
  analyze_expenses read_csv file = (HTTPException 400 "File must be a CSV", file).
Proof. intros Hf. unfold analyze_expenses. by rewrite Hf. Qed.

Lemma analyze_accepts (file : UploadFile) :
  str_endswith (filename file) ".csv" = true →
  analyze_expenses read_csv file =
  (match process read_csv (str_drop (cursor file) (content file)) with
   | Ok body => Response body
   | Raise e => HTTPException 500 ("Error processing file: " +:+ exn_msg e)
   end, (file_read file).2).
Proof.
  intros Hf. unfold analyze_expenses. rewrite Hf. simpl.
  by destruct (process read_csv _).
Qed.

Lemma analyze_status (file : UploadFile) :
  status (analyze_expenses read_csv file).1 = 400%Z ↔
  str_endswith (filename file) ".csv" = false.
Proof.
  destruct (str_endswith (filename file) ".csv") eqn:Hf.
  - rewrite analyze_accepts by done. simpl.
    by destruct (process read_csv _).
  - by rewrite analyze_rejects.
Qed.
End analyze_expenses.

(** ** The library models on known values *)

Example float_of_str_values :
  float_of_str "0.1" = Ok (S754_finite false 7205759403792794 (-56)) ∧
  float_of_str "1e23" = Ok (S754_finite false 5960464477539062 24) ∧
  float_of_str "9007199254740993" = Ok (S754_finite false 4503599627370496 1) ∧
  float_of_str "5e-324" = Ok (S754_finite false 1 (-1074)) ∧
  float_of_str "1.7976931348623159e308" = Ok (S754_infinity false) ∧
  float_of_str "1_000.5" = float_of_str "1000.5" ∧
  float_of_str "-Infinity" = Ok (S754_infinity true) ∧
  float_of_str " +nan " = Ok S754_nan ∧
  float_of_str "-0" = Ok (S754_zero true).
Proof. repeat split; vm_compute; reflexivity. Qed.

Example float_of_str_rejects :
  Forall (λ s, ∃ e, float_of_str s = Raise e)
    [""; "."; "abc"; "1e"; "0x10"; "1__0"; "_1"; "1_"; "1,5"; "1.2.3"; "1 2"; "--1"].
Proof. repeat (apply Forall_cons_2; [by eexists|]). apply Forall_nil_2. Qed.

Example format_2f_values :
  Forall2 (λ s t, ∃ x, float_of_str s = Ok x ∧ format_2f x = t)
    ["0.125"; "0.375"; "2.675"; "999.995"; "-0.001"; "0.005"; "1e23"; "-inf"; "nan"]
    ["0.12"; "0.38"; "2.67"; "1000.00"; "-0.00"; "0.01"; "99999999999999991611392.00";
     "-inf"; "nan"].
Proof. repeat (apply Forall2_cons_2; [by eexists|]). apply Forall2_nil_2. Qed.

Example strptime_values :
  strptime "20/04/2023" "%d/%m/%Y" = Ok (Date 2023 4 20) ∧
  strptime "1/1/2023" "%d/%m/%Y" = Ok (Date 2023 1 1) ∧
  strptime "2024-02-29" "%Y-%m-%d" = Ok (Date 2024 2 29) ∧
  strptime "2023-02-29" "%Y-%m-%d" = Raise (Exn ValueError "day is out of range for month") ∧
  strptime "2023-04-205" "%Y-%m-%d" = Raise (Exn ValueError "unconverted data remains: 5") ∧
  strptime "0000-01-01" "%Y-%m-%d" = Raise (Exn ValueError "year 0 is out of range").
Proof. repeat split; vm_compute; reflexivity. Qed.

Example decode_utf8_values :
  decode_utf8 (String "195" (String "169" "")) = Ok (String "195" (String "169" "")) ∧
  utf8_error (String "097" (String "226" (String "130" ""))) =
    Some "'utf-8' codec can't decode bytes in position 1-2: unexpected end of data" ∧
  utf8_error (String "237" (String "160" (String "128" ""))) =
    Some "'utf-8' codec can't decode byte 0xed in position 0: invalid continuation byte".
Proof. repeat split; vm_compute; reflexivity. Qed.

Example clean_name_values :
  clean_name (Str "john DOE") = "John Doe" ∧ clean_name (Str "  a  bC d ") = "A Bc D" ∧
  clean_name NaN = "" ∧ clean_name (Str "") = "".
Proof. repeat split; vm_compute; reflexivity. Qed.

Example pd_read_csv_values :
  pd_read_csv example_csv =
    Ok (list_to_map
          [("Name", [Str "john doe"; Str "jane"]);
           ("Date", [Str "20/04/2023"; Str "2023-01-01"]);
           ("Amount", [Str "12,50"; Str "5.00"]);
           ("Category", [Str "food"; Str "travel"])]) ∧
  pd_read_csv (csv_lines ["a;b"; ""; "1;NA"; "2"]) =
    Ok (list_to_map [("a", [Str "1"; Str "2"]); ("b", [NaN; NaN])]).
Proof. split; vm_compute; reflexivity. Qed.

(** * The claims *)

















(** C7: the handler answers 400 exactly when the file name does not end
    in [.csv]; the rejection reads nothing of the file and depends
    neither on its bytes nor on the reader, while an accepted upload is
    read to its end: its read position moves there, unless it was
    already further. *)
Theorem analyze_rejects_non_csv {P : Platform}
    (read_csv : string → result (gmap string (list value))) (file : UploadFile) :
  (status (analyze_expenses read_csv file).1 = 400%Z ↔
   str_endswith (filename file) ".csv" = false) ∧
  (str_endswith (filename file) ".csv" = false →
   analyze_expenses read_csv file = (HTTPException 400 "File must be a CSV", file) ∧
   ∀ read_csv' bytes pos,
     (analyze_expenses read_csv' {| filename := filename file; content := bytes; cursor := pos |}).1
     = (analyze_expenses read_csv file).1) ∧
  (str_endswith (filename file) ".csv" = true →
   cursor (analyze_expenses read_csv file).2 =
     Nat.max (cursor file) (String.length (content file))) ∧
  (analyze_expenses pd_read_csv (upload "data.txt" example_csv)) =
    (HTTPException 400 "File must be a CSV", upload "data.txt" example_csv).
Proof.
  split; [apply analyze_status|]. split; [|split; [|by vm_compute]].
  - intros Hf. split; [by apply analyze_rejects|].
    intros read_csv' bytes pos. by rewrite !analyze_rejects.
  - intros Hf. by rewrite analyze_accepts.
Qed.

Lemma analyze_rejects_non_csv_witness :
  analyze_expenses (P := iso_years) pd_read_csv (upload "expenses.csv.bak" (String "255" "")) =
    (HTTPException 400 "File must be a CSV", upload "expenses.csv.bak" (String "255" "")) ∧
  cursor (analyze_expenses (P := iso_years) pd_read_csv (upload "a.csv" example_csv)).2 =
    Nat.max 0 85 ∧
  cursor (analyze_expenses (P := iso_years) pd_read_csv
            {| filename := "a.csv"; content := example_csv; cursor := 90 |}).2 =
    Nat.max 90 85.
Proof.
  split; [|split].
  - apply (proj1 (proj2 (analyze_rejects_non_csv (P := iso_years) pd_read_csv
                           (upload "expenses.csv.bak" (String "255" ""))))).
    reflexivity.
  - apply (proj1 (proj2 (proj2 (analyze_rejects_non_csv (P := iso_years) pd_read_csv
                                  (upload "a.csv" example_csv))))).
    reflexivity.
  - apply (proj1 (proj2 (proj2 (analyze_rejects_non_csv (P := iso_years) pd_read_csv
                                  {| filename := "a.csv"; content := example_csv;
                                     cursor := 90 |})))).
    reflexivity.
Defined.

(** C8: for a [.csv] upload, whatever the [try] block raises becomes a
    500 whose detail carries the text of the exception: bytes that are
    not UTF-8, an error of the reader, or a missing column, which is the
    [KeyError] of the first of Name, Date, Amount, Category that the
    table lacks.  No body is returned. *)
Theorem analyze_processing_error {P : Platform}
    (read_csv : string → result (gmap string (list value))) (file : UploadFile) :
  str_endswith (filename file) ".csv" = true →
  let bytes := str_drop (cursor file) (content file) in
  let outcome := (analyze_expenses read_csv file).1 in
  (∀ e, process read_csv bytes = Raise e →
        outcome = HTTPException 500 ("Error processing file: " +:+ exn_msg e)) ∧
  (∀ msg, utf8_error bytes = Some msg →
          outcome = HTTPException 500 ("Error processing file: " +:+ msg)) ∧
  (∀ e, utf8_error bytes = None → read_csv bytes = Raise e →
        outcome = HTTPException 500 ("Error processing file: " +:+ exn_msg e)) ∧
  (∀ df key before,
     utf8_error bytes = None → read_csv bytes = Ok df →
     (before, key) ∈ [([], "Name"); (["Name"], "Date"); (["Name"; "Date"], "Amount");
                      (["Name"; "Date"; "Amount"], "Category")] →
     Forall (λ k, is_Some (df !! k)) before → df !! key = None →
     outcome = HTTPException 500 ("Error processing file: '" +:+ key +:+ "'")).
Proof.
  intros Hf bytes outcome. unfold outcome. rewrite analyze_accepts by done.
  fold bytes. cbn [fst].
  split; [by intros e ->|]. split; [|split].
  - intros msg Hu. by rewrite (process_decode_error _ _ _ Hu).
  - intros e Hu Hr. by rewrite (process_read_error _ _ _ Hu Hr).
  - intros df key before Hu Hr Hkey Hbefore Hnone.
    by rewrite (process_missing_column _ _ _ _ _ Hu Hr Hkey Hbefore Hnone).
Qed.

Lemma analyze_processing_error_witness :
  (analyze_expenses (P := iso_years) pd_read_csv (upload "expenses.csv" no_category_csv)).1 =
    HTTPException 500 "Error processing file: 'Category'" ∧
  (analyze_expenses (P := iso_years) pd_read_csv (upload "expenses.csv" (String "255" ""))).1 =
    HTTPException 500
      "Error processing file: 'utf-8' codec can't decode byte 0xff in position 0: invalid start byte" ∧
  (analyze_expenses (P := iso_years) pd_read_csv (upload "expenses.csv" "")).1 =
    HTTPException 500 "Error processing file: No columns to parse from file".
Proof.
  split; [|split].
  - refine (proj2 (proj2 (proj2 (analyze_processing_error (P := iso_years) pd_read_csv
              (upload "expenses.csv" no_category_csv) eq_refl)))
              (list_to_map [("Name", [Str "john doe"]); ("Date", [Str "20/04/2023"]);
                            ("Amount", [Str "12,50"])])
              "Category" ["Name"; "Date"; "Amount"] _ _ _ _ _).
    + vm_compute; reflexivity.
    + vm_compute; reflexivity.
    + set_solver.
    + repeat (apply Forall_cons_2; [by eexists; vm_compute|]). apply Forall_nil_2.
    + vm_compute; reflexivity.
  - refine (proj1 (proj2 (analyze_processing_error (P := iso_years) pd_read_csv
              (upload "expenses.csv" (String "255" "")) eq_refl)) _ _).
    vm_compute; reflexivity.
  - refine (proj1 (proj2 (proj2 (analyze_processing_error (P := iso_years) pd_read_csv
              (upload "expenses.csv" "") eq_refl)))
              (Exn EmptyDataError "No columns to parse from file") _ _);
      vm_compute; reflexivity.
Defined.

(** * Further properties of the cleaners and of the handler *)

(** ** [clean_name] *)

Ltac all_bytes c := destruct c as [[] [] [] [] [] [] [] []]; vm_compute; reflexivity.

Lemma is_space_upper (c : ascii) : is_space (upper_char c) = is_space c.
Proof. all_bytes c. Qed.

Lemma is_space_lower (c : ascii) : is_space (lower_char c) = is_space c.
Proof. all_bytes c. Qed.

Lemma upper_char_idem (c : ascii) : upper_char (upper_char c) = upper_char c.
Proof. all_bytes c. Qed.

Lemma lower_char_idem (c : ascii) : lower_char (lower_char c) = lower_char c.
Proof. all_bytes c. Qed.

Lemma upper_lower_char (c : ascii) : upper_char (lower_char c) = upper_char c.
Proof. all_bytes c. Qed.

Lemma lower_upper_char (c : ascii) : lower_char (upper_char c) = lower_char c.
Proof. all_bytes c. Qed.

Lemma is_lower_upper_char (c : ascii) : is_lower (upper_char c) = false.
Proof. all_bytes c. Qed.

Lemma is_upper_lower_char (c : ascii) : is_upper (lower_char c) = false.
Proof. all_bytes c. Qed.

Lemma str_split_unfold (c : ascii) (r : string) :
  str_split (String c r) =
  if is_space c then str_split r
  else match r with
       | EmptyString => [String c EmptyString]
       | String c' _ =>
           if is_space c' then String c EmptyString :: str_split r
           else match str_split r with
                | w :: ws => String c w :: ws
                | [] => [String c EmptyString]
                end
       end.
Proof. reflexivity. Qed.

Lemma str_split_words (s : string) : Forall (λ w, word w = true) (str_split s).
Proof.
  induction s as [|c r IH]; [constructor|].
  rewrite str_split_unfold.
  destruct (is_space c) eqn:Hc; [done|].
  destruct r as [|c' r']; [by constructor; [unfold word; simpl; rewrite Hc|]|].
  destruct (is_space c') eqn:Hc'.
  - constructor; [by unfold word; simpl; rewrite Hc|done].
  - destruct (str_split (String c' r')) as [|w ws]; [by constructor; [unfold word; simpl; rewrite Hc|]|].
    apply Forall_cons in IH as [Hw Hws]. constructor; [|done].
    unfold word in *. simpl. rewrite Hc. simpl.
    by apply andb_prop in Hw as [_ ->].
Qed.

Lemma str_split_word (w r : string) :
  word w = true → starts_clean r = false ∨ r = "" →
  str_split (w +:+ r) = w :: str_split r.
Proof.
  intros Hw Hr. induction w as [|c w IH]; [done|].
  unfold word in Hw. simpl in Hw. apply andb_prop in Hw as [Hc Hw].
  apply negb_true_iff in Hc.
  cbv [String.append]; fold String.append.
  rewrite str_split_unfold, Hc.
  destruct w as [|c2 w].
  - cbv [String.append]. destruct r as [|c' r']; [done|].
    destruct Hr as [Hr|Hr]; [|done]. simpl in Hr. apply negb_false_iff in Hr. by rewrite Hr.
  - cbv [String.append] in *; fold String.append in *.
    assert (is_space c2 = false) as Hc2.
    { simpl in Hw. apply andb_prop in Hw as [Hc2 _]. by apply negb_true_iff in Hc2. }
    rewrite Hc2. rewrite IH; [done|]. unfold word. by simpl.
Qed.

Lemma str_app_nil_r (s : string) : s +:+ "" = s.
Proof.
  induction s as [|c r IH]; [done|].
  cbv [String.append]; fold String.append. by rewrite IH.
Qed.

Lemma str_split_join (ws : list string) :
  Forall (λ w, word w = true) ws → str_split (str_join " " ws) = ws.
Proof.
  induction ws as [|w ws IH]; [done|].
  intros [Hw Hws]%Forall_cons. specialize (IH Hws).
  destruct ws as [|w' ws].
  - simpl. rewrite <- (str_app_nil_r w) at 1. rewrite str_split_word; auto.
  - change (str_join " " (w :: w' :: ws)) with (w +:+ " " +:+ str_join " " (w' :: ws)).
    rewrite str_split_word; [|done|by left].
    cbv [String.append]; fold String.append.
    rewrite str_split_unfold. change (is_space " ") with true. cbn iota.
    by rewrite IH.
Qed.

Lemma str_split_lstrip (s : string) : str_split (str_lstrip s) = str_split s.
Proof.
  induction s as [|c r IH]; [done|].
  simpl str_lstrip. destruct (is_space c) eqn:Hc; [|done].
  by rewrite str_split_unfold, Hc.
Qed.

Lemma str_split_nil (s : string) : str_split s = [] ↔ all_space s = true.
Proof.
  induction s as [|c r IH]; [done|].
  rewrite str_split_unfold. simpl all_space.
  destruct (is_space c); simpl; [done|].
  split; [|done].
  destruct r as [|c' r']; [done|].
  destruct (is_space c'); [done|]. by destruct (str_split _).
Qed.

Lemma str_rstrip_all_space (s : string) : all_space s = true → str_rstrip s = "".
Proof.
  induction s as [|c r IH]; [done|].
  simpl. intros [Hc Hr]%andb_prop. by rewrite IH, Hc.
Qed.

Lemma str_rstrip_cons (c : ascii) (r : string) :
  str_rstrip (String c r) = "" ∧ all_space (String c r) = true ∨
  str_rstrip (String c r) = String c (str_rstrip r).
Proof.
  simpl. destruct (is_space c) eqn:Hc; [|by right].
  destruct (str_rstrip r) eqn:Hr; [|by right].
  left. split; [done|]. simpl.
  clear Hc. change (all_space r = true). revert Hr.
  induction r as [|c' r' IH]; [done|].
  simpl. destruct (is_space c') eqn:Hc'; [|done].
  destruct (str_rstrip r'); [|done]. intros _. by apply IH.
Qed.

Lemma str_split_rstrip (s : string) : str_split (str_rstrip s) = str_split s.
Proof.
  induction s as [|c r IH]; [done|].
  destruct (str_rstrip_cons c r) as [[-> Hall]| ->].
  { symmetry. by apply str_split_nil. }
  rewrite !str_split_unfold.
  destruct (is_space c) eqn:Hc; [done|].
  destruct r as [|c' r']; [done|].
  destruct (str_rstrip_cons c' r') as [[Hr Hall]|Hr].
  - rewrite Hr. simpl in Hall. apply andb_prop in Hall as [Hc' Hall].
    rewrite Hc'. f_equal. symmetry. apply str_split_nil. simpl. by rewrite Hc'.
  - rewrite Hr in *. by rewrite IH.
Qed.

Lemma str_split_strip (s : string) : str_split (str_strip s) = str_split s.
Proof. unfold str_strip. by rewrite str_split_rstrip, str_split_lstrip. Qed.

Lemma str_lower_idem (s : string) : str_lower (str_lower s) = str_lower s.
Proof. induction s as [|c r IH]; simpl; [done|]. by rewrite lower_char_idem, IH. Qed.

Lemma str_capitalize_idem (w : string) : str_capitalize (str_capitalize w) = str_capitalize w.
Proof. destruct w as [|c r]; simpl; [done|]. by rewrite upper_char_idem, str_lower_idem. Qed.

Lemma str_capitalize_lower (w : string) : str_capitalize (str_lower w) = str_capitalize w.
Proof. destruct w as [|c r]; simpl; [done|]. by rewrite upper_lower_char, str_lower_idem. Qed.

Lemma str_lower_capitalize (w : string) : str_lower (str_capitalize w) = str_lower w.
Proof. destruct w as [|c r]; simpl; [done|]. by rewrite lower_upper_char, str_lower_idem. Qed.

Lemma no_space_lower (s : string) : no_space (str_lower s) = no_space s.
Proof. induction s as [|c r IH]; simpl; [done|]. by rewrite is_space_lower, IH. Qed.

Lemma no_upper_lower (s : string) : no_upper (str_lower s) = true.
Proof. induction s as [|c r IH]; simpl; [done|]. by rewrite is_upper_lower_char, IH. Qed.

Lemma word_capitalize (w : string) : word w = true → word (str_capitalize w) = true.
Proof.
  destruct w as [|c r]; [done|]. unfold word. simpl.
  by rewrite is_space_upper, no_space_lower.
Qed.

Lemma capitalized_capitalize (w : string) : capitalized (str_capitalize w) = true.
Proof.
  destruct w as [|c r]; [done|]. simpl.
  by rewrite is_lower_upper_char, no_upper_lower.
Qed.

(** The [strip] of [clean_name] changes nothing: [split] ignores the
    whitespace around the words. *)
Lemma clean_name_str (s : string) :
  clean_name (Str s) = str_join " " (str_capitalize <$> str_split s).
Proof.
  unfold clean_name. cbn [isna truthy py_str orb].
  destruct s as [|c r]; [done|].
  cbn [str_empty negb]. by rewrite str_split_strip.
Qed.

Lemma capitalized_words (s : string) :
  Forall (λ w, word w = true) (str_capitalize <$> str_split s).
Proof.
  apply Forall_fmap. eapply Forall_impl; [apply str_split_words|].
  intros w Hw. by apply word_capitalize.
Qed.

Lemma str_split_clean_name (s : string) :
  str_split (clean_name (Str s)) = str_capitalize <$> str_split s.
Proof. rewrite clean_name_str. apply str_split_join, capitalized_words. Qed.

Lemma str_join_empty (ws : list string) :
  Forall (λ w, word w = true) ws → str_join " " ws = "" → ws = [].
Proof.
  destruct ws as [|w ws]; [done|].
  intros [Hw _]%Forall_cons. destruct w as [|c r]; [done|].
  by destruct ws.
Qed.

(** X2: the words of a cleaned ASCII name are the capitalized words of
    the input, in the same order: none is dropped, merged or split.
    They are joined by single spaces, so that the result has no other
    whitespace, and in each of them no lowercase letter stands in front
    and no uppercase letter after it. *)
Theorem clean_name_words (s : string) :
  str_isascii s = true →
  str_split (clean_name (Str s)) = str_capitalize <$> str_split s ∧
  clean_name (Str s) = str_join " " (str_split (clean_name (Str s))) ∧
  Forall (λ w, capitalized w = true) (str_split (clean_name (Str s))).
Proof.
  intros _.
  rewrite str_split_clean_name. split; [done|]. split; [apply clean_name_str|].
  apply Forall_fmap, Forall_true. intros w. apply capitalized_capitalize.
Qed.

Lemma clean_name_words_witness :
  (str_split (clean_name (Str " mARY  ann o'NEIL ")) =
     str_capitalize <$> str_split " mARY  ann o'NEIL " ∧
   clean_name (Str " mARY  ann o'NEIL ") =
     str_join " " (str_split (clean_name (Str " mARY  ann o'NEIL "))) ∧
   Forall (λ w, capitalized w = true) (str_split (clean_name (Str " mARY  ann o'NEIL ")))) ∧
  str_split (clean_name (Str " mARY  ann o'NEIL ")) = ["Mary"; "Ann"; "O'neil"].
Proof.
  split; [|reflexivity].
  apply (clean_name_words " mARY  ann o'NEIL "). reflexivity.
Defined.

(** X1: [clean_name] gives the empty string for a missing value, for
    the empty string and for a string of whitespace, and for no other
    ASCII text. *)
Theorem clean_name_empty (v : value) :
  (isna v = true ∨ (∃ s, v = Str s ∧ all_space s = true) → clean_name v = "") ∧
  (∀ s, v = Str s → str_isascii s = true → all_space s = false → clean_name v ≠ "").
Proof.
  split.
  - intros [Hna|(s & -> & Hall)]; [by destruct v|].
    rewrite clean_name_str. apply str_split_nil in Hall. by rewrite Hall.
  - intros s -> _ Hall. rewrite clean_name_str. intros Hj.
    apply str_join_empty in Hj; [|apply capitalized_words].
    apply fmap_nil_inv in Hj. apply str_split_nil in Hj. congruence.
Qed.

Lemma clean_name_empty_witness :
  clean_name (Str (String "009" " ")) = "" ∧ clean_name (Str " o ") ≠ "".
Proof.
  split.
  - apply (proj1 (clean_name_empty (Str (String "009" " ")))).
    right. eexists. split; reflexivity.
  - apply (proj2 (clean_name_empty (Str " o ")) " o "); reflexivity.
Defined.

(** X3: cleaning a cleaned name changes nothing.  The statement is for
    ASCII text, where [capitalize] is the function modelled here; for
    other text Python's [capitalize] is not idempotent. *)
Theorem clean_name_idempotent (v : value) :
  str_isascii (py_str v) = true →
  clean_name (Str (clean_name v)) = clean_name v.
Proof.
  intros _. destruct v as [| |s]; [done..|].
  rewrite (clean_name_str (clean_name _)), str_split_clean_name, clean_name_str.
  f_equal. rewrite <- list_fmap_compose. apply list_fmap_ext.
  intros i w _. apply str_capitalize_idem.
Qed.

Lemma clean_name_idempotent_witness :
  clean_name (Str (clean_name (Str " mARY  ann o'NEIL "))) =
    clean_name (Str " mARY  ann o'NEIL ") ∧
  clean_name (Str " mARY  ann o'NEIL ") = "Mary Ann O'neil".
Proof. split; [apply clean_name_idempotent|]; reflexivity. Defined.

(** X4: two ASCII names clean to the same string exactly when they have
    the same words up to letter case; the amount and the kind of
    whitespace between and around the words play no part. *)
Theorem clean_name_same_words (s t : string) :
  str_isascii s = true → str_isascii t = true →
  clean_name (Str s) = clean_name (Str t) ↔
  str_lower <$> str_split s = str_lower <$> str_split t.
Proof.
  intros _ _. split.
  - intros Heq. apply (f_equal str_split) in Heq.
    rewrite !str_split_clean_name in Heq.
    apply (f_equal (fmap str_lower)) in Heq.
    rewrite <- !list_fmap_compose in Heq.
    erewrite (list_fmap_ext _ str_lower (str_split s)) in Heq
      by (intros; apply str_lower_capitalize).
    by erewrite (list_fmap_ext _ str_lower (str_split t)) in Heq
      by (intros; apply str_lower_capitalize).
  - intros Heq. rewrite !clean_name_str. f_equal.
    apply (f_equal (fmap str_capitalize)) in Heq.
    rewrite <- !list_fmap_compose in Heq.
    erewrite (list_fmap_ext _ str_capitalize (str_split s)) in Heq
      by (intros; apply str_capitalize_lower).
    by erewrite (list_fmap_ext _ str_capitalize (str_split t)) in Heq
      by (intros; apply str_capitalize_lower).
Qed.

Lemma clean_name_same_words_witness :
  clean_name (Str "JOHN  doe") = clean_name (Str " john Doe ").
Proof.
  apply (proj2 (clean_name_same_words "JOHN  doe" " john Doe " eq_refl eq_refl)).
  reflexivity.
Defined.

(** ** [clean_category], again *)

(** X5: a cleaned category is left unchanged by cleaning it again: each
    of the five labels lowercases to its own key. *)
Theorem clean_category_idempotent (v : value) :
  clean_category (Str (clean_category v)) = clean_category v.
Proof.
  pose proof (clean_category_label v) as Hl.
  unfold labels in Hl. simpl in Hl.
  repeat (destruct Hl as [<-|Hl]; [reflexivity|]). done.
Qed.

(** ** [clean_amount], again *)

Lemma str_count_app (c : ascii) (s t : string) :
  str_count c (s +:+ t) = str_count c s + str_count c t.
Proof.
  induction s as [|a r IH]; [done|].
  cbv [String.append]; fold String.append. simpl. rewrite IH. lia.
Qed.

Lemma str_count_contains (c : ascii) (s : string) :
  str_contains c s = false ↔ str_count c s = 0.
Proof.
  induction s as [|a r IH]; [done|]. simpl.
  destruct (Ascii.eqb c a); simpl; [done|]. apply IH.
Qed.

Lemma is_c_space_is_space (c : ascii) : is_c_space c = true → is_space c = true.
Proof. destruct c as [[] [] [] [] [] [] [] []]; vm_compute; done. Qed.

Lemma str_count_c_lstrip (c : ascii) (s : string) :
  is_c_space c = false → str_count c (c_lstrip s) = str_count c s.
Proof.
  intros Hc. induction s as [|a r IH]; [done|]. simpl.
  destruct (is_c_space a) eqn:Ha; [|done].
  rewrite IH. destruct (Ascii.eqb_spec c a) as [->|]; [congruence|done].
Qed.

Lemma str_count_c_rstrip (c : ascii) (s : string) :
  is_c_space c = false → str_count c (c_rstrip s) = str_count c s.
Proof.
  intros Hc. induction s as [|a r IH]; [done|]. simpl.
  destruct (is_c_space a && str_empty (c_rstrip r)) eqn:Ha.
  - apply andb_prop in Ha as [Ha He]. apply str_empty_eq in He.
    rewrite He in IH. simpl in IH. rewrite <- IH.
    destruct (Ascii.eqb_spec c a) as [->|]; [congruence|done].
  - simpl. by rewrite IH.
Qed.

Lemma str_count_replace_other (c a : ascii) (s : string) :
  c ≠ a → str_count c (str_replace a "" s) = str_count c s.
Proof.
  intros Hca. induction s as [|b r IH]; [done|]. simpl.
  destruct (Ascii.eqb_spec a b) as [<-|Hab].
  - cbv [String.append]. rewrite IH.
    destruct (Ascii.eqb_spec c a); [done|done].
  - simpl. by rewrite IH.
Qed.

Lemma str_count_replace_comma (s : string) :
  str_count "." (str_replace "," "." s) = str_count "." s + str_count "," s.
Proof.
  induction s as [|b r IH]; [done|].
  cbn [str_replace str_count].
  destruct (Ascii.eqb_spec "," b) as [<-|Hab].
  - change ("." +:+ str_replace "," "." r) with (String "." (str_replace "," "." r)).
    cbn [str_count]. rewrite IH.
    change (Ascii.eqb "." ".") with true. change (Ascii.eqb "." ",") with false.
    cbn iota. lia.
  - cbn [str_count]. rewrite IH. lia.
Qed.

Lemma str_count_re_sub_spaces (c : ascii) (s : string) :
  is_space c = false → str_count c (re_sub_spaces s) = str_count c s.
Proof.
  intros Hc. induction s as [|a r IH]; [done|]. simpl.
  destruct (is_space a) eqn:Ha; simpl; rewrite IH; [|done].
  destruct (Ascii.eqb_spec c a) as [->|]; [congruence|done].
Qed.

Lemma lower_char_dot (c : ascii) : Ascii.eqb "." (lower_char c) = Ascii.eqb "." c.
Proof. destruct c as [[] [] [] [] [] [] [] []]; vm_compute; reflexivity. Qed.

Lemma str_count_lower_dot (s : string) : str_count "." (str_lower s) = str_count "." s.
Proof.
  induction s as [|a r IH]; [done|].
  cbn [str_lower str_count]. by rewrite lower_char_dot, IH.
Qed.

Lemma is_digit_dot (c : ascii) : is_digit c = true → Ascii.eqb "." c = false.
Proof. destruct c as [[] [] [] [] [] [] [] []]; vm_compute; done. Qed.

Lemma span_digits_spec (s ds rest : string) :
  span_digits s = (ds, rest) → s = ds +:+ rest ∧ str_count "." ds = 0.
Proof.
  revert ds rest. induction s as [|a r IH]; intros ds rest; simpl.
  - by intros [= <- <-].
  - destruct (is_digit a) eqn:Ha.
    + destruct (span_digits r) as [ds' rest'] eqn:Hs. intros [= <- <-].
      destruct (IH _ _ eq_refl) as [-> Hc]. split; [done|].
      cbn [str_count]. by rewrite (is_digit_dot a Ha), Hc.
    + by intros [= <- <-].
Qed.

Lemma read_sign_count (s body : string) (neg : bool) :
  read_sign s = (neg, body) → str_count "." body = str_count "." s.
Proof.
  destruct s as [|c r]; simpl; [by intros [= _ <-]|].
  destruct (Ascii.eqb_spec c "-") as [->|]; [by intros [= _ <-]|].
  destruct (Ascii.eqb_spec c "+") as [->|]; [by intros [= _ <-]|].
  by intros [= _ <-].
Qed.

Lemma read_decimal_dots (neg : bool) (s : string) (x : float) :
  read_decimal neg s = Some x → str_count "." s ≤ 1.
Proof.
  unfold read_decimal.
  destruct (span_digits s) as [ip r1] eqn:H1.
  apply span_digits_spec in H1 as [-> Hip].
  rewrite str_count_app, Hip. simpl.
  assert (∀ r2, match r2 with
                | "" => Some (float_of_decimal neg 0 0)
                | String c r3 =>
                    if Ascii.eqb (lower_char c) "e" then
                      let '(eneg, r4) := read_sign r3 in
                      let '(ed, r5) := span_digits r4 in
                      if str_empty ed || negb (str_empty r5) then None
                      else Some (float_of_decimal neg 0 0)
                    else None
                end ≠ None → str_count "." r2 = 0) as Htail.
  { intros [|c r3]; [done|]. cbn [str_count].
    destruct (Ascii.eqb_spec (lower_char c) "e") as [Hc|]; [|done].
    destruct (read_sign r3) as [eneg r4] eqn:Hsign.
    destruct (span_digits r4) as [ed r5] eqn:Hed.
    destruct (str_empty ed || negb (str_empty r5)) eqn:He; [done|]. intros _.
    apply orb_false_elim in He as [_ He]. apply negb_false_iff, str_empty_eq in He. subst r5.
    apply span_digits_spec in Hed as [-> Hed].
    apply read_sign_count in Hsign.
    rewrite <- lower_char_dot, Hc, <- Hsign, str_count_app, Hed.
    reflexivity. }
  destruct r1 as [|c r].
  - simpl. destruct (str_empty ip); [done|]. intros _. lia.
  - destruct (Ascii.eqb_spec c ".") as [->|Hc].
    + destruct (span_digits r) as [fp r2] eqn:H2.
      apply span_digits_spec in H2 as [-> Hfp].
      destruct (str_empty ip && str_empty fp); [done|].
      intros Hsome. simpl. rewrite str_count_app, Hfp.
      rewrite (Htail r2); [lia|].
      destruct r2 as [|c r3]; [done|].
      destruct (Ascii.eqb (lower_char c) "e"); [|done].
      destruct (read_sign r3) as [eneg r4], (span_digits r4) as [ed r5].
      by destruct (str_empty ed || negb (str_empty r5)).
    + destruct (str_empty ip && str_empty ""); [done|].
      intros Hsome. rewrite (Htail (String c r)); [lia|].
      simpl. destruct (Ascii.eqb (lower_char c) "e"); [|done].
      destruct (read_sign r) as [eneg r4], (span_digits r4) as [ed r5].
      by destruct (str_empty ed || negb (str_empty r5)).
Qed.

(** No text that [float] accepts holds two periods. *)
Lemma float_of_str_dots (s : string) (x : float) :
  float_of_str s = Ok x → str_count "." s ≤ 1.
Proof.
  unfold float_of_str.
  rewrite <- (str_count_c_lstrip "." s), <- (str_count_c_rstrip "." (c_lstrip s)) by done.
  set (t := c_rstrip (c_lstrip s)).
  destruct (negb (underscores_ok _ t)); [done|].
  rewrite <- (str_count_replace_other "." "_" t) by done.
  fold (strip_underscores t).
  destruct (read_sign (strip_underscores t)) as [neg body] eqn:Hsign.
  apply read_sign_count in Hsign. rewrite <- Hsign.
  destruct (String.eqb_spec (str_lower body) "inf") as [Hw|_].
  { intros _. rewrite <- str_count_lower_dot, Hw. cbn. lia. }
  destruct (String.eqb_spec (str_lower body) "infinity") as [Hw|_].
  { intros _. rewrite <- str_count_lower_dot, Hw. cbn. lia. }
  simpl.
  destruct (String.eqb_spec (str_lower body) "nan") as [Hw|_].
  { intros _. rewrite <- str_count_lower_dot, Hw. cbn. lia. }
  destruct (read_decimal neg body) as [y|] eqn:Hd; [|done].
  intros _. by eapply read_decimal_dots.
Qed.

(** X7: an amount with two or more commas and no period counts as 0.0:
    every comma becomes a period and [float] rejects the result, so
    ["1,234,567"] is not read as 1234567. *)
Theorem clean_amount_grouped_commas (s : string) :
  str_contains "." s = false → 2 ≤ str_count "," s →
  clean_amount (Str s) = Ok float_zero.
Proof.
  intros Hdot Hcommas. rewrite clean_amount_str.
  destruct (float_of_str (amount_text s)) as [x|e] eqn:Hf; [exfalso|done].
  apply float_of_str_dots in Hf. unfold amount_text in Hf.
  apply str_count_contains in Hdot.
  assert (str_count "." (re_sub_spaces s) = 0) as Hd0
    by (by rewrite str_count_re_sub_spaces).
  assert (str_count "," (re_sub_spaces s) = str_count "," s) as Hc
    by (by rewrite str_count_re_sub_spaces).
  assert (str_contains "." (re_sub_spaces s) = false) as Hd1 by (by apply str_count_contains).
  assert (str_contains "," (re_sub_spaces s) = true) as Hc1.
  { destruct (str_contains "," (re_sub_spaces s)) eqn:E; [done|].
    apply str_count_contains in E. lia. }
  rewrite Hc1, Hd1 in Hf. rewrite str_count_replace_comma in Hf. lia.
Qed.

Lemma clean_amount_grouped_commas_witness :
  clean_amount (Str "1,234,567") = Ok float_zero.
Proof. apply clean_amount_grouped_commas; [reflexivity|cbn; lia]. Defined.

Lemma may_begin_amount_false (c : ascii) :
  may_begin_amount c = false →
  is_digit c = false ∧ Ascii.eqb c "-" = false ∧ Ascii.eqb c "+" = false ∧
  Ascii.eqb c "." = false ∧ Ascii.eqb "," c = false ∧
  Ascii.eqb (lower_char c) "i" = false ∧ Ascii.eqb (lower_char c) "n" = false.
Proof.
  destruct c as [[] [] [] [] [] [] [] []]; vm_compute; intros; try discriminate; repeat split.
Qed.

Lemma is_space_c_space (c : ascii) : is_space c = false → is_c_space c = false.
Proof.
  intros Hc. destruct (is_c_space c) eqn:E; [|done].
  apply is_c_space_is_space in E. congruence.
Qed.

(** [float] rejects a text that begins with such a character. *)
Lemma float_of_str_bad_start (c : ascii) (r : string) :
  is_space c = false → may_begin_amount c = false →
  ∃ e, float_of_str (String c r) = Raise e.
Proof.
  intros Hsp%is_space_c_space (Hd & Hm & Hp & Hdot & _ & Hi & Hn)%may_begin_amount_false.
  unfold float_of_str. cbn [c_lstrip]. rewrite Hsp. cbn [c_rstrip]. rewrite Hsp. cbn [andb].
  set (t := c_rstrip r). cbn [underscores_ok].
  destruct (Ascii.eqb_spec c "_") as [->|Hu]; [by eexists|].
  rewrite Hd, orb_false_r. change (negb (Ascii.eqb "000" "_")) with true. cbn [andb].
  destruct (underscores_ok c t); cbn [negb]; [|by eexists].
  unfold strip_underscores. cbn [str_replace].
  destruct (Ascii.eqb_spec "_" c) as [Hu'|_]; [congruence|].
  cbn [read_sign]. rewrite Hm, Hp. cbn [str_lower String.eqb]. rewrite Hi, Hn. cbn [andb orb].
  unfold read_decimal. cbn [span_digits]. rewrite Hd, Hdot. cbn. by eexists.
Qed.

Lemma re_sub_spaces_head (s : string) (c : ascii) (r : string) :
  re_sub_spaces s = String c r → is_space c = false.
Proof.
  intros Hs. pose proof (re_sub_spaces_no_space s) as Hns.
  rewrite Hs in Hns. simpl in Hns. apply andb_prop in Hns as [Hc _].
  by apply negb_true_iff in Hc.
Qed.

(** X6: an amount whose first character that is not whitespace is an
    ASCII character other than a digit, a sign, a period, a comma or one
    of [i], [I], [n], [N] counts as 0.0; a currency symbol in front, as
    in ["$12.50"], does that. *)
Theorem clean_amount_symbol_first (s : string) (c : ascii) (r : string) :
  re_sub_spaces s = String c r → may_begin_amount c = false →
  clean_amount (Str s) = Ok float_zero.
Proof.
  intros Hs Hc. rewrite clean_amount_str.
  pose proof (re_sub_spaces_head s c r Hs) as Hsp.
  pose proof (may_begin_amount_false c Hc) as (_ & _ & _ & _ & Hcomma & _).
  assert (∃ r', amount_text s = String c r') as [r' ->].
  { unfold amount_text. rewrite Hs.
    destruct (str_contains "," (String c r)), (str_contains "." (String c r));
      cbn [str_replace]; rewrite ?Hcomma; by eexists. }
  by destruct (float_of_str_bad_start c r' Hsp Hc) as [e ->].
Qed.

Lemma clean_amount_symbol_first_witness :
  clean_amount (Str " $ 12.50") = Ok float_zero.
Proof. apply (clean_amount_symbol_first " $ 12.50" "$" "12.50"); reflexivity. Defined.

(** ** Amounts with two decimals

    Reading such an amount rounds it to 53 bits and printing it rounds
    it back to hundredths; below ten to the fifteenth hundredths the
    first error is too small to show in the second. *)

Section rounding.
Local Open Scope Z_scope.

Lemma iter_pos_nat {A} (f : A → A) (p : positive) (x : A) :
  SpecFloat.iter_pos f p x = Nat.iter (Pos.to_nat p) f x.
Proof.
  revert x. induction p as [p IH|p IH|]; intros x; cbn [SpecFloat.iter_pos].
  - rewrite !IH, Pos2Nat.inj_xI, Nat.iter_succ_r.
    replace (2 * Pos.to_nat p)%nat with (Pos.to_nat p + Pos.to_nat p)%nat by lia.
    by rewrite Nat.iter_add.
  - rewrite !IH, Pos2Nat.inj_xO.
    replace (2 * Pos.to_nat p)%nat with (Pos.to_nat p + Pos.to_nat p)%nat by lia.
    by rewrite Nat.iter_add.
  - reflexivity.
Qed.

Lemma shr_1_nonneg (m : Z) (r s : bool) :
  0 <= m →
  shr_1 (Build_shr_record m r s) = Build_shr_record (m / 2) (Z.odd m) (r || s).
Proof.
  intros Hm. rewrite <- Z.div2_div.
  destruct m as [|p|p]; [done| |lia]. by destruct p.
Qed.

Lemma odd_mod_2 (a : Z) : Z.odd a = (a mod 2 =? 1).
Proof. rewrite Zmod_odd. by destruct (Z.odd a). Qed.

(** [j + 1] shifts to the right: the quotient, the last bit that left
    and whether anything was lost before it. *)
Lemma shr_1_iter (j : nat) (q : Z) (r0 s0 : bool) :
  0 <= q →
  Nat.iter (S j) shr_1 (Build_shr_record q r0 s0) =
  Build_shr_record (q / 2 ^ (Z.of_nat j + 1)) (Z.odd (q / 2 ^ Z.of_nat j))
    (negb (q mod 2 ^ Z.of_nat j =? 0) || (r0 || s0)).
Proof.
  intros Hq. induction j as [|j IH].
  - cbn [Nat.iter]. rewrite shr_1_nonneg by done.
    change (2 ^ Z.of_nat 0) with 1. change (2 ^ (Z.of_nat 0 + 1)) with 2.
    by rewrite Z.div_1_r, Z.mod_1_r.
  - rewrite Nat.iter_succ, IH.
    assert (0 < 2 ^ Z.of_nat j) as Hpow by (apply Z.pow_pos_nonneg; lia).
    assert (0 < 2 ^ (Z.of_nat j + 1)) as Hpow1 by (apply Z.pow_pos_nonneg; lia).
    rewrite shr_1_nonneg by (apply Z.div_pos; [done|lia]).
    rewrite Z.div_div by lia.
    replace (Z.of_nat (S j)) with (Z.of_nat j + 1) by lia.
    rewrite (Z.pow_add_r 2 (Z.of_nat j + 1) 1) by lia. change (2 ^ 1) with 2.
    f_equal.
    rewrite (Z.pow_add_r 2 (Z.of_nat j) 1) by lia. change (2 ^ 1) with 2.
    rewrite (Z.rem_mul_r q (2 ^ Z.of_nat j) 2) by lia.
    rewrite odd_mod_2.
    pose proof (Z.mod_pos_bound q (2 ^ Z.of_nat j) Hpow).
    pose proof (Z.mod_pos_bound (q / 2 ^ Z.of_nat j) 2 ltac:(lia)).
    set (M := q / 2 ^ Z.of_nat j mod 2) in *. set (R := q mod 2 ^ Z.of_nat j) in *.
    rewrite orb_assoc. f_equal.
    destruct (Z.eqb_spec M 1), (Z.eqb_spec R 0), (Z.eqb_spec (R + 2 ^ Z.of_nat j * M) 0);
      cbn [negb orb]; try reflexivity; exfalso; nia.
Qed.

Lemma digits2_pos_size (p : positive) : digits2_pos p = Pos.size p.
Proof. induction p as [p IH|p IH|]; simpl; by rewrite ?IH. Qed.

Lemma Zdigits2_log2 (q : Z) : 0 < q → Zdigits2 q = Z.log2 q + 1.
Proof.
  destruct q as [|p|p]; [lia| |lia]. intros _. simpl Zdigits2.
  rewrite digits2_pos_size. destruct p as [p|p|]; simpl; lia.
Qed.

Lemma Zdigits2_bounds (q D : Z) : 0 <= D → 2 ^ D <= q < 2 ^ (D + 1) → Zdigits2 q = D + 1.
Proof.
  intros HD Hq. assert (0 < 2 ^ D) by (apply Z.pow_pos_nonneg; lia).
  rewrite Zdigits2_log2 by lia. f_equal. by apply Z.log2_unique.
Qed.

(** [n / d] to the nearest: [n] when [a] is within half of [b] of [n * b]. *)
Lemma div_half_even_near (a b n : Z) :
  0 < b → 2 * Z.abs (a - n * b) < b → div_half_even a b = n.
Proof.
  intros Hb Hnear. unfold div_half_even.
  pose proof (Z.div_mod a b ltac:(lia)) as Hdm.
  pose proof (Z.mod_pos_bound a b Hb) as Hmod.
  set (q := a / b) in *. set (r := a mod b) in *.
  assert (q = n ∨ q = n - 1) as Hq by nia.
  destruct (Z.compare_spec (2 * r) b) as [He|Hl|Hg].
  - exfalso. nia.
  - destruct Hq as [->| ->]; [done|exfalso; nia].
  - destruct Hq as [->| ->]; [exfalso; nia|lia].
Qed.

(** The mantissa kept is within half a unit of the number rounded: the
    number is [(d * q + r) / d] and the unit is [2 ^ k]. *)
Lemma round_shift_near (q k d r : Z) :
  0 <= q → 1 <= k → 0 <= r < d →
  let m2 := round_shift q k (negb (r =? 0)) in
  2 * Z.abs (d * m2 * 2 ^ k - (d * q + r)) <= d * 2 ^ k ∧
  q / 2 ^ k <= m2 <= q / 2 ^ k + 1.
Proof.
  intros Hq Hk Hr m2. subst m2. unfold round_shift.
  set (H := 2 ^ (k - 1)).
  assert (0 < H) as HH by (apply Z.pow_pos_nonneg; lia).
  assert (2 ^ k = H * 2) as ->.
  { unfold H. replace k with (Z.succ (k - 1)) at 1 by lia.
    rewrite Z.pow_succ_r by lia. lia. }
  rewrite <- Z.div_div by lia.
  pose proof (Z.div_mod q H ltac:(lia)) as Hdm.
  pose proof (Z.mod_pos_bound q H HH) as Hmod.
  set (A := q / H) in *. set (R0 := q mod H) in *.
  assert (0 <= A) as HA by (apply Z.div_pos; lia).
  pose proof (Z.div_mod A 2 ltac:(lia)) as HdmA.
  pose proof (Z.mod_pos_bound A 2 ltac:(lia)) as HmodA.
  rewrite odd_mod_2.
  set (m1 := A / 2) in *. set (h := A mod 2) in *.
  destruct (Z.eqb_spec h 1) as [Hh|Hh], (Z.eqb_spec R0 0) as [HR|HR],
    (Z.eqb_spec r 0) as [Hr0|Hr0]; cbn [negb orb loc_of_shr_record round_nearest_even];
    try destruct (Z.even m1); split; nia.
Qed.

(** A truncated number loses [r0 || s0]; a location other than exact
    sets one of the two. *)
Lemma shr_record_of_loc_inexact (q : Z) (l : location) :
  ∃ r0 s0, shr_record_of_loc q l = Build_shr_record q r0 s0 ∧
           r0 || s0 = match l with loc_Exact => false | _ => true end.
Proof. destruct l as [|[]]; simpl; eauto. Qed.

Lemma new_location_exact (d r : Z) :
  match new_location d r with loc_Exact => false | _ => true end = negb (r =? 0).
Proof.
  unfold new_location, new_location_even, new_location_odd.
  by destruct (Z.even d), (r =? 0).
Qed.

(** [binary_round_aux] on a mantissa of [53 + k] bits: [k] bits go, and
    one more when rounding carries into a 54th bit. *)
Lemma binary_round_aux_shift (sx : bool) (q e k : Z) (l : location) :
  1 <= k → 2 ^ (52 + k) <= q < 2 ^ (53 + k) → -1074 <= e + k <= 970 →
  let m2 := round_shift q k (match l with loc_Exact => false | _ => true end) in
  binary_round_aux prec emax sx q e l =
  if m2 <? 2 ^ 53 then S754_finite sx (Z.to_pos m2) (e + k)
  else S754_finite sx (Z.to_pos (2 ^ 52)) (e + k + 1).
Proof.
  intros Hk Hq He m2.
  assert (0 < 2 ^ (52 + k)) as Hpow by (apply Z.pow_pos_nonneg; lia).
  assert (2 ^ 52 <= q / 2 ^ k < 2 ^ 53) as Hm1.
  { assert (0 < 2 ^ k) by (apply Z.pow_pos_nonneg; lia).
    rewrite !Z.pow_add_r in Hq by lia. split.
    - apply Z.div_le_lower_bound; lia.
    - apply Z.div_lt_upper_bound; lia. }
  destruct (shr_record_of_loc_inexact q l) as (r0 & s0 & Hrec & Hrs).
  assert (2 ^ 52 <= m2 <= 2 ^ 53) as Hm2.
  { subst m2. unfold round_shift.
    destruct (loc_of_shr_record _) as [|[]]; cbn [round_nearest_even];
      try destruct (Z.even _); lia. }
  unfold binary_round_aux, shr_fexp at 1.
  rewrite (Zdigits2_bounds q (52 + k)) by (rewrite ?Z.add_assoc; lia || (replace (52 + k + 1) with (53 + k) by lia; done)).
  unfold fexp at 1, SpecFloat.emin, prec, emax.
  replace (Z.max (52 + k + 1 + e - 53) (3 - 1024 - 53) - e) with k by lia.
  unfold shr. destruct k as [|p|p]; [lia| |lia].
  rewrite Hrec, iter_pos_nat.
  destruct (Pos.to_nat p) as [|j] eqn:Hj; [lia|].
  rewrite shr_1_iter by lia.
  replace (Z.of_nat j + 1) with (Z.pos p) by lia.
  replace (Z.of_nat j) with (Z.pos p - 1) by lia.
  rewrite Hrs. cbn [shr_m]. fold (round_shift q (Z.pos p) (match l with loc_Exact => false | _ => true end)).
  fold m2.
  destruct (Z.ltb_spec m2 (2 ^ 53)) as [Hlt|Hge].
  - unfold shr_fexp. rewrite (Zdigits2_bounds m2 52) by lia.
    unfold fexp, SpecFloat.emin.
    replace (Z.max (52 + 1 + (e + Z.pos p) - 53) (3 - 1024 - 53) - (e + Z.pos p)) with 0 by lia.
    cbn [shr shr_record_of_loc shr_m].
    destruct m2 as [|m|m]; [lia| |lia].
    replace (e + Z.pos p <=? 1024 - 53) with true by (symmetry; apply Z.leb_le; lia).
    done.
  - assert (m2 = 2 ^ 53) as -> by lia.
    unfold shr_fexp. change (Zdigits2 (2 ^ 53)) with 54.
    unfold fexp, SpecFloat.emin.
    replace (Z.max (54 + (e + Z.pos p) - 53) (3 - 1024 - 53) - (e + Z.pos p)) with 1 by lia.
    cbn [shr shr_record_of_loc SpecFloat.iter_pos]. change (2 ^ 53) with (Z.pos (2 ^ 53)).
    cbn [shr_1 shr_m Pos.pow Pos.iter Pos.mul].
    replace (e + Z.pos p + 1 <=? 1024 - 53) with true by (symmetry; apply Z.leb_le; lia).
    reflexivity.
Qed.

Lemma abs_mul_pos (a K : Z) : 0 < K → Z.abs (a * K) = Z.abs a * K.
Proof. intros HK. rewrite Z.abs_mul, (Z.abs_eq K); lia. Qed.

End rounding.

Section hundredths.
Local Open Scope Z_scope.

Lemma str_forall_app (p : ascii → bool) (s t : string) :
  str_forall p (s +:+ t) = str_forall p s && str_forall p t.
Proof.
  induction s as [|c r IH]; [done|].
  cbv [String.append]; fold String.append. cbn [str_forall]. by rewrite IH, andb_assoc.
Qed.

Lemma plain_char_facts (c : ascii) :
  plain_char c = true →
  is_space c = false ∧ is_c_space c = false ∧ Ascii.eqb c "_" = false ∧
  Ascii.eqb "_" c = false ∧ Ascii.eqb "," c = false.
Proof.
  destruct c as [[] [] [] [] [] [] [] []]; vm_compute; intros; try discriminate; repeat split.
Qed.

Lemma all_digits_plain (s : string) : all_digits s = true → str_forall plain_char s = true.
Proof.
  induction s as [|c r IH]; [done|]. cbn [all_digits str_forall].
  intros [Hc Hr]%andb_prop. unfold plain_char at 1. by rewrite Hc, IH.
Qed.

Section plain.
Variable s : string.
Hypothesis Hs : str_forall plain_char s = true.

Lemma plain_no_space : no_space s = true.
Proof.
  revert Hs. induction s as [|c r IH]; [done|]. cbn [str_forall no_space].
  intros [Hc Hr]%andb_prop.
  destruct (plain_char_facts c Hc) as (-> & _). by rewrite IH.
Qed.

Lemma plain_c_lstrip : c_lstrip s = s.
Proof.
  revert Hs. destruct s as [|c r]; [done|]. cbn [str_forall c_lstrip].
  intros [Hc Hr]%andb_prop.
  by destruct (plain_char_facts c Hc) as (_ & -> & _).
Qed.

Lemma plain_c_rstrip : c_rstrip s = s.
Proof.
  revert Hs. induction s as [|c r IH]; [done|]. cbn [str_forall c_rstrip].
  intros [Hc Hr]%andb_prop.
  destruct (plain_char_facts c Hc) as (_ & -> & _). by rewrite IH.
Qed.

Lemma plain_underscores_ok (prev : ascii) :
  Ascii.eqb prev "_" = false → underscores_ok prev s = true.
Proof.
  revert prev Hs. induction s as [|c r IH]; intros prev Hs' Hprev.
  - cbn [underscores_ok]. by rewrite Hprev.
  - cbn [str_forall] in Hs'. apply andb_prop in Hs' as [Hc Hr].
    destruct (plain_char_facts c Hc) as (_ & _ & Hu & _).
    cbn [underscores_ok]. rewrite Hu, Hprev. cbn [negb orb andb]. by apply IH.
Qed.

Lemma plain_strip_underscores : strip_underscores s = s.
Proof.
  unfold strip_underscores.
  revert Hs. induction s as [|c r IH]; [done|]. cbn [str_forall str_replace].
  intros [Hc Hr]%andb_prop.
  destruct (plain_char_facts c Hc) as (_ & _ & _ & -> & _). by rewrite IH.
Qed.

Lemma plain_no_comma : str_contains "," s = false.
Proof.
  revert Hs. induction s as [|c r IH]; [done|]. cbn [str_forall str_contains].
  intros [Hc Hr]%andb_prop.
  destruct (plain_char_facts c Hc) as (_ & _ & _ & _ & ->). by rewrite IH.
Qed.

Lemma plain_re_sub_spaces : re_sub_spaces s = s.
Proof.
  revert Hs. induction s as [|c r IH]; [done|]. cbn [str_forall re_sub_spaces].
  intros [Hc Hr]%andb_prop.
  destruct (plain_char_facts c Hc) as (-> & _). by rewrite IH.
Qed.
End plain.

(** The value of a decimal numeral as [digits_value] reads it. *)
Lemma digits_value_uint_acc (d : Decimal.uint) (acc : positive) :
  digits_value (Z.pos acc) (NilEmpty.string_of_uint d) = Z.pos (Pos.of_uint_acc d acc).
Proof.
  revert acc. induction d; intros acc; cbn [NilEmpty.string_of_uint digits_value Pos.of_uint_acc];
    [done|rewrite <- IHd; f_equal..].
  all: vm_compute (digit_val _); lia.
Qed.

Lemma digits_value_uint (d : Decimal.uint) :
  digits_value 0 (NilEmpty.string_of_uint d) = Z.of_N (Pos.of_uint d).
Proof.
  induction d; cbn [NilEmpty.string_of_uint digits_value Pos.of_uint]; [done|..].
  - vm_compute (digit_val _). exact IHd.
  - vm_compute (digit_val _). apply (digits_value_uint_acc d 1).
  - vm_compute (digit_val _). apply (digits_value_uint_acc d 2).
  - vm_compute (digit_val _). apply (digits_value_uint_acc d 3).
  - vm_compute (digit_val _). apply (digits_value_uint_acc d 4).
  - vm_compute (digit_val _). apply (digits_value_uint_acc d 5).
  - vm_compute (digit_val _). apply (digits_value_uint_acc d 6).
  - vm_compute (digit_val _). apply (digits_value_uint_acc d 7).
  - vm_compute (digit_val _). apply (digits_value_uint_acc d 8).
  - vm_compute (digit_val _). apply (digits_value_uint_acc d 9).
Qed.

Lemma digits_value_str_of_Z (n : Z) : 0 <= n → digits_value 0 (str_of_Z n) = n.
Proof.
  intros Hn. unfold str_of_Z.
  pose proof (DecimalZ.of_to n) as Hof.
  destruct n as [|p|p]; [done| |lia].
  cbn [Z.to_int NilZero.string_of_int] in *. unfold Z.of_int, Z.of_uint in Hof.
  unfold NilZero.string_of_uint.
  destruct (Pos.to_uint p); [done|by rewrite digits_value_uint..].
Qed.

Lemma digits_value_app (acc : Z) (s t : string) :
  digits_value acc (s +:+ t) = digits_value (digits_value acc s) t.
Proof.
  revert acc. induction s as [|c r IH]; intros acc; [done|].
  cbv [String.append]; fold String.append. cbn [digits_value]. apply IH.
Qed.

Lemma span_digits_app (ds rest : string) :
  all_digits ds = true →
  match rest with String c _ => is_digit c = false | EmptyString => True end →
  span_digits (ds +:+ rest) = (ds, rest).
Proof.
  intros Hds Hrest. induction ds as [|c r IH].
  - cbv [String.append]. destruct rest as [|c r]; [done|]. cbn [span_digits]. by rewrite Hrest.
  - cbn [all_digits] in Hds. apply andb_prop in Hds as [Hc Hr].
    cbv [String.append]; fold String.append. cbn [span_digits].
    by rewrite Hc, IH.
Qed.

Lemma pad2_digits (lo : Z) :
  0 <= lo < 100 →
  all_digits (pad2 lo) = true ∧ String.length (pad2 lo) = 2%nat ∧
  ∀ hi, digits_value hi (pad2 lo) = 100 * hi + lo.
Proof.
  intros Hlo. unfold pad2. cbn [all_digits String.length digits_value].
  rewrite !digit_char_is_digit, !digit_char_val by (zify; Z.div_mod_to_equations; lia).
  repeat split. intros hi. zify; Z.div_mod_to_equations; lia.
Qed.

(** [float] on a numeral with two decimals. *)
Lemma read_decimal_hundredths (neg : bool) (n : Z) :
  0 <= n →
  read_decimal neg (str_of_Z (n / 100) +:+ "." +:+ pad2 (n mod 100)) =
  Some (float_of_decimal neg n (-2)).
Proof.
  intros Hn.
  assert (0 <= n / 100) as Hhi by (apply Z.div_pos; lia).
  assert (0 <= n mod 100 < 100) as Hlo by (apply Z.mod_pos_bound; lia).
  destruct (str_of_Z_digits (n / 100) Hhi) as [Hip Hne].
  destruct (pad2_digits (n mod 100) Hlo) as (Hfp & Hlen & Hval).
  unfold read_decimal.
  change ("." +:+ pad2 (n mod 100)) with (String "." (pad2 (n mod 100))).
  rewrite span_digits_app by done.
  change (Ascii.eqb "." ".") with true. cbn iota.
  rewrite <- (str_app_nil_r (pad2 (n mod 100))) at 1.
  rewrite span_digits_app by done.
  rewrite Hne. cbn [andb]. rewrite Hlen.
  rewrite digits_value_app, digits_value_str_of_Z, Hval by done.
  do 2 f_equal. rewrite (Z.div_mod n 100) at 3 by lia. lia.
Qed.

Lemma hundredths_plain (neg : bool) (n : Z) :
  0 <= n → str_forall plain_char (hundredths_text neg n) = true.
Proof.
  intros Hn. unfold hundredths_text.
  assert (0 <= n / 100) as Hhi by (apply Z.div_pos; lia).
  assert (0 <= n mod 100 < 100) as Hlo by (apply Z.mod_pos_bound; lia).
  destruct (str_of_Z_digits (n / 100) Hhi) as [Hip _].
  destruct (pad2_digits (n mod 100) Hlo) as (Hfp & _).
  rewrite !str_forall_app, (all_digits_plain _ Hip), (all_digits_plain _ Hfp).
  by destruct neg.
Qed.

Lemma float_of_str_hundredths (neg : bool) (n : Z) :
  0 <= n →
  float_of_str (hundredths_text neg n) = Ok (float_of_decimal neg n (-2)).
Proof.
  intros Hn. pose proof (hundredths_plain neg n Hn) as Hplain.
  unfold float_of_str.
  rewrite (plain_c_lstrip _ Hplain), (plain_c_rstrip _ Hplain).
  rewrite (plain_underscores_ok _ Hplain) by done. cbn [negb].
  rewrite (plain_strip_underscores _ Hplain).
  assert (0 <= n / 100) as Hhi by (apply Z.div_pos; lia).
  destruct (str_of_Z_digits (n / 100) Hhi) as [Hip Hne].
  set (body := str_of_Z (n / 100) +:+ "." +:+ pad2 (n mod 100)).
  assert (∃ c r, body = String c r ∧ is_digit c = true) as (c & r & Hbody & Hc).
  { unfold body. destruct (str_of_Z (n / 100)) as [|c r]; [done|].
    exists c. eexists. split; [reflexivity|].
    cbn [all_digits] in Hip. by apply andb_prop in Hip as [-> _]. }
  assert (read_sign (hundredths_text neg n) = (neg, body)) as ->.
  { unfold hundredths_text. fold body. destruct neg; [reflexivity|].
    change ("" +:+ body) with body. rewrite Hbody. cbn [read_sign].
    replace (Ascii.eqb c "-") with false by (symmetry; clear - Hc; char_codes).
    by replace (Ascii.eqb c "+") with false by (symmetry; clear - Hc; char_codes). }
  assert (∀ w, str_empty w = false → is_lower_first w → String.eqb (str_lower body) w = false)
    as Hword.
  { intros [|a w] _ Ha; [done|]. rewrite Hbody. cbn [str_lower String.eqb].
    rewrite (is_digit_lower c Hc).
    replace (Ascii.eqb c a) with false; [done|].
    symmetry. apply Ascii.eqb_neq. intros ->. unfold is_lower_first in Ha.
    clear - Hc Ha. char_codes. }
  rewrite !Hword by done. cbn [orb].
  unfold body. by rewrite read_decimal_hundredths.
Qed.

Lemma amount_text_plain (s : string) :
  str_forall plain_char s = true → amount_text s = s.
Proof.
  intros Hs. unfold amount_text.
  by rewrite (plain_re_sub_spaces _ Hs), (plain_no_comma _ Hs).
Qed.



End hundredths.

(** What [clean_amount] reads in a numeral with two decimals, and how
    it is printed. *)
Lemma clean_amount_hundredths (neg : bool) (n : Z) :
  (0 <= n)%Z →
  clean_amount (Str (hundredths_text neg n)) = Ok (float_of_decimal neg n (-2)).
Proof.
  intros Hn. pose proof (hundredths_plain neg n Hn) as Hplain.
  by rewrite clean_amount_str, (amount_text_plain _ Hplain), float_of_str_hundredths.
Qed.




(** ** [clean_date], again *)

Lemma re_match_day_sep (sep : ascii) (n : Z) (sn : string)
    (ts : list token) (d : date) (r : string) :
  sep = "/"%char ∨ sep = "-"%char → (1 <= n <= 31)%Z → In sn (numerals n) →
  re_match (Td :: TLit sep :: ts) d (sn +:+ String sep r) =
  re_match ts (set_field Td n d) r.
Proof.
  intros Hsep Hn Hsn. revert sn Hsn ts d r.
  by_cases n 31%Z; intros sn [<-|[<-|[]]] ts d r; destruct Hsep as [-> | ->];
    eval_numerals; rewrite ?app_nil_r; reflexivity.
Qed.

Lemma re_match_month_fail (sep : ascii) (n : Z) (sn : string)
    (ts : list token) (d : date) (r : string) :
  sep = "/"%char ∨ sep = "-"%char → (1 <= n <= 31)%Z → (12 < n)%Z → In sn (numerals n) →
  re_match (Tm :: TLit sep :: ts) d (sn +:+ String sep r) = [].
Proof.
  intros Hsep Hn. revert sn ts d r.
  by_cases n 31%Z; intros sn ts d r Hlt; try lia; intros [<-|[<-|[]]];
    destruct Hsep as [-> | ->]; eval_numerals; reflexivity.
Qed.

Lemma re_match_day_end (n : Z) (sn : string) (d : date) :
  (1 <= n <= 31)%Z → In sn (numerals n) →
  ∃ l, re_match [Td] d sn = (set_field Td n d, "") :: l.
Proof.
  intros Hn. revert sn d.
  by_cases n 31%Z; intros sn d [<-|[<-|[]]]; eexists; eval_numerals; reflexivity.
Qed.

Lemma re_match_year_sep (sep : ascii) (y : Z) (ts : list token) (d : date) (r : string) :
  sep = "/"%char ∨ sep = "-"%char → (0 <= y <= 9999)%Z →
  re_match (TY :: TLit sep :: ts) d (pad4 y +:+ String sep r) =
  re_match ts (set_field TY y d) r.
Proof.
  intros Hsep Hy.
  change (re_match (TY :: TLit sep :: ts) d (pad4 y +:+ String sep r))
    with (flat_map (λ vr, re_match (TLit sep :: ts) (set_field TY (fst vr) d) (snd vr))
            (re_Y (pad4 y +:+ String sep r))).
  rewrite re_Y_pad4 by done. cbn [flat_map fst snd]. rewrite app_nil_r.
  destruct Hsep as [-> | ->].
  - change (re_match (TLit "/"%char :: ts) ?d0 (String "/" r)) with (re_match ts d0 r ++ []).
    by rewrite app_nil_r.
  - change (re_match (TLit "-"%char :: ts) ?d0 (String "-" r)) with (re_match ts d0 r ++ []).
    by rewrite app_nil_r.
Qed.

Lemma parse_with_match (s fmt : string) (ts : list token) (d : date) (l : list (date * string)) :
  parse_format fmt = Some ts →
  re_match ts (Date 1900 1 1) s = (d, EmptyString) :: l →
  parse_with fmt s = checked d.
Proof.
  intros Hf Hm. unfold parse_with, strptime, checked. rewrite Hf, Hm. cbn [str_empty negb].
  destruct (valid_date d); [done|]. by destruct (year d =? 0)%Z.
Qed.

Lemma parse_with_no_match (s fmt : string) (ts : list token) :
  parse_format fmt = Some ts →
  re_match ts (Date 1900 1 1) s = [] →
  parse_with fmt s = None.
Proof. intros Hf Hm. unfold parse_with, strptime. by rewrite Hf, Hm. Qed.

Lemma parse_with_Some (fmt t : string) (d : date) :
  parse_with fmt t = Some d → strptime t fmt = Ok d.
Proof. unfold parse_with. destruct (strptime t fmt); [by intros [= ->]|done]. Qed.

Lemma first_parse_cons (fmt : string) (fmts : list string) (t : string) :
  first_parse (fmt :: fmts) t =
  match parse_with fmt t with Some d => Some d | None => first_parse fmts t end.
Proof. unfold parse_with. simpl. by destruct (strptime t fmt). Qed.

(** A format cannot parse a string of another shape. *)
Lemma parse_with_shape (fmt t : string) :
  (fmt = "%Y-%m-%d" ∧ ¬ year_first_shape "-" t) ∨
  (fmt = "%Y/%m/%d" ∧ ¬ year_first_shape "/" t) ∨
  ((fmt = "%d/%m/%Y" ∨ fmt = "%m/%d/%Y") ∧ ¬ day_first_shape "/" t) ∨
  ((fmt = "%d-%m-%Y" ∨ fmt = "%m-%d-%Y") ∧ ¬ day_first_shape "-" t) →
  parse_with fmt t = None.
Proof.
  intros H. destruct (parse_with fmt t) as [d|] eqn:Hp; [exfalso|done].
  apply parse_with_Some, strptime_shape in Hp as (H1 & H2 & H3 & H4).
  destruct H as [[Hf Hn]|[[Hf Hn]|[[Hf Hn]|[Hf Hn]]]]; auto.
Qed.

(** The search through the six formats, by the shape of the string: at
    most two formats are in question. *)
Lemma first_parse_slash (t : string) :
  day_first_shape "/" t →
  first_parse formats t =
  match parse_with "%d/%m/%Y" t with Some d => Some d | None => parse_with "%m/%d/%Y" t end.
Proof.
  intros Hs. unfold formats. rewrite !first_parse_cons. cbn [first_parse].
  rewrite (parse_with_shape "%Y-%m-%d").
  2:{ left. split; [done|]. intros Hy. by apply (shapes_day_year "/" "-" t); [..|left]. }
  destruct (parse_with "%d/%m/%Y" t); [done|].
  destruct (parse_with "%m/%d/%Y" t); [done|].
  rewrite (parse_with_shape "%d-%m-%Y").
  2:{ do 3 right. split; [by left|]. intros Hd. by apply (shapes_day_day t). }
  rewrite (parse_with_shape "%m-%d-%Y").
  2:{ do 3 right. split; [by right|]. intros Hd. by apply (shapes_day_day t). }
  rewrite (parse_with_shape "%Y/%m/%d"); [done|].
  right; left. split; [done|]. intros Hy. by apply (shapes_day_year "/" "/" t); [..|left].
Qed.

Lemma first_parse_dash (t : string) :
  day_first_shape "-" t →
  first_parse formats t =
  match parse_with "%d-%m-%Y" t with Some d => Some d | None => parse_with "%m-%d-%Y" t end.
Proof.
  intros Hs. unfold formats. rewrite !first_parse_cons. cbn [first_parse].
  rewrite (parse_with_shape "%Y-%m-%d").
  2:{ left. split; [done|]. intros Hy. by apply (shapes_day_year "-" "-" t); [..|right]. }
  rewrite (parse_with_shape "%d/%m/%Y").
  2:{ do 2 right; left. split; [by left|]. intros Hd. by apply (shapes_day_day t). }
  rewrite (parse_with_shape "%m/%d/%Y").
  2:{ do 2 right; left. split; [by right|]. intros Hd. by apply (shapes_day_day t). }
  destruct (parse_with "%d-%m-%Y" t); [done|].
  destruct (parse_with "%m-%d-%Y" t); [done|].
  rewrite (parse_with_shape "%Y/%m/%d"); [done|].
  right; left. split; [done|]. intros Hy. by apply (shapes_day_year "-" "/" t); [..|right].
Qed.

Lemma first_parse_year_dash (t : string) :
  year_first_shape "-" t → first_parse formats t = parse_with "%Y-%m-%d" t.
Proof.
  intros Hs. unfold formats. rewrite !first_parse_cons. cbn [first_parse].
  destruct (parse_with "%Y-%m-%d" t); [done|].
  rewrite (parse_with_shape "%d/%m/%Y").
  2:{ do 2 right; left. split; [by left|]. intros Hd. by apply (shapes_day_year "/" "-" t); [..|left]. }
  rewrite (parse_with_shape "%m/%d/%Y").
  2:{ do 2 right; left. split; [by right|]. intros Hd. by apply (shapes_day_year "/" "-" t); [..|left]. }
  rewrite (parse_with_shape "%d-%m-%Y").
  2:{ do 3 right. split; [by left|]. intros Hd. by apply (shapes_day_year "-" "-" t); [..|right]. }
  rewrite (parse_with_shape "%m-%d-%Y").
  2:{ do 3 right. split; [by right|]. intros Hd. by apply (shapes_day_year "-" "-" t); [..|right]. }
  rewrite (parse_with_shape "%Y/%m/%d"); [done|].
  right; left. split; [done|]. intros Hy. by apply (shapes_year_year t).
Qed.

Lemma first_parse_year_slash (t : string) :
  year_first_shape "/" t → first_parse formats t = parse_with "%Y/%m/%d" t.
Proof.
  intros Hs. unfold formats. rewrite !first_parse_cons. cbn [first_parse].
  rewrite (parse_with_shape "%Y-%m-%d").
  2:{ left. split; [done|]. intros Hy. by apply (shapes_year_year t). }
  rewrite (parse_with_shape "%d/%m/%Y").
  2:{ do 2 right; left. split; [by left|]. intros Hd. by apply (shapes_day_year "/" "/" t); [..|left]. }
  rewrite (parse_with_shape "%m/%d/%Y").
  2:{ do 2 right; left. split; [by right|]. intros Hd. by apply (shapes_day_year "/" "/" t); [..|left]. }
  rewrite (parse_with_shape "%d-%m-%Y").
  2:{ do 3 right. split; [by left|]. intros Hd. by apply (shapes_day_year "-" "/" t); [..|right]. }
  rewrite (parse_with_shape "%m-%d-%Y").
  2:{ do 3 right. split; [by right|]. intros Hd. by apply (shapes_day_year "-" "/" t); [..|right]. }
  by destruct (parse_with "%Y/%m/%d" t).
Qed.

Section written_dates.
Variables (sep : ascii) (y m d : Z) (sm sd : string).
Hypothesis Hsep : sep = "/"%char ∨ sep = "-"%char.
Hypothesis Hy : (1 <= y <= 9999)%Z.
Hypothesis Hm : (1 <= m <= 12)%Z.
Hypothesis Hd : (1 <= d <= 31)%Z.
Hypothesis Hsm : In sm (numerals m).
Hypothesis Hsd : In sd (numerals d).

Lemma re_match_dmy :
  re_match [Td; TLit sep; Tm; TLit sep; TY] (Date 1900 1 1) (date_text sep sd sm (pad4 y)) =
  [(Date y m d, "")].
Proof.
  unfold date_text. rewrite (re_match_day_sep sep d) by done.
  rewrite (re_match_numeral Tm sep m) by auto.
  by rewrite re_match_year_end by lia.
Qed.

Lemma re_match_mdy :
  re_match [Tm; TLit sep; Td; TLit sep; TY] (Date 1900 1 1) (date_text sep sm sd (pad4 y)) =
  [(Date y m d, "")].
Proof.
  unfold date_text. rewrite (re_match_numeral Tm sep m) by auto.
  rewrite (re_match_day_sep sep d) by done.
  by rewrite re_match_year_end by lia.
Qed.

Lemma re_match_ymd :
  ∃ l, re_match [TY; TLit sep; Tm; TLit sep; Td] (Date 1900 1 1) (date_text sep (pad4 y) sm sd) =
       (Date y m d, "") :: l.
Proof.
  unfold date_text. rewrite re_match_year_sep by (done || lia).
  rewrite (re_match_numeral Tm sep m) by auto.
  apply re_match_day_end; done.
Qed.

Lemma re_match_dmy_month_first :
  (12 < d)%Z →
  re_match [Td; TLit sep; Tm; TLit sep; TY] (Date 1900 1 1) (date_text sep sm sd (pad4 y)) = [].
Proof.
  intros Hlt. unfold date_text. rewrite (re_match_numeral Td sep m) by auto.
  by apply (re_match_month_fail sep d).
Qed.

Lemma re_match_mdy_day_first :
  (12 < d)%Z →
  re_match [Tm; TLit sep; Td; TLit sep; TY] (Date 1900 1 1) (date_text sep sd sm (pad4 y)) = [].
Proof. intros Hlt. unfold date_text. by apply (re_match_month_fail sep d). Qed.

Lemma numerals_no_space_day : no_space sd = true.
Proof.
  revert sd Hsd. clear Hsm. by_cases d 31%Z; intros s [<-|[<-|[]]]; vm_compute; reflexivity.
Qed.

Lemma date_text_no_space (a b c : string) :
  no_space a = true → no_space b = true → no_space c = true →
  no_space (date_text sep a b c) = true.
Proof.
  intros Ha Hb Hc. unfold date_text. rewrite no_space_app. cbn [no_space].
  rewrite no_space_app. cbn [no_space]. rewrite Ha, Hb, Hc.
  by destruct Hsep as [-> | ->].
Qed.

Lemma date_text_nonempty (a b c : string) : date_text sep a b c ≠ "".
Proof. unfold date_text. by destruct a. Qed.
End written_dates.

Lemma clean_date_no_space {P : Platform} (t : string) :
  t ≠ "" → no_space t = true →
  clean_date (Str t) =
  Ok (Some (from_option (λ d, strftime d "%Y-%m-%d") t (first_parse formats t))).
Proof. intros Ht Hns. rewrite clean_date_str by done. by rewrite str_strip_no_space. Qed.

Lemma match_head {A} (x : A) (l l' : list A) : l = x :: l' → In x l.
Proof. intros ->. apply in_eq. Qed.

Lemma impossible_day (y m d : Z) :
  (days_in_month y m < d)%Z → valid_date (Date y m d) = false ∧ (12 < d)%Z.
Proof.
  intros Hd. split.
  - unfold valid_date. cbn [year month day].
    replace (d <=? days_in_month y m)%Z with false by (symmetry; apply Z.leb_gt; lia).
    apply andb_false_r.
  - unfold days_in_month in Hd.
    destruct (m =? 2)%Z, (is_leap y),
      ((m =? 4) || (m =? 6) || (m =? 9) || (m =? 11))%Z; lia.
Qed.

(** What the search finds for a date written in each of the six ways. *)
Section search.
Variables (y m d : Z) (sm sd : string).
Hypothesis Hy : (1 <= y <= 9999)%Z.
Hypothesis Hm : (1 <= m <= 12)%Z.
Hypothesis Hd : (1 <= d <= 31)%Z.
Hypothesis Hsm : In sm (numerals m).
Hypothesis Hsd : In sd (numerals d).

Lemma first_parse_ymd (sep : ascii) :
  sep = "/"%char ∨ sep = "-"%char →
  first_parse formats (date_text sep (pad4 y) sm sd) = checked (Date y m d).
Proof.
  intros Hsep.
  destruct (re_match_ymd sep y m d sm sd Hsep Hy Hm Hd Hsm Hsd) as [l Hl].
  pose proof (year_first_match sep _ _ _ _ Hsep (match_head _ _ _ Hl)) as Hshape.
  destruct Hsep as [-> | ->].
  - rewrite first_parse_year_slash by done.
    by rewrite (parse_with_match _ "%Y/%m/%d" _ _ _ eq_refl Hl).
  - rewrite first_parse_year_dash by done.
    by rewrite (parse_with_match _ "%Y-%m-%d" _ _ _ eq_refl Hl).
Qed.

Lemma first_parse_dmy (sep : ascii) :
  sep = "/"%char ∨ sep = "-"%char →
  (valid_date (Date y m d) = true ∨ 12 < d)%Z →
  first_parse formats (date_text sep sd sm (pad4 y)) = checked (Date y m d).
Proof.
  intros Hsep Hcase.
  pose proof (re_match_dmy sep y m d sm sd Hsep Hy Hm Hd Hsm Hsd) as Hl.
  pose proof (day_first_match Td sep _ _ _ _ (or_introl eq_refl) Hsep (match_head _ _ _ Hl))
    as Hshape.
  destruct Hsep as [-> | ->].
  - rewrite first_parse_slash by done.
    rewrite (parse_with_match _ "%d/%m/%Y" _ _ _ eq_refl Hl). unfold checked.
    destruct (valid_date (Date y m d)) eqn:Hv; [done|].
    destruct Hcase as [|Hlt]; [done|].
    apply (parse_with_no_match _ "%m/%d/%Y" _ eq_refl).
    eapply re_match_mdy_day_first; eauto.
  - rewrite first_parse_dash by done.
    rewrite (parse_with_match _ "%d-%m-%Y" _ _ _ eq_refl Hl). unfold checked.
    destruct (valid_date (Date y m d)) eqn:Hv; [done|].
    destruct Hcase as [|Hlt]; [done|].
    apply (parse_with_no_match _ "%m-%d-%Y" _ eq_refl).
    eapply re_match_mdy_day_first; eauto.
Qed.

Lemma first_parse_mdy (sep : ascii) :
  sep = "/"%char ∨ sep = "-"%char → (12 < d)%Z →
  first_parse formats (date_text sep sm sd (pad4 y)) = checked (Date y m d).
Proof.
  intros Hsep Hlt.
  pose proof (re_match_mdy sep y m d sm sd Hsep Hy Hm Hd Hsm Hsd) as Hl.
  pose proof (day_first_match Tm sep _ _ _ _ (or_intror eq_refl) Hsep (match_head _ _ _ Hl))
    as Hshape.
  assert (re_match [Td; TLit sep; Tm; TLit sep; TY] (Date 1900 1 1) (date_text sep sm sd (pad4 y)) = [])
    as Hno by (by eapply re_match_dmy_month_first).
  destruct Hsep as [-> | ->].
  - rewrite first_parse_slash by done.
    rewrite (parse_with_no_match _ "%d/%m/%Y" _ eq_refl Hno).
    by rewrite (parse_with_match _ "%m/%d/%Y" _ _ _ eq_refl Hl).
  - rewrite first_parse_dash by done.
    rewrite (parse_with_no_match _ "%d-%m-%Y" _ eq_refl Hno).
    by rewrite (parse_with_match _ "%m-%d-%Y" _ _ _ eq_refl Hl).
Qed.

Lemma written_no_space (sep : ascii) :
  sep = "/"%char ∨ sep = "-"%char →
  no_space (date_text sep (pad4 y) sm sd) = true ∧
  no_space (date_text sep sd sm (pad4 y)) = true ∧
  no_space (date_text sep sm sd (pad4 y)) = true.
Proof.
  intros Hsep.
  pose proof (numerals_no_space m sm Hm Hsm).
  assert (no_space sd = true) by (by eapply numerals_no_space_day).
  pose proof (pad4_no_space y ltac:(lia)).
  repeat split; by apply date_text_no_space.
Qed.
End search.

(** X8: every date of the calendar, from year 1 to year 9999, written
    year first or day first with slashes or with dashes, the year on
    four digits and the day and the month as plain or zero-padded
    numerals, is cleaned to its ISO form. *)
Theorem clean_date_written_dates {P : Platform} (y m d : Z) (sm sd t : string) :
  valid_date (Date y m d) = true → In sm (numerals m) → In sd (numerals d) →
  In t [date_text "-" (pad4 y) sm sd; date_text "/" (pad4 y) sm sd;
        date_text "/" sd sm (pad4 y); date_text "-" sd sm (pad4 y)] →
  clean_date (Str t) = Ok (Some (strftime (Date y m d) "%Y-%m-%d")).
Proof.
  intros Hv Hsm Hsd Ht.
  pose proof (valid_date_bounds _ Hv) as (Hy & Hm & Hd). cbn [year month day] in *.
  destruct (written_no_space y m d sm sd Hy Hm Hd Hsm Hsd "/") as (N1 & N2 & _); [by left|].
  destruct (written_no_space y m d sm sd Hy Hm Hd Hsm Hsd "-") as (N3 & N4 & _); [by right|].
  cbn [In] in Ht. destruct Ht as [<-|[<-|[<-|[<-|[]]]]];
    rewrite clean_date_no_space by (done || apply date_text_nonempty).
  - rewrite (first_parse_ymd y m d sm sd) by auto. unfold checked. by rewrite Hv.
  - rewrite (first_parse_ymd y m d sm sd) by auto. unfold checked. by rewrite Hv.
  - rewrite (first_parse_dmy y m d sm sd) by auto. unfold checked. by rewrite Hv.
  - rewrite (first_parse_dmy y m d sm sd) by auto. unfold checked. by rewrite Hv.
Qed.

Lemma clean_date_written_dates_witness :
  clean_date (P := iso_years) (Str "29/2/2024") =
    Ok (Some (strftime (P := iso_years) (Date 2024 2 29) "%Y-%m-%d")) ∧
  strftime (P := iso_years) (Date 2024 2 29) "%Y-%m-%d" = "2024-02-29" ∧
  clean_date (P := glibc_years) (Str "0812/09/7") =
    Ok (Some (strftime (P := glibc_years) (Date 812 9 7) "%Y-%m-%d")) ∧
  strftime (P := glibc_years) (Date 812 9 7) "%Y-%m-%d" = "812-09-07".
Proof.
  split; [|split; [reflexivity|split; [|reflexivity]]].
  - apply (clean_date_written_dates (P := iso_years) 2024 2 29 "2" "29" "29/2/2024");
      [reflexivity|cbn; tauto..].
  - apply (clean_date_written_dates (P := glibc_years) 812 9 7 "09" "7" "0812/09/7");
      [reflexivity|cbn; tauto..].
Defined.

(** X9: a date written month first is read month first when its day is
    above 12, since the day-first format then fails on the month. *)
Theorem clean_date_month_first {P : Platform} (y m d : Z) (sm sd : string) (sep : ascii) :
  valid_date (Date y m d) = true → (12 < d)%Z →
  In sm (numerals m) → In sd (numerals d) → sep = "/"%char ∨ sep = "-"%char →
  clean_date (Str (date_text sep sm sd (pad4 y))) = Ok (Some (strftime (Date y m d) "%Y-%m-%d")).
Proof.
  intros Hv Hlt Hsm Hsd Hsep.
  pose proof (valid_date_bounds _ Hv) as (Hy & Hm & Hd). cbn [year month day] in *.
  destruct (written_no_space y m d sm sd Hy Hm Hd Hsm Hsd sep Hsep) as (_ & _ & N).
  rewrite clean_date_no_space by (done || apply date_text_nonempty).
  rewrite (first_parse_mdy y m d sm sd) by auto. unfold checked. by rewrite Hv.
Qed.

Lemma clean_date_month_first_witness :
  clean_date (P := iso_years) (Str "04/20/2023") =
    Ok (Some (strftime (P := iso_years) (Date 2023 4 20) "%Y-%m-%d")) ∧
  strftime (P := iso_years) (Date 2023 4 20) "%Y-%m-%d" = "2023-04-20".
Proof.
  split; [|reflexivity].
  apply (clean_date_month_first (P := iso_years) 2023 4 20 "04" "20" "/");
    [reflexivity|lia|cbn; tauto..].
Defined.

(** X10: a date whose day does not exist in its month, such as the 31st
    of April or the 29th of February outside a leap year, is returned
    unchanged in whichever of the six orders it is written: it is
    neither rejected nor moved to a day that exists. *)
Theorem clean_date_impossible_day {P : Platform} (y m d : Z) (sm sd t : string) (sep : ascii) :
  (1 <= y <= 9999)%Z → (1 <= m <= 12)%Z → (days_in_month y m < d <= 31)%Z →
  In sm (numerals m) → In sd (numerals d) → sep = "/"%char ∨ sep = "-"%char →
  In t [date_text sep (pad4 y) sm sd; date_text sep sd sm (pad4 y); date_text sep sm sd (pad4 y)] →
  clean_date (Str t) = Ok (Some t).
Proof.
  intros Hy Hm [Hlo Hhi] Hsm Hsd Hsep Ht.
  destruct (impossible_day y m d Hlo) as [Hv Hlt].
  assert (1 <= d <= 31)%Z as Hd by lia.
  destruct (written_no_space y m d sm sd Hy Hm Hd Hsm Hsd sep Hsep) as (N1 & N2 & N3).
  cbn [In] in Ht. destruct Ht as [<-|[<-|[<-|[]]]];
    rewrite clean_date_no_space by (done || apply date_text_nonempty).
  - rewrite (first_parse_ymd y m d sm sd) by auto. unfold checked. by rewrite Hv.
  - rewrite (first_parse_dmy y m d sm sd) by auto. unfold checked. by rewrite Hv.
  - rewrite (first_parse_mdy y m d sm sd) by auto. unfold checked. by rewrite Hv.
Qed.

Lemma clean_date_impossible_day_witness :
  clean_date (P := iso_years) (Str "2023-02-29") = Ok (Some "2023-02-29") ∧
  clean_date (P := iso_years) (Str "31/4/2023") = Ok (Some "31/4/2023") ∧
  clean_date (P := iso_years) (Str "02/30/2024") = Ok (Some "02/30/2024").
Proof.
  split; [|split].
  - apply (clean_date_impossible_day (P := iso_years) 2023 2 29 "02" "29" "2023-02-29" "-");
      [lia|lia|split; [reflexivity|lia]|cbn; tauto..].
  - apply (clean_date_impossible_day (P := iso_years) 2023 4 31 "4" "31" "31/4/2023" "/");
      [lia|lia|split; [reflexivity|lia]|cbn; tauto..].
  - apply (clean_date_impossible_day (P := iso_years) 2024 2 30 "02" "30" "02/30/2024" "/");
      [lia|lia|split; [reflexivity|lia]|cbn; tauto..].
Defined.

Lemma first_parse_empty : first_parse formats "" = None.
Proof. reflexivity. Qed.

(** X12: when one of the formats parses the input, the result is a
    string of ten characters that the first format parses back to the
    same date, provided the year is printed on four digits: on every
    platform from the year 1000 on, and before it where [%Y] pads. *)
Theorem clean_date_reparse {P : Platform} (s : string) (d : date) :
  first_parse formats (str_strip s) = Some d →
  year_padded = true ∨ (1000 <= year d)%Z →
  ∃ t, clean_date (Str s) = Ok (Some t) ∧
       strptime t "%Y-%m-%d" = Ok d ∧ String.length t = 10.
Proof.
  intros Hp Hyear.
  assert (s ≠ "") as Hs.
  { intros ->. change (str_strip "") with "" in Hp. by rewrite first_parse_empty in Hp. }
  pose proof (first_parse_valid _ _ _ Hp) as Hv.
  pose proof (valid_date_bounds _ Hv) as (Hy & _ & _).
  assert (year_str (year d) = pad4 (year d)) as Hpad.
  { unfold year_str. destruct year_padded; [done|].
    destruct Hyear as [|Hge]; [done|]. apply str_of_Z_pad4. lia. }
  exists (strftime d "%Y-%m-%d"). split; [|split].
  - rewrite clean_date_str by done. by rewrite Hp.
  - by apply strptime_strftime.
  - by rewrite strftime_iso, Hpad.
Qed.

Lemma clean_date_reparse_witness :
  ∃ t, clean_date (P := glibc_years) (Str " 20/04/2023 ") = Ok (Some t) ∧
       strptime t "%Y-%m-%d" = Ok (Date 2023 4 20) ∧ String.length t = 10.
Proof.
  apply (clean_date_reparse (P := glibc_years) " 20/04/2023 " (Date 2023 4 20));
    [vm_compute; reflexivity|right; cbn; lia].
Defined.

Ltac split_digits H :=
  unfold digits_between in H; cbn in H;
  repeat match type of H with
         | (_ && _) = true => let H' := fresh H in apply andb_prop in H as [H H']
         end.

Lemma short_year_last_no_match (sep : ascii) (a b yy : string) (ts : list token) :
  sep = "/"%char ∨ sep = "-"%char →
  digits_between 1 2 a = true → digits_between 1 2 b = true → digits_between 1 3 yy = true →
  In ts format_tokens →
  matches (date_text sep a b yy) ts = false.
Proof.
  intros Hsep Ha Hb Hy Hts.
  destruct (matches _ ts) eqn:Hmatch; [exfalso|done].
  apply matches_In in Hmatch as [d Hin].
  unfold format_tokens, formats in Hts; simpl in Hts.
  destruct a as [|a1 [|a2 [|a3 a]]]; try done;
  destruct b as [|b1 [|b2 [|b3 b]]]; try done;
  destruct yy as [|y1 [|y2 [|y3 [|y4 yy]]]]; try done;
  split_digits Ha; split_digits Hb; split_digits Hy;
  unfold date_text in Hin; cbv [String.append] in Hin;
  destruct Hsep as [-> | ->];
  repeat (destruct Hts as [<-|Hts]); try done;
  invert_match; done.
Qed.

Lemma short_year_first_no_match (sep : ascii) (a b yy : string) (ts : list token) :
  sep = "/"%char ∨ sep = "-"%char →
  digits_between 1 2 a = true → digits_between 1 2 b = true → digits_between 1 3 yy = true →
  In ts format_tokens →
  matches (date_text sep yy a b) ts = false.
Proof.
  intros Hsep Ha Hb Hy Hts.
  destruct (matches _ ts) eqn:Hmatch; [exfalso|done].
  apply matches_In in Hmatch as [d Hin].
  unfold format_tokens, formats in Hts; simpl in Hts.
  destruct a as [|a1 [|a2 [|a3 a]]]; try done;
  destruct b as [|b1 [|b2 [|b3 b]]]; try done;
  destruct yy as [|y1 [|y2 [|y3 [|y4 yy]]]]; try done;
  split_digits Ha; split_digits Hb; split_digits Hy;
  unfold date_text in Hin; cbv [String.append] in Hin;
  destruct Hsep as [-> | ->];
  repeat (destruct Hts as [<-|Hts]); try done;
  invert_match; done.
Qed.

Lemma all_digits_no_space (s : string) : all_digits s = true → no_space s = true.
Proof.
  induction s as [|c r IH]; [done|]. simpl.
  intros [Hc Hr]%andb_prop. by rewrite (is_digit_not_space c Hc), IH.
Qed.

Lemma digits_between_no_space (lo hi : nat) (s : string) :
  digits_between lo hi s = true → no_space s = true.
Proof.
  unfold digits_between. intros [[H _]%andb_prop _]%andb_prop.
  by apply all_digits_no_space.
Qed.

(** X11: a date whose year has fewer than four digits, first or last,
    is in none of the six formats and is returned unchanged; so is
    ["20/04/23"]. *)
Theorem clean_date_short_year {P : Platform} (a b yy t : string) (sep : ascii) :
  digits_between 1 2 a = true → digits_between 1 2 b = true →
  digits_between 1 3 yy = true → sep = "/"%char ∨ sep = "-"%char →
  In t [date_text sep a b yy; date_text sep yy a b] →
  clean_date (Str t) = Ok (Some t).
Proof.
  intros Ha Hb Hy Hsep Ht.
  pose proof (digits_between_no_space _ _ _ Ha) as Na.
  pose proof (digits_between_no_space _ _ _ Hb) as Nb.
  pose proof (digits_between_no_space _ _ _ Hy) as Ny.
  assert (passes_through t = true) as Hpass.
  { unfold passes_through.
    cbn [In] in Ht. destruct Ht as [<-|[<-|[]]];
      (apply andb_true_intro; split; [apply andb_true_intro; split|]);
      try (by apply date_text_no_space);
      try (by pose proof (date_text_nonempty sep a b yy); destruct (date_text sep a b yy));
      try (by pose proof (date_text_nonempty sep yy a b); destruct (date_text sep yy a b));
      apply forallb_forall; intros ts Hts.
    - by rewrite short_year_last_no_match.
    - by rewrite short_year_first_no_match. }
  apply passes_through_first_parse in Hpass as (Hne & Hstrip & Hnone).
  rewrite clean_date_str by done. by rewrite Hstrip, Hnone.
Qed.

Lemma clean_date_short_year_witness :
  clean_date (P := iso_years) (Str "20/04/23") = Ok (Some "20/04/23") ∧
  clean_date (P := iso_years) (Str "812-9-7") = Ok (Some "812-9-7").
Proof.
  split.
  - apply (clean_date_short_year (P := iso_years) "20" "04" "23" "20/04/23" "/");
      [reflexivity..|tauto|cbn; tauto].
  - apply (clean_date_short_year (P := iso_years) "9" "7" "812" "812-9-7" "-");
      [reflexivity..|tauto|cbn; tauto].
Defined.

Lemma strftime_no_space {P : Platform} (d : date) :
  valid_date d = true → no_space (strftime d "%Y-%m-%d") = true.
Proof.
  intros Hv. pose proof (valid_date_bounds d Hv) as (Hy & Hm & Hd).
  rewrite strftime_iso, no_space_app. cbn [no_space].
  rewrite !digit_char_not_space by (zify; Z.div_mod_to_equations; lia).
  change (is_space "-") with false. cbn [negb andb]. rewrite andb_true_r.
  unfold year_str. destruct year_padded.
  - apply pad4_no_space. lia.
  - apply all_digits_no_space. by apply str_of_Z_digits; lia.
Qed.

(** X18: a cleaned date has no whitespace at either end, whether it was
    parsed or is the input handed back. *)
Theorem clean_date_trimmed {P : Platform} (v : value) (t : string) :
  clean_date v = Ok (Some t) → str_strip t = t.
Proof.
  destruct v as [| |s]; [done..|].
  destruct s as [|c r]; [done|].
  rewrite clean_date_str by done.
  destruct (first_parse formats (str_strip (String c r))) as [d|] eqn:Hp;
    cbn [from_option]; intros [= <-].
  - apply str_strip_no_space, strftime_no_space. by eapply first_parse_valid.
  - apply str_strip_idem.
Qed.

Lemma clean_date_trimmed_witness :
  str_strip "not a date" = "not a date" ∧ str_strip "2023-04-20" = "2023-04-20".
Proof.
  split.
  - apply (clean_date_trimmed (P := iso_years) (Str "  not a date ") "not a date").
    reflexivity.
  - apply (clean_date_trimmed (P := glibc_years) (Str " 20/4/2023") "2023-04-20").
    reflexivity.
Defined.

(** ** The handler, again *)

Section process_outcome.
Context {P : Platform}.
Variable read_csv : string → result (gmap string (list value)).

Lemma process_Ok_iff (content : string) :
  (∃ r, process read_csv content = Ok r) ↔
  utf8_error content = None ∧
  ∃ df, read_csv content = Ok df ∧ Forall (λ k, is_Some (df !! k)) required_columns.
Proof.
  split.
  - intros [r Hr].
    destruct (utf8_error content) as [msg|] eqn:Hu.
    { by rewrite (process_decode_error _ _ _ Hu) in Hr. }
    split; [done|].
    destruct (read_csv content) as [df|e] eqn:Hread.
    2:{ by rewrite (process_read_error _ _ _ Hu Hread) in Hr. }
    exists df. split; [done|].
    destruct (df !! "Name") as [names|] eqn:Hn.
    2:{ by rewrite (process_missing_column _ _ df "Name" [] Hu Hread) in Hr
          by (done || set_solver). }
    destruct (df !! "Date") as [dates|] eqn:Hd.
    2:{ rewrite (process_missing_column _ _ df "Date" ["Name"] Hu Hread) in Hr;
          [done|set_solver| |done].
        apply Forall_cons_2; [by rewrite Hn|apply Forall_nil_2]. }
    destruct (df !! "Amount") as [amounts|] eqn:Ha.
    2:{ rewrite (process_missing_column _ _ df "Amount" ["Name"; "Date"] Hu Hread) in Hr;
          [done|set_solver| |done].
        repeat (apply Forall_cons_2; [by rewrite ?Hn, ?Hd|]). apply Forall_nil_2. }
    destruct (df !! "Category") as [cats|] eqn:Hc.
    2:{ rewrite (process_missing_column _ _ df "Category" ["Name"; "Date"; "Amount"] Hu Hread) in Hr;
          [done|set_solver| |done].
        repeat (apply Forall_cons_2; [by rewrite ?Hn, ?Hd, ?Ha|]). apply Forall_nil_2. }
    unfold required_columns.
    repeat (apply Forall_cons_2; [by rewrite ?Hn, ?Hd, ?Ha, ?Hc|]). apply Forall_nil_2.
  - intros (Hu & df & Hread & Hcols). unfold required_columns in Hcols.
    apply Forall_cons in Hcols as [[names Hn] Hcols].
    apply Forall_cons in Hcols as [[dates Hd] Hcols].
    apply Forall_cons in Hcols as [[amounts Ha] Hcols].
    apply Forall_cons in Hcols as [[cats Hc] _].
    eexists. by apply (process_ok _ _ df names dates amounts cats).
Qed.
End process_outcome.

(** X13: the handler answers 200, 400 or 500, and 200 exactly when the
    name ends in [.csv], the bytes still to be read are UTF-8 and the
    reader returns a table with the columns Name, Date, Amount and
    Category.  What the cells hold never makes a request fail. *)
Theorem analyze_status_cases {P : Platform}
    (read_csv : string → result (gmap string (list value))) (file : UploadFile) :
  let bytes := str_drop (cursor file) (content file) in
  let code := status (analyze_expenses read_csv file).1 in
  (code = 200 ∨ code = 400 ∨ code = 500)%Z ∧
  (code = 200%Z ↔
   str_endswith (filename file) ".csv" = true ∧ utf8_error bytes = None ∧
   ∃ df, read_csv bytes = Ok df ∧ Forall (λ k, is_Some (df !! k)) required_columns).
Proof.
  intros bytes code. subst code.
  destruct (str_endswith (filename file) ".csv") eqn:Hf.
  - rewrite analyze_accepts by done. cbn [fst]. fold bytes.
    pose proof (process_Ok_iff read_csv bytes) as Hiff.
    destruct (process read_csv bytes) as [r|e]; cbn [status].
    + split; [by left|]. split; [intros _|done].
      split; [done|]. apply Hiff. by eexists.
    + split; [by right; right|]. split; [done|].
      intros (_ & H). apply Hiff in H as [r Hr]. done.
  - rewrite analyze_rejects by done. cbn [fst status].
    split; [by right; left|]. split; [done|]. by intros [? _].
Qed.

Lemma food_amounts_none (amounts cats : list value) :
  Forall (λ c, clean_category c ≠ "Food") cats → food_amounts amounts cats = [].
Proof.
  unfold food_amounts. intros Hc. revert amounts.
  induction Hc as [|c cats Hne _ IH]; intros [|a amounts]; try done.
  cbn [zip zip_with]. rewrite filter_cons. cbn [snd].
  rewrite decide_False by done. apply IH.
Qed.

(** X14: when no row has a category that cleans to Food, the answer is
    ["$0.00"]: the sum of no amounts is zero, not an error and not a
    missing value.  The categories are ASCII text or missing, so that
    [clean_category] tells the Food rows as the source does. *)
Theorem analyze_no_food {P : Platform}
    (read_csv : string → result (gmap string (list value)))
    (file : UploadFile) (df : gmap string (list value)) (amounts cats : list value) :
  str_endswith (filename file) ".csv" = true →
  utf8_error (str_drop (cursor file) (content file)) = None →
  read_csv (str_drop (cursor file) (content file)) = Ok df →
  is_Some (df !! "Name") → is_Some (df !! "Date") →
  df !! "Amount" = Some amounts → df !! "Category" = Some cats →
  Forall (λ c, str_isascii (py_str c) = true) cats →
  Forall (λ c, clean_category c ≠ "Food") cats →
  (analyze_expenses read_csv file).1 = Response (body "$0.00").
Proof.
  intros Hf Hu Hr [names Hn] [dates Hd] Ha Hc _ Hnone.
  rewrite analyze_accepts by done. cbn [fst].
  rewrite (process_ok read_csv _ df names dates amounts cats) by done.
  unfold food_total. by rewrite food_amounts_none.
Qed.

Lemma analyze_no_food_witness :
  (analyze_expenses (P := iso_years) pd_read_csv
     (upload "expenses.csv"
        (csv_lines ["Name;Date;Amount;Category"; "jane;2023-01-01;5.00;travel";
                    "joe;02/01/2023;7,25;fo od"]))).1 =
  Response (body "$0.00").
Proof.
  refine (analyze_no_food (P := iso_years) pd_read_csv _
            (list_to_map
               [("Name", [Str "jane"; Str "joe"]);
                ("Date", [Str "2023-01-01"; Str "02/01/2023"]);
                ("Amount", [Str "5.00"; Str "7,25"]);
                ("Category", [Str "travel"; Str "fo od"])])
            [Str "5.00"; Str "7,25"] [Str "travel"; Str "fo od"] _ _ _ _ _ _ _ _ _);
    try (vm_compute; reflexivity); try (by eexists; vm_compute);
    repeat (apply Forall_cons_2; [by vm_compute|]); apply Forall_nil_2.
Defined.

Lemma str_endswith_spec (s suffix : string) :
  str_endswith s suffix = true ↔ ∃ p, s = p +:+ suffix.
Proof.
  split.
  - induction s as [|c r IH].
    + cbn [str_endswith]. rewrite orb_false_r. intros <-%String.eqb_eq. by exists "".
    + cbn [str_endswith]. intros [->%String.eqb_eq|H]%orb_prop; [by exists ""|].
      destruct (IH H) as [p ->]. by exists (String c p).
  - intros [p ->]. induction p as [|c p IH].
    + cbv [String.append]. destruct suffix; simpl; [done|].
      by rewrite Ascii.eqb_refl, String.eqb_refl.
    + cbv [String.append]; fold String.append. cbn [str_endswith].
      rewrite IH. apply orb_true_r.
Qed.

(** X15: the handler goes past the check of the file name exactly for
    the names made of some stem, possibly empty, followed by [.csv] in
    lowercase. *)
Theorem analyze_csv_suffix {P : Platform}
    (read_csv : string → result (gmap string (list value))) (file : UploadFile) :
  status (analyze_expenses read_csv file).1 ≠ 400%Z ↔
  ∃ stem, filename file = stem +:+ ".csv".
Proof.
  rewrite <- str_endswith_spec, analyze_status.
  by destruct (str_endswith (filename file) ".csv").
Qed.

Lemma utf8_scan_ascii (pos : N) (s : string) :
  str_isascii s = true → utf8_scan pos s = None.
Proof.
  revert pos. induction s as [|c r IH]; intros pos; [done|].
  cbn [str_isascii]. intros [Hc Hr]%andb_prop.
  cbn [utf8_scan]. rewrite Hc. by apply IH.
Qed.

(** X16: bytes below 128 always decode, to the text with the same
    bytes: a file in plain ASCII never fails with a decoding error. *)
Theorem decode_utf8_ascii (bytes : string) :
  str_isascii bytes = true → decode_utf8 bytes = Ok bytes.
Proof.
  intros Ha. unfold decode_utf8, utf8_error. by rewrite utf8_scan_ascii.
Qed.

Lemma decode_utf8_ascii_witness :
  decode_utf8 "Name;Date;Amount;Category" = Ok "Name;Date;Amount;Category".
Proof. apply decode_utf8_ascii. reflexivity. Defined.







(** * The total of the Food rows *)

(** The levels given to the recursion do not show in the sum once there
    are enough of them: a part is shorter than the whole by 57 cells at
    least. *)
Lemma pairwise_sum_depth (d d' : nat) (a : list float) :
  length a ≤ d + 128 → length a ≤ d' + 128 → pairwise_sum d a = pairwise_sum d' a.
Proof.
  revert d' a. induction d as [|d IH]; intros d' a Hd Hd'.
  - destruct d'; cbn [pairwise_sum]; [done|].
    destruct (length a <? 8) eqn:H8; [done|].
    by replace (length a <=? 128) with true by (symmetry; apply Nat.leb_le; lia).
  - destruct d' as [|d'].
    + cbn [pairwise_sum]. destruct (length a <? 8) eqn:H8; [done|].
      by replace (length a <=? 128) with true by (symmetry; apply Nat.leb_le; lia).
    + cbn [pairwise_sum]. destruct (length a <? 8) eqn:H8; [done|].
      destruct (Nat.leb_spec (length a) 128) as [Hle|Hgt]; [done|].
      pose proof (Nat.div_mod (length a) 2 ltac:(done)) as Hdm.
      pose proof (Nat.mod_upper_bound (length a) 2 ltac:(done)) as Hmod.
      set (h := length a / 2) in *.
      pose proof (Nat.mod_upper_bound h 8 ltac:(done)) as Hmod8.
      pose proof (Nat.Div0.mod_le h 8) as Hle8.
      f_equal; apply IH; rewrite ?length_take, ?length_drop; lia.
Qed.

(** ** Sums of amounts with two decimals

    The floats that stand for such amounts, and for their sums below
    [2 ^ 27], are multiples of [2 ^ -59] with a full mantissa.  Reading
    an amount and adding two of them each round by at most [2 ^ -27],
    however numpy orders the additions, so that the sum of up to 300000
    amounts stays within half a hundredth of the exact total, which is
    then what the [.2f] format prints. *)

Section sums.
Local Open Scope Z_scope.

Lemma shl_align_value (m : positive) (e e' : Z) :
  e' <= e → Z.pos (shl_align m e e').1 = Z.pos m * 2 ^ (e - e').
Proof.
  intros He. unfold shl_align.
  destruct (e' - e) as [|d|d] eqn:Hd; cbn [fst].
  - replace (e - e') with 0 by lia. lia.
  - lia.
  - replace (e - e') with (Z.pos d) by lia.
    change (Pos.iter xO m d) with (shift_pos d m).
    rewrite shift_pos_correct, Zpower_pos_nat, Zpower_nat_Z, positive_nat_Z. lia.
Qed.

(** Rounding a mantissa of more than 53 bits. *)
Lemma binary_round_long (q : positive) (e k : Z) :
  1 <= k → 2 ^ (52 + k) <= Z.pos q < 2 ^ (53 + k) → -1074 <= e + k <= 970 →
  let m2 := round_shift (Z.pos q) k false in
  binary_round prec emax false q e =
  if m2 <? 2 ^ 53 then S754_finite false (Z.to_pos m2) (e + k)
  else S754_finite false (Z.to_pos (2 ^ 52)) (e + k + 1).
Proof.
  intros Hk Hq He m2. unfold binary_round.
  change (Z.pos (digits2_pos q)) with (Zdigits2 (Z.pos q)).
  rewrite (Zdigits2_bounds (Z.pos q) (52 + k)) by
    (lia || (replace (52 + k + 1) with (53 + k) by lia; done)).
  unfold fexp, SpecFloat.emin, prec, emax.
  replace (Z.max (52 + k + 1 + e - 53) (3 - 1024 - 53)) with (e + k) by lia.
  unfold shl_align. destruct (e + k - e) as [|d|d] eqn:Hd; try lia.
  apply (binary_round_aux_shift false (Z.pos q) e k loc_Exact); done.
Qed.

Lemma pow2_pos (a : Z) : 0 <= a → 0 < 2 ^ a.
Proof. intros. apply Z.pow_pos_nonneg; lia. Qed.

Lemma pow2_split (a b : Z) : 0 <= a → 0 <= b → 2 ^ (a + b) = 2 ^ a * 2 ^ b.
Proof. intros. by rewrite Z.pow_add_r. Qed.

(** The sum of two floats of the grid is the float of the grid nearest
    to their sum. *)
Lemma float_add_grid (x y : float) (Nx Ny : Z) :
  on_grid x Nx → on_grid y Ny → Nx + Ny < 2 ^ 86 →
  ∃ Nz, on_grid (float_add x y) Nz ∧ Z.abs (Nz - (Nx + Ny)) <= 2 ^ 32.
Proof.
  intros [[-> ->]|(mx & ex & -> & Hmx & Hex & ->)] [[-> ->]|(my & ey & -> & Hmy & Hey & ->)] Hsum.
  - exists 0. split; [by left|done].
  - eexists. split; [right; by exists my, ey|]. cbn [float_add SFadd]. lia.
  - eexists. split; [right; by exists mx, ex|]. lia.
  - unfold float_add, SFadd. cbn [cond_Zopp].
    set (ez := Z.min ex ey).
    rewrite !shl_align_value by lia.
    set (a := ez + 59).
    assert (0 <= a) as Ha by lia.
    pose proof (pow2_pos a Ha) as HA.
    pose proof (pow2_pos (ex - ez) ltac:(lia)) as HX.
    pose proof (pow2_pos (ey - ez) ltac:(lia)) as HY.
    assert (2 ^ (ex + 59) = 2 ^ (ex - ez) * 2 ^ a) as Hx59.
    { rewrite <- pow2_split by lia. f_equal. lia. }
    assert (2 ^ (ey + 59) = 2 ^ (ey - ez) * 2 ^ a) as Hy59.
    { rewrite <- pow2_split by lia. f_equal. lia. }
    rewrite Hx59, Hy59 in Hsum |- *.
    assert (2 ^ (ex - ez) = 1 ∨ 2 ^ (ey - ez) = 1) as Hone.
    { destruct (Z.min_spec ex ey) as [[_ Hm]|[_ Hm]]; fold ez in Hm; [left|right];
        rewrite Hm, Z.sub_diag; reflexivity. }
    set (X := 2 ^ (ex - ez)) in *. set (Y := 2 ^ (ey - ez)) in *. set (A := 2 ^ a) in *.
    set (q := Z.pos mx * X + Z.pos my * Y).
    assert (2 ^ 53 <= q) as Hq53 by (unfold q; nia).
    assert (Z.pos mx * (X * A) + Z.pos my * (Y * A) = q * A) as HN by (unfold q; ring).
    rewrite HN in Hsum |- *.
    pose proof (Z.log2_spec q ltac:(lia)) as [Hlo Hhi].
    assert (53 <= Z.log2 q) as HL by (apply Z.log2_le_pow2; lia).
    set (k := Z.log2 q - 52).
    assert (1 <= k) as Hk by lia.
    assert (2 ^ (52 + k) <= q < 2 ^ (53 + k)) as Hqk.
    { unfold k. replace (52 + (Z.log2 q - 52)) with (Z.log2 q) by lia.
      replace (53 + (Z.log2 q - 52)) with (Z.succ (Z.log2 q)) by lia. done. }
    assert (ez + k <= -26) as Hek.
    { assert (2 ^ (52 + k) * A < 2 ^ 86) as Hlt by nia.
      unfold A in Hlt. rewrite <- pow2_split in Hlt by lia.
      apply Z.pow_lt_mono_r_iff in Hlt; lia. }
    assert (∃ p, q = Z.pos p) as [p Hp] by (exists (Z.to_pos q); rewrite Z2Pos.id; lia).
    clearbody q. subst q.
    cbn [binary_normalize].
    rewrite (binary_round_long p ez k) by (done || lia).
    destruct (round_shift_near (Z.pos p) k 1 0) as [Hnear Hm2]; [lia..|].
    change (negb (0 =? 0)) with false in Hnear, Hm2.
    set (m2 := round_shift (Z.pos p) k false) in *.
    pose proof (pow2_pos k ltac:(lia)) as HK.
    assert (2 ^ 52 <= Z.pos p / 2 ^ k < 2 ^ 53) as Hm1.
    { destruct Hqk as [Hq1 Hq2]. rewrite pow2_split in Hq1, Hq2 by lia. split.
      - apply Z.div_le_lower_bound; lia.
      - apply Z.div_lt_upper_bound; lia. }
    exists (m2 * 2 ^ k * A). split.
    + right. destruct (Z.ltb_spec m2 (2 ^ 53)) as [Hlt|Hge].
      * exists (Z.to_pos m2), (ez + k). rewrite Z2Pos.id by lia.
        split; [done|]. split; [lia|]. split; [lia|].
        replace (ez + k + 59) with (k + a) by lia.
        rewrite pow2_split by lia. fold A. ring.
      * exists (Z.to_pos (2 ^ 52)), (ez + k + 1).
        split; [done|]. split; [done|]. split; [lia|].
        assert (m2 = 2 ^ 53) as -> by lia.
        replace (ez + k + 1 + 59) with (1 + (k + a)) by lia.
        rewrite !pow2_split by lia. fold A.
        change (Z.pos (Z.to_pos (2 ^ 52))) with (2 ^ 52). change (2 ^ 53) with (2 ^ 52 * 2 ^ 1).
        ring.
    + replace (m2 * 2 ^ k * A - Z.pos p * A) with ((1 * m2 * 2 ^ k - (1 * Z.pos p + 0)) * A) by ring.
      rewrite abs_mul_pos by done.
      assert (2 ^ 32 = 2 ^ (32 - a) * A) as ->.
      { unfold A. rewrite <- pow2_split by lia. f_equal. lia. }
      apply Z.mul_le_mono_nonneg_r; [lia|].
      assert (2 ^ k <= 2 ^ (32 - a) * 2); [|lia].
      replace (2 ^ (32 - a) * 2) with (2 ^ (32 - a + 1))
        by (rewrite pow2_split by lia; reflexivity).
      apply Z.pow_le_mono_r; lia.
Qed.

(** The float read in a number of hundredths: it has a full mantissa
    and is within half a unit in the last place of the number. *)
Lemma float_of_decimal_near (neg : bool) (n : Z) :
  1 <= n < 10 ^ 15 →
  ∃ m e, float_of_decimal neg n (-2) = S754_finite neg m e ∧
         2 ^ 52 <= Z.pos m < 2 ^ 53 ∧ e < 0 ∧
         2 * Z.abs (100 * Z.pos m - n * 2 ^ (- e)) <= 100.
Proof.
  intros Hn. unfold float_of_decimal.
  pose proof (Z.log2_nonneg n) as HL0.
  assert (Z.log2 n < 50) as HL.
  { apply Z.log2_lt_pow2; [lia|]. eapply Z.lt_trans; [apply Hn|]. reflexivity. }
  destruct (Z.log2_spec n ltac:(lia)) as [Hlo Hhi].
  set (L := Z.log2 n) in *.
  replace (n <=? 0) with false by (symmetry; apply Z.leb_gt; lia).
  change (400 <? -2) with false. change (0 <=? -2) with false.
  replace (-2 + L + 1 <? -400) with false by (symmetry; apply Z.ltb_ge; lia).
  cbn iota. change (10 ^ (- -2)) with 100. change (Z.log2 100) with 6.
  replace (Z.max 0 (64 + 6 - L)) with (70 - L) by lia.
  set (s := 70 - L).
  rewrite Z.shiftl_mul_pow2 by lia.
  assert (0 < 2 ^ L) as HpL by (apply Z.pow_pos_nonneg; lia).
  assert (0 < 2 ^ s) as Hps by (apply Z.pow_pos_nonneg; lia).
  assert (2 ^ L * 2 ^ s = 2 ^ 70) as Hsum.
  { rewrite <- Z.pow_add_r by lia. f_equal. lia. }
  assert (2 ^ 70 <= n * 2 ^ s < 2 ^ 71) as HN2.
  { replace (Z.succ L) with (L + 1) in Hhi by lia.
    rewrite Z.pow_add_r in Hhi by lia. change (2 ^ 1) with 2 in Hhi.
    change (2 ^ 71) with (2 ^ 70 * 2). nia. }
  pose proof (Z_div_mod (n * 2 ^ s) 100 ltac:(lia)) as Hdiv.
  destruct (Z.div_eucl (n * 2 ^ s) 100) as [q r]. destruct Hdiv as [HN Hr].
  assert (2 ^ 63 <= q < 2 ^ 65) as Hq.
  { change (2 ^ 70) with (2 ^ 63 * 128) in HN2. change (2 ^ 71) with (2 ^ 63 * 256) in HN2.
    change (2 ^ 65) with (2 ^ 63 * 4). assert (0 < 2 ^ 63) by done. lia. }
  assert (∃ k, (k = 11 ∨ k = 12) ∧ 2 ^ (52 + k) <= q < 2 ^ (53 + k)) as (k & Hk & Hqk).
  { destruct (Z_lt_le_dec q (2 ^ 64)); [exists 11|exists 12]; (split; [auto|]);
      [change (2 ^ (52 + 11)) with (2 ^ 63); change (2 ^ (53 + 11)) with (2 ^ 64)
      |change (2 ^ (52 + 12)) with (2 ^ 64); change (2 ^ (53 + 12)) with (2 ^ 65)]; lia. }
  rewrite (binary_round_aux_shift neg q (- s) k) by (done || lia).
  rewrite new_location_exact.
  destruct (round_shift_near q k 100 r) as [Hnear Hm2]; [lia..|].
  set (m2 := round_shift q k (negb (r =? 0))) in *.
  assert (0 < 2 ^ k) as Hpk by (apply Z.pow_pos_nonneg; lia).
  assert (2 ^ 52 <= q / 2 ^ k) as Hm1.
  { apply Z.div_le_lower_bound; [done|].
    destruct Hqk as [Hqk _]. rewrite Z.pow_add_r in Hqk by lia. lia. }
  set (b := 2 ^ (s - k)).
  assert (2 ^ s = b * 2 ^ k) as Hb.
  { unfold b. rewrite <- Z.pow_add_r by lia. f_equal. lia. }
  assert (2 * Z.abs (100 * m2 - n * b) <= 100) as Hclose.
  { replace (100 * m2 * 2 ^ k - (100 * q + r)) with ((100 * m2 - n * b) * 2 ^ k) in Hnear
      by (rewrite <- HN, Hb; ring).
    rewrite abs_mul_pos in Hnear by done. nia. }
  destruct (Z.ltb_spec m2 (2 ^ 53)) as [Hlt|Hge].
  - exists (Z.to_pos m2), (- s + k). rewrite Z2Pos.id by lia.
    split; [done|]. split; [lia|]. split; [lia|].
    replace (- (- s + k)) with (s - k) by lia. done.
  - exists (Z.to_pos (2 ^ 52)), (- s + k + 1).
    split; [done|]. split; [done|]. split; [lia|].
    assert (q / 2 ^ k < 2 ^ 53) as Hm1u.
    { apply Z.div_lt_upper_bound; [done|].
      destruct Hqk as [_ Hqk]. rewrite Z.pow_add_r in Hqk by lia. lia. }
    assert (m2 = 2 ^ 53) as Hm by lia.
    set (b' := 2 ^ (- (- s + k + 1))).
    assert (b = b' * 2) as Hbb.
    { unfold b, b'. replace (s - k) with (- (- s + k + 1) + 1) by lia.
      rewrite Z.pow_add_r by lia. reflexivity. }
    rewrite Hm, Hbb in Hclose. change (2 ^ 53) with (2 ^ 52 * 2) in Hclose.
    replace (100 * (2 ^ 52 * 2) - n * (b' * 2)) with ((100 * 2 ^ 52 - n * b') * 2) in Hclose by ring.
    rewrite abs_mul_pos in Hclose by done.
    change (Z.pos (Z.to_pos (2 ^ 52))) with (2 ^ 52). lia.
Qed.

(** An amount of at most ten to the tenth hundredths is on the grid. *)
Lemma approx_leaf (n : Z) :
  0 <= n < 10 ^ 10 → approx (float_of_decimal false n (-2)) n 1.
Proof.
  intros Hn. split; [lia|]. split; [lia|].
  destruct (Z.eq_dec n 0) as [->|Hne].
  { exists 0. split; [by left|done]. }
  destruct (float_of_decimal_near false n) as (m & e & -> & Hm & He & Hnear).
  { split; [lia|]. eapply Z.lt_trans; [apply Hn|]. reflexivity. }
  pose proof (pow2_pos (- e) ltac:(lia)) as Hpos.
  assert (e <= -26) as Hhi.
  { destruct (Z_le_gt_dec e (-26)) as [|Hgt]; [done|exfalso].
    assert (2 ^ (- e) <= 2 ^ 25) as Hp by (apply Z.pow_le_mono_r; lia).
    change (2 ^ 25) with 33554432 in Hp. change (2 ^ 52) with 4503599627370496 in Hm.
    change (10 ^ 10) with 10000000000 in Hn. nia. }
  assert (-59 <= e) as Hlo.
  { destruct (Z_le_gt_dec (-59) e) as [|Hgt]; [done|exfalso].
    assert (2 ^ 60 <= 2 ^ (- e)) as Hp by (apply Z.pow_le_mono_r; lia).
    change (2 ^ 60) with 1152921504606846976 in Hp.
    change (2 ^ 53) with 9007199254740992 in Hm. nia. }
  exists (Z.pos m * 2 ^ (e + 59)). split.
  - right. exists m, e. repeat split; lia.
  - pose proof (pow2_pos (e + 59) ltac:(lia)) as HA.
    assert (2 ^ 59 = 2 ^ (- e) * 2 ^ (e + 59)) as ->.
    { rewrite <- pow2_split by lia. f_equal. lia. }
    replace (100 * (Z.pos m * 2 ^ (e + 59)) - n * (2 ^ (- e) * 2 ^ (e + 59)))
      with ((100 * Z.pos m - n * 2 ^ (- e)) * 2 ^ (e + 59)) by ring.
    rewrite abs_mul_pos by done.
    assert (2 ^ (e + 59) <= 2 ^ 33) as Hp by (apply Z.pow_le_mono_r; lia).
    change (2 ^ 33) with 8589934592 in Hp. change (2 ^ 32) with 4294967296.
    nia.
Qed.

Lemma approx_zero : approx float_zero 0 0.
Proof. split; [done|]. split; [done|]. exists 0. split; [by left|done]. Qed.

Lemma approx_mono (x : float) (S c c' : Z) : approx x S c → c <= c' → approx x S c'.
Proof.
  intros (HS & Hc & N & Hg & HN) Hle. split; [done|]. split; [lia|].
  exists N. split; [done|]. change (2 ^ 32) with 4294967296 in *. nia.
Qed.

(** Adding two such floats rounds once more. *)
Lemma approx_add (x y : float) (S1 S2 c1 c2 : Z) :
  approx x S1 c1 → approx y S2 c2 → S1 + S2 < 10 ^ 10 → c1 + c2 + 1 <= 600001 →
  approx (float_add x y) (S1 + S2) (c1 + c2 + 1).
Proof.
  intros (HS1 & Hc1 & Nx & Hgx & Hx) (HS2 & Hc2 & Ny & Hgy & Hy) HS Hc.
  change (2 ^ 59) with 576460752303423488 in *. change (2 ^ 32) with 4294967296 in *.
  change (10 ^ 10) with 10000000000 in *.
  destruct (float_add_grid x y Nx Ny Hgx Hgy) as (Nz & Hgz & Hz).
  { change (2 ^ 86) with 77371252455336267181195264. lia. }
  change (2 ^ 32) with 4294967296 in *.
  split; [lia|]. split; [lia|]. exists Nz. split; [done|]. lia.
Qed.

(** What is printed for such a float. *)
Lemma format_2f_approx (x : float) (S c : Z) :
  approx x S c → c <= 600001 → format_2f x = hundredths_text false S.
Proof.
  intros (HS & Hc & N & Hg & HN) Hle.
  assert (2 * Z.abs (100 * N - S * 2 ^ 59) < 2 ^ 59) as Hnear.
  { change (2 ^ 59) with 576460752303423488 in *. change (2 ^ 32) with 4294967296 in *. lia. }
  destruct Hg as [[-> ->]|(m & e & -> & Hm & He & ->)].
  - assert (S = 0) as -> by (change (2 ^ 59) with 576460752303423488 in *; lia).
    reflexivity.
  - unfold format_2f, hundredths_text.
    replace (0 <=? e) with false by (symmetry; apply Z.leb_gt; lia).
    pose proof (pow2_pos (- e) ltac:(lia)) as Hpos.
    pose proof (pow2_pos (e + 59) ltac:(lia)) as HA.
    rewrite (div_half_even_near (100 * Z.pos m) (2 ^ (- e)) S); [reflexivity|done|].
    assert (2 ^ 59 = 2 ^ (- e) * 2 ^ (e + 59)) as Heq.
    { rewrite <- pow2_split by lia. f_equal. lia. }
    rewrite Heq in Hnear.
    replace (100 * (Z.pos m * 2 ^ (e + 59)) - S * (2 ^ (- e) * 2 ^ (e + 59)))
      with ((100 * Z.pos m - S * 2 ^ (- e)) * 2 ^ (e + 59)) in Hnear by ring.
    rewrite abs_mul_pos in Hnear by done. nia.
Qed.

(** *** Sums of lists *)

Lemma sum_Z_cons (n : Z) (l : list Z) : sum_Z (n :: l) = n + sum_Z l.
Proof. reflexivity. Qed.

Lemma sum_Z_app (l1 l2 : list Z) : sum_Z (l1 ++ l2) = sum_Z l1 + sum_Z l2.
Proof.
  induction l1 as [|n l1 IH]; [reflexivity|].
  cbn [app]. rewrite !sum_Z_cons, IH. lia.
Qed.

Lemma sum_Z_take_drop (k : nat) (l : list Z) : sum_Z (take k l) + sum_Z (drop k l) = sum_Z l.
Proof. by rewrite <- sum_Z_app, take_drop. Qed.

Lemma sum_Z_take_add (j k : nat) (l : list Z) :
  sum_Z (take (j + k) l) = sum_Z (take j l) + sum_Z (take k (drop j l)).
Proof.
  revert l. induction j as [|j IH]; intros l.
  { rewrite take_0, drop_0. change (0 + k)%nat with k. change (sum_Z []) with 0. lia. }
  destruct l as [|n l]; [by rewrite drop_nil, !take_nil|].
  cbn [Nat.add take drop]. rewrite !sum_Z_cons, IH. lia.
Qed.

Lemma sum_Z_zip_add (l1 l2 : list Z) :
  length l1 = length l2 → sum_Z (zip_with Z.add l1 l2) = sum_Z l1 + sum_Z l2.
Proof.
  revert l2. induction l1 as [|a l1 IH]; intros [|b l2] Hlen; try done.
  cbn [zip_with]. rewrite !sum_Z_cons, IH by (cbn in Hlen; lia). lia.
Qed.

Lemma approx_sum_nonneg (xs : list float) (ns : list Z) (c : Z) :
  Forall2 (λ x n, approx x n c) xs ns → 0 <= sum_Z ns.
Proof.
  induction 1 as [|x n xs ns [Hn _] _ IH]; [done|].
  rewrite sum_Z_cons. lia.
Qed.

(** *** The loops of the pairwise summation *)

Lemma foldl_approx (xs : list float) (ns : list Z) (acc : float) (T c : Z) :
  Forall2 (λ x n, approx x n 1) xs ns →
  approx acc T c → T + sum_Z ns < 10 ^ 10 → c + 2 * Z.of_nat (length xs) <= 600001 →
  approx (foldl float_add acc xs) (T + sum_Z ns) (c + 2 * Z.of_nat (length xs)).
Proof.
  intros Hl. revert acc T c.
  induction Hl as [|x n xs ns Hx Hl IH]; intros acc T c Hacc HT Hc.
  - cbn [foldl sum_Z foldr length]. by rewrite Z.add_0_r, Z.mul_0_r, Z.add_0_r.
  - pose proof (approx_sum_nonneg _ _ _ Hl) as Hpos.
    pose proof Hx as [Hn _]. pose proof Hacc as [HT0 _].
    rewrite sum_Z_cons in *. cbn [foldl length] in *.
    replace (T + (n + sum_Z ns)) with ((T + n) + sum_Z ns) by lia.
    replace (c + 2 * Z.of_nat (S (length xs))) with ((c + 1 + 1) + 2 * Z.of_nat (length xs)) by lia.
    apply IH; [|lia|lia]. apply approx_add; [done|done|lia|lia].
Qed.

Lemma zip_add_approx (rs : list float) (Ts : list Z) (xs : list float) (ns : list Z) (c : Z) :
  Forall2 (λ r T, approx r T c) rs Ts → Forall2 (λ x n, approx x n 1) xs ns →
  sum_Z Ts + sum_Z ns < 10 ^ 10 → c + 2 <= 600001 →
  Forall2 (λ r T, approx r T (c + 2)) (zip_with float_add rs xs) (zip_with Z.add Ts ns).
Proof.
  intros Hr. revert xs ns.
  induction Hr as [|r T rs Ts Hr Hrs IH]; intros xs ns Hx Hsum Hc; [constructor|].
  destruct Hx as [|x n xs ns Hx Hxs]; [constructor|].
  pose proof (approx_sum_nonneg _ _ _ Hrs) as Hpos1.
  pose proof (approx_sum_nonneg _ _ _ Hxs) as Hpos2.
  pose proof Hx as [Hn _]. pose proof Hr as [HT _].
  rewrite !sum_Z_cons in Hsum. cbn [zip_with].
  constructor.
  - replace (c + 2) with (c + 1 + 1) by lia. apply approx_add; [done|done|lia|lia].
  - apply IH; [done|lia|done].
Qed.

Lemma sum_blocks_approx (blocks : nat) (rs : list float) (Ts : list Z)
    (a : list float) (ns : list Z) (c : Z) :
  length rs = 8%nat → Forall2 (λ r T, approx r T c) rs Ts →
  Forall2 (λ x n, approx x n 1) a ns → (8 * blocks <= length a)%nat →
  sum_Z Ts + sum_Z ns < 10 ^ 10 → c + 2 * Z.of_nat blocks <= 600001 →
  ∃ Ts', Forall2 (λ r T, approx r T (c + 2 * Z.of_nat blocks)) (sum_blocks blocks rs a) Ts' ∧
         sum_Z Ts' = sum_Z Ts + sum_Z (take (8 * blocks) ns).
Proof.
  revert rs Ts a ns c.
  induction blocks as [|b IH]; intros rs Ts a ns c Hlen Hr Ha Hb Hsum Hc.
  - exists Ts. cbn [sum_blocks]. rewrite Z.mul_0_r, Z.add_0_r, Nat.mul_0_r, take_0.
    split; [done|]. cbn. lia.
  - cbn [sum_blocks].
    pose proof (Forall2_length _ _ _ Hr) as HlenT.
    pose proof (Forall2_length _ _ _ Ha) as Hlenn.
    pose proof (sum_Z_take_drop 8 ns) as Htd.
    pose proof (approx_sum_nonneg _ _ _ (Forall2_drop _ _ _ 8 Ha)) as Hposd.
    destruct (IH (zip_with float_add rs (take 8 a)) (zip_with Z.add Ts (take 8 ns))
                 (drop 8 a) (drop 8 ns) (c + 2)) as (Ts' & HTs' & Hsum').
    + rewrite length_zip_with, length_take. lia.
    + apply zip_add_approx; [done|by apply Forall2_take|lia|lia].
    + by apply Forall2_drop.
    + rewrite length_drop. lia.
    + rewrite sum_Z_zip_add by (rewrite length_take; lia). lia.
    + lia.
    + exists Ts'. split.
      * replace (c + 2 * Z.of_nat (S b)) with (c + 2 + 2 * Z.of_nat b) by lia. done.
      * rewrite Hsum', sum_Z_zip_add by (rewrite length_take; lia).
        replace (8 * S b)%nat with (8 + 8 * b)%nat by lia.
        rewrite sum_Z_take_add. lia.
Qed.

Lemma sum_blocks_length (blocks : nat) (rs a : list float) :
  length rs = 8%nat → (8 * blocks <= length a)%nat →
  length (sum_blocks blocks rs a) = 8%nat.
Proof.
  revert rs a. induction blocks as [|b IH]; intros rs a Hlen Hb; [done|].
  cbn [sum_blocks]. apply IH.
  - rewrite length_zip_with, length_take. lia.
  - rewrite length_drop. lia.
Qed.

Lemma sum_unrolled_approx (a : list float) (ns : list Z) :
  Forall2 (λ x n, approx x n 1) a ns → (8 <= length a)%nat →
  sum_Z ns < 10 ^ 10 → 2 * Z.of_nat (length a) <= 600001 →
  approx (sum_unrolled a) (sum_Z ns) (2 * Z.of_nat (length a) - 1).
Proof.
  intros Ha Hlen Hsum Hc. unfold sum_unrolled.
  pose proof (Forall2_length _ _ _ Ha) as Hlenn.
  pose proof (Nat.div_mod (length a) 8 ltac:(done)) as Hdm.
  pose proof (Nat.mod_upper_bound (length a) 8 ltac:(done)) as Hmod.
  set (d := (length a / 8)%nat) in *. set (rem := (length a mod 8)%nat) in *.
  assert (1 <= d)%nat as Hd by lia.
  pose proof (sum_Z_take_drop 8 ns) as Htd.
  pose proof (approx_sum_nonneg _ _ _ (Forall2_drop _ _ _ 8 Ha)) as Hposd.
  pose proof (approx_sum_nonneg _ _ _ (Forall2_take _ _ _ 8 Ha)) as Hpost.
  destruct (sum_blocks_approx (d - 1) (take 8 a) (take 8 ns) (drop 8 a) (drop 8 ns) 1)
    as (Ts & HTs & HsumT).
  { rewrite length_take. lia. }
  { by apply Forall2_take. }
  { by apply Forall2_drop. }
  { rewrite length_drop. lia. }
  { lia. }
  { lia. }
  pose proof (sum_blocks_length (d - 1) (take 8 a) (drop 8 a)) as Hl8.
  rewrite length_take, length_drop in Hl8. specialize (Hl8 ltac:(lia) ltac:(lia)).
  assert (sum_Z Ts + sum_Z (drop (8 * d) ns) = sum_Z ns) as Htotal.
  { rewrite HsumT, <- sum_Z_take_add. replace (8 + 8 * (d - 1))%nat with (8 * d)%nat by lia.
    apply sum_Z_take_drop. }
  pose proof (Forall2_drop _ _ _ (8 * d) Ha) as Hrest.
  pose proof (approx_sum_nonneg _ _ _ Hrest) as Hposr.
  set (c := 1 + 2 * Z.of_nat (d - 1)) in *.
  destruct (sum_blocks (d - 1) (take 8 a) (drop 8 a))
    as [|r0 [|r1 [|r2 [|r3 [|r4 [|r5 [|r6 [|r7 [|r8 rs]]]]]]]]]; try done.
  apply Forall2_cons_inv_l in HTs as (T0 & Ts0 & H0 & HTs & ->).
  apply Forall2_cons_inv_l in HTs as (T1 & Ts1 & H1 & HTs & ->).
  apply Forall2_cons_inv_l in HTs as (T2 & Ts2 & H2 & HTs & ->).
  apply Forall2_cons_inv_l in HTs as (T3 & Ts3 & H3 & HTs & ->).
  apply Forall2_cons_inv_l in HTs as (T4 & Ts4 & H4 & HTs & ->).
  apply Forall2_cons_inv_l in HTs as (T5 & Ts5 & H5 & HTs & ->).
  apply Forall2_cons_inv_l in HTs as (T6 & Ts6 & H6 & HTs & ->).
  apply Forall2_cons_inv_l in HTs as (T7 & Ts7 & H7 & HTs & ->).
  apply Forall2_nil_inv_l in HTs as ->.
  rewrite !sum_Z_cons in Htotal, HsumT. change (sum_Z []) with 0 in Htotal, HsumT.
  pose proof H0 as [? _]. pose proof H1 as [? _]. pose proof H2 as [? _].
  pose proof H3 as [? _]. pose proof H4 as [? _]. pose proof H5 as [? _].
  pose proof H6 as [? _]. pose proof H7 as [? _].
  assert (approx (float_add (float_add (float_add r0 r1) (float_add r2 r3))
                            (float_add (float_add r4 r5) (float_add r6 r7)))
                 (T0 + T1 + (T2 + T3) + (T4 + T5 + (T6 + T7)))
                 (c + c + 1 + (c + c + 1) + 1 + (c + c + 1 + (c + c + 1) + 1) + 1)) as Hres.
  { repeat (apply approx_add; [..|unfold c; lia|unfold c; lia]); done. }
  pose proof (foldl_approx (drop (8 * d) a) (drop (8 * d) ns) _ _ _ Hrest Hres) as Hfold.
  rewrite length_drop in Hfold.
  eapply approx_mono.
  - replace (sum_Z ns) with (T0 + T1 + (T2 + T3) + (T4 + T5 + (T6 + T7)) + sum_Z (drop (8 * d) ns))
      by lia.
    apply Hfold; unfold c; lia.
  - unfold c. lia.
Qed.

Lemma pairwise_sum_short (depth : nat) (a : list float) :
  (length a < 8)%nat → pairwise_sum depth a = foldl float_add float_zero a.
Proof.
  intros Hlen. apply Nat.ltb_lt in Hlen.
  destruct depth; cbn [pairwise_sum]; by rewrite Hlen.
Qed.

Lemma pairwise_sum_approx (depth : nat) (a : list float) (ns : list Z) :
  Forall2 (λ x n, approx x n 1) a ns → (8 <= length a)%nat →
  (length a <= depth + 128)%nat →
  sum_Z ns < 10 ^ 10 → 2 * Z.of_nat (length a) <= 600001 →
  approx (pairwise_sum depth a) (sum_Z ns) (2 * Z.of_nat (length a) - 1).
Proof.
  revert a ns. induction depth as [|d IH]; intros a ns Ha Hlen Hdepth Hsum Hc.
  - cbn [pairwise_sum].
    replace (length a <? 8)%nat with false by (symmetry; apply Nat.ltb_ge; lia).
    replace (length a <=? 128)%nat with true by (symmetry; apply Nat.leb_le; lia).
    by apply sum_unrolled_approx.
  - cbn [pairwise_sum].
    replace (length a <? 8)%nat with false by (symmetry; apply Nat.ltb_ge; lia).
    destruct (Nat.leb_spec (length a) 128) as [Hle|Hgt]; [by apply sum_unrolled_approx|].
    pose proof (Nat.div_mod (length a) 2 ltac:(done)) as Hdm.
    pose proof (Nat.mod_upper_bound (length a) 2 ltac:(done)) as Hmod.
    set (h := (length a / 2)%nat) in *.
    pose proof (Nat.div_mod h 8 ltac:(done)) as Hdm8.
    pose proof (Nat.mod_upper_bound h 8 ltac:(done)) as Hmod8.
    set (n2 := (h - h mod 8)%nat).
    pose proof (sum_Z_take_drop n2 ns) as Htd.
    pose proof (approx_sum_nonneg _ _ _ (Forall2_drop _ _ _ n2 Ha)) as Hposd.
    pose proof (approx_sum_nonneg _ _ _ (Forall2_take _ _ _ n2 Ha)) as Hpost.
    eapply approx_mono.
    + rewrite <- Htd. apply approx_add.
      * apply IH; [by apply Forall2_take|rewrite length_take; lia..|lia|rewrite length_take; lia].
      * apply IH; [by apply Forall2_drop|rewrite length_drop; lia..|lia|rewrite length_drop; lia].
      * lia.
      * rewrite length_take, length_drop. lia.
    + rewrite length_take, length_drop. lia.
Qed.

Lemma nan_to_zero_approx (xs : list float) (ns : list Z) :
  Forall2 (λ x n, approx x n 1) xs ns → nan_to_zero <$> xs = xs.
Proof.
  induction 1 as [|x n xs ns (_ & _ & N & Hg & _) _ IH]; [done|].
  cbn [fmap list_fmap]. fold (fmap nan_to_zero xs). rewrite IH. f_equal.
  by destruct Hg as [[-> _]|(m & e & -> & _)].
Qed.

(** The sum of a column of amounts on the grid. *)
Lemma float_sum_approx (xs : list float) (ns : list Z) :
  Forall2 (λ x n, approx x n 1) xs ns →
  sum_Z ns < 10 ^ 10 → Z.of_nat (length xs) <= 300000 →
  approx (float_sum xs) (sum_Z ns) (2 * Z.of_nat (length xs) + 1).
Proof.
  intros Hx Hsum Hlen. unfold float_sum. rewrite (nan_to_zero_approx xs ns Hx).
  pose proof (approx_sum_nonneg _ _ _ Hx) as Hpos.
  destruct (Nat.lt_ge_cases (length xs) 8) as [Hshort|Hlong].
  - rewrite pairwise_sum_short by done.
    replace (sum_Z ns) with (0 + (0 + sum_Z ns)) by lia.
    replace (2 * Z.of_nat (length xs) + 1) with (0 + (0 + 2 * Z.of_nat (length xs)) + 1) by lia.
    apply approx_add; [apply approx_zero| |lia|lia].
    apply foldl_approx; [done|apply approx_zero|lia|lia].
  - eapply approx_mono.
    + replace (sum_Z ns) with (0 + sum_Z ns) by lia.
      apply approx_add; [apply approx_zero| |lia|].
      * apply pairwise_sum_approx; [done|done|lia|done|lia].
      * lia.
    + lia.
Qed.

Lemma nonneg_below_sum (ns : list Z) (B : Z) :
  Forall (λ n, 0 <= n) ns → sum_Z ns < B → Forall (λ n, 0 <= n < B) ns.
Proof.
  induction 1 as [|n ns Hn Hns IH]; intros Hsum; [constructor|].
  rewrite sum_Z_cons in Hsum.
  assert (0 <= sum_Z ns) as Hpos.
  { clear - Hns. induction Hns as [|m ns Hm _ IH]; [done|].
    rewrite sum_Z_cons. lia. }
  constructor; [lia|]. apply IH. lia.
Qed.

(** Amounts with two decimals add up exactly in the answer: the
    rounding of up to 300000 of them, for a total below a hundred
    million, stays under half a hundredth. *)
Lemma float_sum_hundredths (ns : list Z) :
  Forall (λ n, 0 <= n) ns → sum_Z ns < 10 ^ 10 → Z.of_nat (length ns) <= 300000 →
  format_2f (float_sum ((λ n, float_of_decimal false n (-2)) <$> ns)) =
  hundredths_text false (sum_Z ns).
Proof.
  intros Hpos Hsum Hlen.
  apply (format_2f_approx _ _ (2 * Z.of_nat (length ((λ n, float_of_decimal false n (-2)) <$> ns)) + 1)).
  - apply float_sum_approx; [|done|rewrite length_fmap; lia].
    apply Forall2_fmap_l, Forall_Forall2_diag.
    eapply Forall_impl; [by apply nonneg_below_sum|].
    intros n Hn. by apply approx_leaf.
  - rewrite length_fmap. lia.
Qed.

End sums.

(** ** The answer *)


Lemma food_amounts_hundredths (ns : list Z) :
  Forall (λ n, 0 <= n)%Z ns →
  normalized_amount <$> ((λ n, Str (hundredths_text false n)) <$> ns) =
  (λ n, float_of_decimal false n (-2)) <$> ns.
Proof.
  intros Hpos. rewrite <- list_fmap_compose. apply Forall_fmap_ext.
  eapply Forall_impl; [apply Hpos|]. intros n Hn. cbn [compose].
  unfold normalized_amount. by rewrite clean_amount_hundredths.
Qed.

(** X20: amounts written with two decimals add up exactly.  For up to
    300000 amounts that are not negative and total less than a hundred
    million, the [.2f] print of the sum of what [clean_amount] reads in
    them is the total of the amounts as written, digit for digit: the
    roundings of binary64 do not reach the second decimal. *)
Theorem amounts_exact_total (ns : list Z) :
  Forall (λ n, 0 <= n)%Z ns → (sum_Z ns < 10 ^ 10)%Z →
  (Z.of_nat (length ns) <= 300000)%Z →
  ∃ xs, traverse clean_amount ((λ n, Str (hundredths_text false n)) <$> ns) = Ok xs ∧
        format_2f (float_sum xs) = hundredths_text false (sum_Z ns).
Proof.
  intros Hpos Hsum Hlen. eexists. split; [apply traverse_clean_amount|].
  rewrite food_amounts_hundredths by done. by apply float_sum_hundredths.
Qed.

Lemma amounts_exact_total_witness :
  (∃ xs, traverse clean_amount
           ((λ n, Str (hundredths_text false n)) <$> [1999; 5; 120000; 250; 99; 1; 0; 4250; 333]%Z)
         = Ok xs ∧
         format_2f (float_sum xs) =
         hundredths_text false (sum_Z [1999; 5; 120000; 250; 99; 1; 0; 4250; 333]%Z)) ∧
  (λ n, hundredths_text false n) <$> [1999; 5; 120000; 250; 99; 1; 0; 4250; 333]%Z =
    ["19.99"; "0.05"; "1200.00"; "2.50"; "0.99"; "0.01"; "0.00"; "42.50"; "3.33"] ∧
  hundredths_text false (sum_Z [1999; 5; 120000; 250; 99; 1; 0; 4250; 333]%Z) = "1269.37".
Proof.
  split; [|split; vm_compute; reflexivity].
  apply (amounts_exact_total [1999; 5; 120000; 250; 99; 1; 0; 4250; 333]%Z);
    [|vm_compute; reflexivity|vm_compute; discriminate].
  repeat (apply Forall_cons_2; [by vm_compute|]). apply Forall_nil_2.
Defined.



